(** * GitHubStatsCache: a file-backed cache with expiry

    A shallow embedding of [scripts/github_stats_cache.py] together with
    the parts of the Python standard library it calls
    ([hashlib.md5], [datetime], [json], [os]), and the properties of the
    cache that follow from the code.

    Conventions of the model:
    - a Python [str] is a [string]; its characters are the code points
      U+0000 to U+00FF;
    - a Python [int] is a [Z];
    - the file system is a finite map from resolved paths (lists of
      components) to nodes; a directory node records whether the process
      may create and delete entries in it;
    - [datetime.now()] is an argument [now] of the operation that reads
      the clock;
    - a Python function that touches the file system is a function from
      the file system to an outcome (a value or a raised exception) and
      the file system it leaves behind. *)

From Stdlib Require Import ZArith String Ascii List Bool Lia.
From stdpp Require Import gmap strings list fin_maps.

Set Warnings "-register-all".

Local Open Scope string_scope.
Local Open Scope Z_scope.

#[local] Arguments String.append !_ _ : simpl nomatch.

(** ** Bytes and hexadecimal text *)

Definition byte_of_ascii (c : ascii) : Z := Z.of_N (N_of_ascii c).

Definition ascii_of_byte (b : Z) : ascii := ascii_of_N (Z.to_N b).

Definition hex_digit (n : Z) : ascii :=
  ascii_of_byte (if n <? 10 then 48 + n else 87 + n).

(** The two lower-case hexadecimal digits of a byte, as [bytes.hex] prints
    them. *)
Definition hex_byte (b : Z) : string :=
  String (hex_digit (b / 16 mod 16)) (String (hex_digit (b mod 16)) "").

Fixpoint hex_bytes (bs : list Z) : string :=
  match bs with
  | [] => ""
  | b :: bs' => hex_byte b ++ hex_bytes bs'
  end.

Definition is_hex_char (c : ascii) : bool :=
  let n := byte_of_ascii c in
  ((48 <=? n) && (n <=? 57)) || ((97 <=? n) && (n <=? 102)).

Fixpoint string_forallb (p : ascii -> bool) (s : string) : bool :=
  match s with
  | EmptyString => true
  | String c s' => p c && string_forallb p s'
  end.

(** [str.encode()]: UTF-8.  A code point below U+0080 is one byte, the
    others of this model (up to U+00FF) are two. *)
Fixpoint str_encode (s : string) : list Z :=
  match s with
  | EmptyString => []
  | String c s' =>
      let n := byte_of_ascii c in
      (if n <? 128 then [n]
       else [Z.lor 192 (Z.shiftr n 6); Z.lor 128 (Z.land n 63)])
      ++ str_encode s'
  end.

(** ** hashlib.md5 (RFC 1321) *)

Module MD5.

Definition mask32 (x : Z) : Z := Z.land x 0xFFFFFFFF.

Definition add32 (x y : Z) : Z := mask32 (x + y).

Definition not32 (x : Z) : Z := Z.lxor x 0xFFFFFFFF.

Definition rotl32 (x : Z) (c : Z) : Z :=
  mask32 (Z.lor (Z.shiftl x c) (Z.shiftr x (32 - c))).

Definition shifts : list Z :=
  [7; 12; 17; 22; 7; 12; 17; 22; 7; 12; 17; 22; 7; 12; 17; 22;
   5; 9; 14; 20; 5; 9; 14; 20; 5; 9; 14; 20; 5; 9; 14; 20;
   4; 11; 16; 23; 4; 11; 16; 23; 4; 11; 16; 23; 4; 11; 16; 23;
   6; 10; 15; 21; 6; 10; 15; 21; 6; 10; 15; 21; 6; 10; 15; 21].

Definition sines : list Z :=
  [0xd76aa478; 0xe8c7b756; 0x242070db; 0xc1bdceee;
   0xf57c0faf; 0x4787c62a; 0xa8304613; 0xfd469501;
   0x698098d8; 0x8b44f7af; 0xffff5bb1; 0x895cd7be;
   0x6b901122; 0xfd987193; 0xa679438e; 0x49b40821;
   0xf61e2562; 0xc040b340; 0x265e5a51; 0xe9b6c7aa;
   0xd62f105d; 0x02441453; 0xd8a1e681; 0xe7d3fbc8;
   0x21e1cde6; 0xc33707d6; 0xf4d50d87; 0x455a14ed;
   0xa9e3e905; 0xfcefa3f8; 0x676f02d9; 0x8d2a4c8a;
   0xfffa3942; 0x8771f681; 0x6d9d6122; 0xfde5380c;
   0xa4beea44; 0x4bdecfa9; 0xf6bb4b60; 0xbebfbc70;
   0x289b7ec6; 0xeaa127fa; 0xd4ef3085; 0x04881d05;
   0xd9d4d039; 0xe6db99e5; 0x1fa27cf8; 0xc4ac5665;
   0xf4292244; 0x432aff97; 0xab9423a7; 0xfc93a039;
   0x655b59c3; 0x8f0ccc92; 0xffeff47d; 0x85845dd1;
   0x6fa87e4f; 0xfe2ce6e0; 0xa3014314; 0x4e0811a1;
   0xf7537e82; 0xbd3af235; 0x2ad7d2bb; 0xeb86d391].

(** The [n] low bytes of [x], least significant first. *)
Fixpoint le_bytes (n : nat) (x : Z) : list Z :=
  match n with
  | O => []
  | S n' => Z.land x 255 :: le_bytes n' (Z.shiftr x 8)
  end.

Fixpoint le_word (bs : list Z) : Z :=
  match bs with
  | [] => 0
  | b :: bs' => Z.lor b (Z.shiftl (le_word bs') 8)
  end.

(** Padding: the bit 1, zeros up to 56 modulo 64 bytes, then the length
    of the message in bits as 64 bits. *)
Definition pad (msg : list Z) : list Z :=
  let len := Z.of_nat (length msg) in
  msg ++ [128] ++ repeat 0 (Z.to_nat ((55 - len) mod 64))
      ++ le_bytes 8 (8 * len).

Fixpoint chunks (fuel : nat) (size : nat) (bs : list Z) : list (list Z) :=
  match fuel, bs with
  | O, _ | _, [] => []
  | S fuel', _ => firstn size bs :: chunks fuel' size (skipn size bs)
  end.

Definition words (block : list Z) : list Z :=
  List.map le_word (chunks 16 4 block).

Record state := State { sa : Z; sb : Z; sc : Z; sd : Z }.

Definition init : state :=
  State 0x67452301 0xefcdab89 0x98badcfe 0x10325476.

Definition step (m : list Z) (st : state) (i : nat) : state :=
  let '(State a b c d) := st in
  let iz := Z.of_nat i in
  let '(f, g) :=
    if iz <? 16 then (Z.lor (Z.land b c) (Z.land (not32 b) d), iz)
    else if iz <? 32 then
      (Z.lor (Z.land d b) (Z.land (not32 d) c), (5 * iz + 1) mod 16)
    else if iz <? 48 then (Z.lxor (Z.lxor b c) d, (3 * iz + 5) mod 16)
    else (Z.lxor c (Z.lor b (not32 d)), (7 * iz) mod 16) in
  let f' := add32 (add32 (add32 f a) (nth i sines 0))
                  (nth (Z.to_nat g) m 0) in
  State d (add32 b (rotl32 f' (nth i shifts 0))) b c.

Definition compress (st : state) (block : list Z) : state :=
  let '(State a b c d) := fold_left (step (words block)) (seq 0 64) st in
  State (add32 (sa st) a) (add32 (sb st) b)
        (add32 (sc st) c) (add32 (sd st) d).

Definition digest (msg : list Z) : list Z :=
  let padded := pad msg in
  let '(State a b c d) :=
    fold_left compress (chunks (length padded) 64 padded) init in
  le_bytes 4 a ++ le_bytes 4 b ++ le_bytes 4 c ++ le_bytes 4 d.

Definition hexdigest (msg : list Z) : string := hex_bytes (digest msg).

End MD5.

(** ** Exceptions and outcomes *)

(** The exception classes the code can meet.  [JSONDecodeError] is a
    subclass of [ValueError]; the five after [OverflowError] are subclasses
    of [OSError].  [NotModelled] is no Python exception: it marks an input
    that denotes a Python value outside this model (a float, a code point
    above U+00FF). *)
Inductive exn : Type :=
| JSONDecodeError
| KeyError
| ValueError
| TypeError
| OverflowError
| FileNotFoundError
| FileExistsError
| PermissionError
| IsADirectoryError
| NotADirectoryError
| NotModelled.

Inductive outcome (A : Type) : Type :=
| Ok (a : A)
| Raise (e : exn).

Arguments Ok {A} a.
Arguments Raise {A} e.

Definition outcome_bind {A B : Type} (o : outcome A) (k : A -> outcome B)
  : outcome B :=
  match o with
  | Ok a => k a
  | Raise e => Raise e
  end.

(** [or_raise e o]: the value of [o], or the exception [e] when there is
    none. *)
Definition or_raise {A : Type} (e : exn) (o : option A) : outcome A :=
  match o with
  | Some a => Ok a
  | None => Raise e
  end.

(** ** Decimal text *)

Definition digit_char (d : Z) : ascii := ascii_of_byte (48 + d).

Definition digit_value (c : ascii) : option Z :=
  let n := byte_of_ascii c in
  if (48 <=? n) && (n <=? 57) then Some (n - 48) else None.

(** [pad_digits k n]: the [k] low decimal digits of [n], as ["%0kd"]
    prints a number below [10 ^ k]. *)
Fixpoint pad_digits (k : nat) (n : Z) : string :=
  match k with
  | O => ""
  | S k' =>
      String (digit_char (n / 10 ^ Z.of_nat k' mod 10)) (pad_digits k' n)
  end.

(** Reads exactly [k] decimal digits. *)
Fixpoint read_digits (k : nat) (acc : Z) (s : string) : option (Z * string) :=
  match k with
  | O => Some (acc, s)
  | S k' =>
      match s with
      | String c s' =>
          match digit_value c with
          | Some d => read_digits k' (10 * acc + d) s'
          | None => None
          end
      | EmptyString => None
      end
  end.

Definition read_char (c : ascii) (s : string) : option string :=
  match s with
  | String c' s' => if Ascii.eqb c c' then Some s' else None
  | EmptyString => None
  end.

(** ** datetime *)

(** A [datetime.datetime].  [utcoffset] is [None] for a naive value and
    the offset from UTC in microseconds for an aware one. *)
Record datetime : Type := Datetime {
  year : Z;
  month : Z;
  day : Z;
  hour : Z;
  minute : Z;
  second : Z;
  microsecond : Z;
  utcoffset : option Z
}.

Definition is_leap (y : Z) : bool :=
  (y mod 4 =? 0) && (negb (y mod 100 =? 0) || (y mod 400 =? 0)).

Definition days_in_month (y m : Z) : Z :=
  if m =? 2 then (if is_leap y then 29 else 28)
  else if (m =? 4) || (m =? 6) || (m =? 9) || (m =? 11) then 30
  else 31.

Definition days_before_year (y : Z) : Z :=
  let p := y - 1 in p * 365 + p / 4 - p / 100 + p / 400.

Definition days_before_month (y m : Z) : Z :=
  fold_left (fun acc k => acc + days_in_month y (Z.of_nat k))
            (seq 1 (Z.to_nat (m - 1))) 0.

Definition toordinal (t : datetime) : Z :=
  days_before_year (year t) + days_before_month (year t) (month t) + day t.

Definition usec_per_second : Z := 1000000.
Definition usec_per_hour : Z := 3600 * usec_per_second.
Definition usec_per_day : Z := 24 * usec_per_hour.

(** Microseconds from the start of day 0 of the proleptic Gregorian
    calendar to the wall-clock reading [t]. *)
Definition wall_usec (t : datetime) : Z :=
  toordinal t * usec_per_day + hour t * usec_per_hour
  + minute t * (60 * usec_per_second) + second t * usec_per_second
  + microsecond t.

(** The range checks of the [datetime] and [timezone] constructors. *)
Definition fields_in_range (t : datetime) : bool :=
  (1 <=? year t) && (year t <=? 9999)
  && (1 <=? month t) && (month t <=? 12)
  && (1 <=? day t) && (day t <=? days_in_month (year t) (month t))
  && (0 <=? hour t) && (hour t <=? 23)
  && (0 <=? minute t) && (minute t <=? 59)
  && (0 <=? second t) && (second t <=? 59)
  && (0 <=? microsecond t) && (microsecond t <=? 999999)
  && match utcoffset t with
     | None => true
     | Some off => (- usec_per_day <? off) && (off <? usec_per_day)
     end.

(** What [datetime.now()] can return: a naive value with fields in
    range. *)
Definition clock_reading (t : datetime) : bool :=
  fields_in_range t && bool_decide (utcoffset t = None).

(** A [timedelta] is its length in microseconds.  [timedelta(hours=h)]
    raises [OverflowError] when the number of days leaves
    [-999999999..999999999]. *)
Definition timedelta_hours (h : Z) : outcome Z :=
  let days := h / 24 in
  if (-999999999 <=? days) && (days <=? 999999999)
  then Ok (h * usec_per_hour)
  else Raise OverflowError.

(** [a - b] on datetimes: both naive or both aware, else [TypeError]. *)
Definition datetime_sub (a b : datetime) : outcome Z :=
  match utcoffset a, utcoffset b with
  | None, None => Ok (wall_usec a - wall_usec b)
  | Some oa, Some ob => Ok ((wall_usec a - oa) - (wall_usec b - ob))
  | _, _ => Raise TypeError
  end.

Definition format_offset (off : Z) : string :=
  let a := Z.abs off in
  let hh := a / usec_per_hour in
  let mm := a mod usec_per_hour / (60 * usec_per_second) in
  let ss := a mod (60 * usec_per_second) / usec_per_second in
  let us := a mod usec_per_second in
  (if off <? 0 then "-" else "+") ++ pad_digits 2 hh ++ ":" ++ pad_digits 2 mm
  ++ (if (ss =? 0) && (us =? 0) then ""
      else ":" ++ pad_digits 2 ss
           ++ (if us =? 0 then "" else "." ++ pad_digits 6 us)).

(** [datetime.isoformat()] with the default separator [T]. *)
Definition isoformat (t : datetime) : string :=
  pad_digits 4 (year t) ++ "-" ++ pad_digits 2 (month t) ++ "-"
  ++ pad_digits 2 (day t) ++ "T" ++ pad_digits 2 (hour t) ++ ":"
  ++ pad_digits 2 (minute t) ++ ":" ++ pad_digits 2 (second t)
  ++ (if microsecond t =? 0 then "" else "." ++ pad_digits 6 (microsecond t))
  ++ match utcoffset t with
     | None => ""
     | Some off => format_offset off
     end.

(** [YYYY-MM-DD], and what follows it. *)
Definition parse_isoformat_date (s : string) : option (Z * Z * Z * string) :=
  '(y, s1) ← read_digits 4 0 s;
  s2 ← read_char "-" s1;
  '(m, s3) ← read_digits 2 0 s2;
  s4 ← read_char "-" s3;
  '(d, s5) ← read_digits 2 0 s4;
  Some (y, m, d, s5).

(** The fraction of a second: exactly three or exactly six digits, up to
    the end of the text. *)
Definition parse_fraction (s : string) : option Z :=
  if (String.length s =? 3)%nat then
    '(f, _) ← read_digits 3 0 s; Some (f * 1000)
  else if (String.length s =? 6)%nat then
    '(f, _) ← read_digits 6 0 s; Some f
  else None.

(** [HH[:MM[:SS[.fff[fff]]]]], up to the end of the text. *)
Definition parse_hh_mm_ss_ff (s : string) : option (Z * Z * Z * Z) :=
  '(h, s1) ← read_digits 2 0 s;
  match s1 with
  | EmptyString => Some (h, 0, 0, 0)
  | _ =>
      s2 ← read_char ":" s1;
      '(m, s3) ← read_digits 2 0 s2;
      match s3 with
      | EmptyString => Some (h, m, 0, 0)
      | _ =>
          s4 ← read_char ":" s3;
          '(sec, s5) ← read_digits 2 0 s4;
          match s5 with
          | EmptyString => Some (h, m, sec, 0)
          | _ => s6 ← read_char "." s5; f ← parse_fraction s6; Some (h, m, sec, f)
          end
      end
  end.

(** Splits a time at its first [+] or [-]: the text before it, and the
    sign ([true] for [-]) with the text after it. *)
Fixpoint split_sign (s : string) : string * option (bool * string) :=
  match s with
  | EmptyString => (EmptyString, None)
  | String c s' =>
      if Ascii.eqb c "-" then (EmptyString, Some (true, s'))
      else if Ascii.eqb c "+" then (EmptyString, Some (false, s'))
      else let '(before, after) := split_sign s' in (String c before, after)
  end.

Definition parse_isoformat_time (s : string)
  : option (Z * Z * Z * Z * option Z) :=
  let '(tstr, tz) := split_sign s in
  comps ← parse_hh_mm_ss_ff tstr;
  match tz with
  | None => Some (comps, None)
  | Some (negative, tzstr) =>
      let n := String.length tzstr in
      if (n =? 5)%nat || (n =? 8)%nat || (n =? 15)%nat then
        '(h, m, sec, f) ← parse_hh_mm_ss_ff tzstr;
        let off := h * usec_per_hour + m * (60 * usec_per_second)
                   + sec * usec_per_second + f in
        Some (comps, Some (if negative then - off else off))
      else None
  end.

(** [datetime.fromisoformat] on a [str]: the inverse of [isoformat], that
    is [YYYY-MM-DD[*HH[:MM[:SS[.fff[fff]]]][+HH:MM[:SS[.ffffff]]]]] where
    [*] is any one character.  [ValueError] on any other text and on
    fields out of range.  (Python 3.11 and later accept further ISO 8601
    forms; the cache only ever writes [isoformat] output.) *)
Definition fromisoformat (s : string) : outcome datetime :=
  outcome_bind (or_raise ValueError (parse_isoformat_date s))
    (fun '(y, m, d, rest) =>
       outcome_bind
         match rest with
         | EmptyString => Ok (0, 0, 0, 0, None)
         | String _ tstr => or_raise ValueError (parse_isoformat_time tstr)
         end
         (fun '(h, mi, sec, us, tz) =>
            let t := Datetime y m d h mi sec us tz in
            if fields_in_range t then Ok t else Raise ValueError)).

(** ** Python values *)

(** The values [json] maps to and from without change: [None], [bool],
    [int], [str], [list], and [dict] with [str] keys, in insertion order.
    Floats, and the values [json.dump] coerces (tuples, keys that are not
    strings), are not represented. *)
Inductive value : Type :=
| VNone
| VBool (b : bool)
| VInt (n : Z)
| VStr (s : string)
| VList (items : list value)
| VDict (pairs : list (string * value)).

Fixpoint distinct (keys : list string) : bool :=
  match keys with
  | [] => true
  | k :: keys' => negb (existsb (String.eqb k) keys') && distinct keys'
  end.

(** The keys of every [dict] in a value are distinct, as they are in
    Python. *)
Fixpoint well_formed (v : value) : bool :=
  match v with
  | VList items => forallb well_formed items
  | VDict pairs =>
      distinct (List.map fst pairs)
      && forallb (fun p => well_formed (snd p)) pairs
  | _ => true
  end.

(** [d[k] = v] on a [dict]: replaces the value of an existing key in
    place, appends a new key. *)
Fixpoint dict_set (d : list (string * value)) (k : string) (v : value)
  : list (string * value) :=
  match d with
  | [] => [(k, v)]
  | (k', v') :: d' =>
      if String.eqb k k' then (k, v) :: d' else (k', v') :: dict_set d' k v
  end.

(** [dict(pairs)]. *)
Definition dict_of_pairs (pairs : list (string * value))
  : list (string * value) :=
  fold_left (fun d p => dict_set d (fst p) (snd p)) pairs [].

Fixpoint dict_get (d : list (string * value)) (k : string) : option value :=
  match d with
  | [] => None
  | (k', v) :: d' => if String.eqb k k' then Some v else dict_get d' k
  end.

(** [obj[key]] for a [str] key: the value of the key in a [dict]
    ([KeyError] without it); [TypeError] on every other value (a [list]
    or a [str] wants an integer index, the others have no items). *)
Definition getitem (obj : value) (key : string) : outcome value :=
  match obj with
  | VDict pairs => or_raise KeyError (dict_get pairs key)
  | _ => Raise TypeError
  end.

(** ** json.dumps *)

Definition dquote : ascii := "034".
Definition backslash : ascii := "092".

(** How [json.dumps] writes one character of a string
    ([ensure_ascii=True]). *)
Definition escape_char (c : ascii) : string :=
  let n := byte_of_ascii c in
  if n =? 34 then String backslash (String dquote "")
  else if n =? 92 then String backslash (String backslash "")
  else if n =? 10 then String backslash "n"
  else if n =? 13 then String backslash "r"
  else if n =? 9 then String backslash "t"
  else if n =? 8 then String backslash "b"
  else if n =? 12 then String backslash "f"
  else if (32 <=? n) && (n <=? 126) then String c ""
  else String backslash "u00" ++ hex_byte n.

Fixpoint escape (s : string) : string :=
  match s with
  | EmptyString => ""
  | String c s' => escape_char c ++ escape s'
  end.

Definition encode_str (s : string) : string :=
  String dquote (escape s ++ String dquote "").

(** The decimal digits of [n >= 0], most significant first. *)
Fixpoint digits_of (fuel : nat) (n : Z) : string :=
  match fuel with
  | O => ""
  | S fuel' =>
      (if n <? 10 then "" else digits_of fuel' (n / 10))
      ++ String (digit_char (n mod 10)) ""
  end.

(** [str(n)] for an [int]. *)
Definition int_str (n : Z) : string :=
  let a := Z.abs n in
  (if n <? 0 then "-" else "") ++ digits_of (S (Z.to_nat (Z.log2 a))) a.

(** [json.dumps(v)] with the default separators. *)
Fixpoint json_dumps (v : value) : string :=
  match v with
  | VNone => "null"
  | VBool true => "true"
  | VBool false => "false"
  | VInt n => int_str n
  | VStr s => encode_str s
  | VList items => "[" ++ String.concat ", " (List.map json_dumps items) ++ "]"
  | VDict pairs =>
      "{" ++ String.concat ", "
               (List.map (fun p => encode_str (fst p) ++ ": " ++ json_dumps (snd p))
                         pairs)
      ++ "}"
  end.

(** ** json.loads *)

(** What a scanner makes of a text: a value and the text after it; a
    syntax error; a token for a value outside this model; or no answer
    within its fuel (which [json_loads] never lets happen, see
    [json_loads_fuel]). *)
Inductive parsed (A : Type) : Type :=
| Parsed (a : A) (rest : string)
| Malformed
| Unsupported
| OutOfFuel.

Arguments Parsed {A} a rest.
Arguments Malformed {A}.
Arguments Unsupported {A}.
Arguments OutOfFuel {A}.

Definition parsed_map {A B : Type} (f : A -> B) (p : parsed A) : parsed B :=
  match p with
  | Parsed a rest => Parsed (f a) rest
  | Malformed => Malformed
  | Unsupported => Unsupported
  | OutOfFuel => OutOfFuel
  end.

Definition is_ws (c : ascii) : bool :=
  let n := byte_of_ascii c in
  (n =? 32) || (n =? 9) || (n =? 10) || (n =? 13).

Fixpoint skip_ws (s : string) : string :=
  match s with
  | String c s' => if is_ws c then skip_ws s' else s
  | EmptyString => s
  end.

Fixpoint strip_prefix (p s : string) : option string :=
  match p, s with
  | EmptyString, _ => Some s
  | String a p', String b s' => if Ascii.eqb a b then strip_prefix p' s' else None
  | String _ _, EmptyString => None
  end.

Definition hex_value (c : ascii) : option Z :=
  let n := byte_of_ascii c in
  if (48 <=? n) && (n <=? 57) then Some (n - 48)
  else if (97 <=? n) && (n <=? 102) then Some (n - 87)
  else if (65 <=? n) && (n <=? 70) then Some (n - 55)
  else None.

Definition hex4 (a b c d : ascii) : option Z :=
  x ← hex_value a; y ← hex_value b; z ← hex_value c; w ← hex_value d;
  Some (((x * 16 + y) * 16 + z) * 16 + w).

(** The character a one-letter escape stands for. *)
Definition unescape (e : ascii) : option ascii :=
  let n := byte_of_ascii e in
  if n =? 34 then Some dquote
  else if n =? 92 then Some backslash
  else if n =? 47 then Some "/"%char
  else if n =? 98 then Some "008"%char
  else if n =? 102 then Some "012"%char
  else if n =? 110 then Some "010"%char
  else if n =? 114 then Some "013"%char
  else if n =? 116 then Some "009"%char
  else None.

(** The text of a JSON string from after its opening quote to its
    closing quote (strict mode: a raw control character is an error). *)
Fixpoint scanstring (s : string) : parsed string :=
  match s with
  | EmptyString => Malformed
  | String c s1 =>
      let n := byte_of_ascii c in
      if n =? 34 then Parsed "" s1
      else if n =? 92 then
        match s1 with
        | EmptyString => Malformed
        | String e s2 =>
            if byte_of_ascii e =? 117 then
              match s2 with
              | String h1 (String h2 (String h3 (String h4 s3))) =>
                  match hex4 h1 h2 h3 h4 with
                  | Some cp =>
                      if cp <? 256
                      then parsed_map (String (ascii_of_byte cp)) (scanstring s3)
                      else Unsupported
                  | None => Malformed
                  end
              | _ => Malformed
              end
            else
              match unescape e with
              | Some c' => parsed_map (String c') (scanstring s2)
              | None => Malformed
              end
        end
      else if n <? 32 then Malformed
      else parsed_map (String c) (scanstring s1)
  end.

(** All the decimal digits at the start of [s], added to [acc]. *)
Fixpoint read_all_digits (acc : Z) (s : string) : Z * string :=
  match s with
  | String c s' =>
      match digit_value c with
      | Some d => read_all_digits (10 * acc + d) s'
      | None => (acc, s)
      end
  | EmptyString => (acc, s)
  end.

Definition starts_with_digit (s : string) : bool :=
  match s with
  | String c _ => bool_decide (is_Some (digit_value c))
  | EmptyString => false
  end.

(** What follows the integer part makes the number a float: a fraction
    [.d] or an exponent [e], [E] with an optional sign and a digit. *)
Definition float_follows (s : string) : bool :=
  match s with
  | String c s' =>
      if Ascii.eqb c "." then starts_with_digit s'
      else if Ascii.eqb c "e" || Ascii.eqb c "E" then
        match s' with
        | String g s'' =>
            if Ascii.eqb g "+" || Ascii.eqb g "-" then starts_with_digit s''
            else starts_with_digit s'
        | EmptyString => false
        end
      else false
  | EmptyString => false
  end.

(** A JSON number: an optional minus sign, then either a single 0 or a
    digit from 1 to 9 followed by any digits; no float part after it. *)
Definition scan_number (s : string) : parsed Z :=
  let '(negative, s1) :=
    match s with
    | String c s' => if Ascii.eqb c "-" then (true, s') else (false, s)
    | EmptyString => (false, s)
    end in
  match s1 with
  | String c s2 =>
      match digit_value c with
      | Some d =>
          let '(n, rest) := if d =? 0 then (0, s2) else read_all_digits d s2 in
          if float_follows rest then Unsupported
          else Parsed (if negative then - n else n) rest
      | None => Malformed
      end
  | EmptyString => Malformed
  end.

Definition float_constant (s : string) : bool :=
  bool_decide (is_Some (strip_prefix "NaN" s))
  || bool_decide (is_Some (strip_prefix "Infinity" s))
  || bool_decide (is_Some (strip_prefix "-Infinity" s)).

(** The scanner: [scan_once] reads one value at the start of the text;
    [array_items] reads the items of an array from its first item to the
    closing bracket; [object_members] reads the members of an object from
    after the opening quote of a key to the closing brace. *)
Fixpoint scan_once (fuel : nat) (s : string) {struct fuel} : parsed value :=
  match fuel with
  | O => OutOfFuel
  | S fuel' =>
      match s with
      | EmptyString => Malformed
      | String c s1 =>
          if Ascii.eqb c dquote then parsed_map VStr (scanstring s1)
          else if Ascii.eqb c "{" then
            match skip_ws s1 with
            | String c' s2 =>
                if Ascii.eqb c' "}" then Parsed (VDict []) s2
                else if Ascii.eqb c' dquote then
                  parsed_map (fun ps => VDict (dict_of_pairs ps))
                             (object_members fuel' s2)
                else Malformed
            | EmptyString => Malformed
            end
          else if Ascii.eqb c "[" then
            match skip_ws s1 with
            | String c' s2 =>
                if Ascii.eqb c' "]" then Parsed (VList []) s2
                else parsed_map VList (array_items fuel' (String c' s2))
            | EmptyString => Malformed
            end
          else
            match strip_prefix "null" s, strip_prefix "true" s,
                  strip_prefix "false" s with
            | Some rest, _, _ => Parsed VNone rest
            | _, Some rest, _ => Parsed (VBool true) rest
            | _, _, Some rest => Parsed (VBool false) rest
            | None, None, None =>
                match scan_number s with
                | Parsed n rest => Parsed (VInt n) rest
                | Unsupported => Unsupported
                | OutOfFuel => OutOfFuel
                | Malformed =>
                    if float_constant s then Unsupported else Malformed
                end
            end
      end
  end
with array_items (fuel : nat) (s : string) {struct fuel}
  : parsed (list value) :=
  match fuel with
  | O => OutOfFuel
  | S fuel' =>
      match scan_once fuel' s with
      | Parsed v rest =>
          match skip_ws rest with
          | String c rest' =>
              if Ascii.eqb c "]" then Parsed [v] rest'
              else if Ascii.eqb c "," then
                parsed_map (cons v) (array_items fuel' (skip_ws rest'))
              else Malformed
          | EmptyString => Malformed
          end
      | Malformed => Malformed
      | Unsupported => Unsupported
      | OutOfFuel => OutOfFuel
      end
  end
with object_members (fuel : nat) (s : string) {struct fuel}
  : parsed (list (string * value)) :=
  match fuel with
  | O => OutOfFuel
  | S fuel' =>
      match scanstring s with
      | Parsed k rest =>
          match skip_ws rest with
          | String c rest1 =>
              if Ascii.eqb c ":" then
                match scan_once fuel' (skip_ws rest1) with
                | Parsed v rest2 =>
                    match skip_ws rest2 with
                    | String c' rest3 =>
                        if Ascii.eqb c' "}" then Parsed [(k, v)] rest3
                        else if Ascii.eqb c' "," then
                          match skip_ws rest3 with
                          | String q rest4 =>
                              if Ascii.eqb q dquote then
                                parsed_map (cons (k, v))
                                           (object_members fuel' rest4)
                              else Malformed
                          | EmptyString => Malformed
                          end
                        else Malformed
                    | EmptyString => Malformed
                    end
                | Malformed => Malformed
                | Unsupported => Unsupported
                | OutOfFuel => OutOfFuel
                end
              else Malformed
          | EmptyString => Malformed
          end
      | Malformed => Malformed
      | Unsupported => Unsupported
      | OutOfFuel => OutOfFuel
      end
  end.

(** [json.loads(s)]: one value, white space around it, nothing else. *)
Definition json_loads (s : string) : outcome value :=
  match scan_once (2 * String.length s + 2) (skip_ws s) with
  | Parsed v rest =>
      match skip_ws rest with
      | EmptyString => Ok v
      | String _ _ => Raise JSONDecodeError
      end
  | Malformed => Raise JSONDecodeError
  | Unsupported | OutOfFuel => Raise NotModelled
  end.

(** [datetime.fromisoformat(v)]: [TypeError] unless [v] is a [str]. *)
Definition datetime_fromisoformat (v : value) : outcome datetime :=
  match v with
  | VStr s => fromisoformat s
  | _ => Raise TypeError
  end.

Fixpoint endswith (s suffix : string) : bool :=
  String.eqb s suffix
  || match s with
     | String _ s' => endswith s' suffix
     | EmptyString => false
     end.

(** ** The file system *)

(** A node is a directory, with the process's permission to create and
    delete entries in it, or a regular file with its text.  A path is the
    list of its components; the empty path is the directory that relative
    paths start from. *)
Inductive node : Type :=
| Dir (writable : bool)
| File (content : string).

Abbreviation filesystem := (gmap (list string) node).

(** An action on the file system: its outcome and the file system after
    it.  What an action did before it raised stays done. *)
Definition io (A : Type) : Type := filesystem -> outcome A * filesystem.

Definition ret {A : Type} (a : A) : io A := fun fs => (Ok a, fs).

Definition lift {A : Type} (o : outcome A) : io A := fun fs => (o, fs).

Definition bind {A B : Type} (m : io A) (k : A -> io B) : io B :=
  fun fs =>
    match m fs with
    | (Ok a, fs') => k a fs'
    | (Raise e, fs') => (Raise e, fs')
    end.

(** [try: body except classes: handler]. *)
Definition try_except {A : Type} (body : io A) (caught : exn -> bool)
  (handler : io A) : io A :=
  fun fs =>
    match body fs with
    | (Raise e, fs') => if caught e then handler fs' else (Raise e, fs')
    | done => done
    end.

Declare Scope io_scope.
Delimit Scope io_scope with io.
Bind Scope io_scope with io.

Notation "x <- m ;; k" := (bind m (fun x => k))
  (at level 100, m at next level, k at level 200, right associativity)
  : io_scope.

Notation "m ;;; k" := (bind m (fun _ => k))
  (at level 100, k at level 200, right associativity) : io_scope.

Fixpoint for_each {A : Type} (l : list A) (body : A -> io unit) : io unit :=
  match l with
  | [] => ret tt
  | x :: l' => (body x ;;; for_each l' body)%io
  end.

Definition parent (p : list string) : list string := removelast p.

(** [os.path.join(d, name)] for a bare file name. *)
Definition os_path_join (d : list string) (name : string) : list string :=
  (d ++ [name])%list.

Definition os_path_exists (p : list string) : io bool :=
  fun fs => (Ok (bool_decide (is_Some (fs !! p))), fs).

(** May the process create or delete an entry of the directory that
    holds [p]? *)
Definition may_modify_parent (fs : filesystem) (p : list string)
  : outcome unit :=
  match fs !! parent p with
  | None => Raise FileNotFoundError
  | Some (File _) => Raise NotADirectoryError
  | Some (Dir false) => Raise PermissionError
  | Some (Dir true) => Ok tt
  end.

(** [open(p, 'r').read()]. *)
Definition read_file (p : list string) : io string :=
  fun fs =>
    match fs !! p with
    | None => (Raise FileNotFoundError, fs)
    | Some (Dir _) => (Raise IsADirectoryError, fs)
    | Some (File text) => (Ok text, fs)
    end.

(** [open(p, 'w').write(text)]: an existing file is truncated and
    rewritten, a missing one is created in its directory. *)
Definition write_file (p : list string) (text : string) : io unit :=
  fun fs =>
    match fs !! p with
    | Some (Dir _) => (Raise IsADirectoryError, fs)
    | Some (File _) => (Ok tt, <[p := File text]> fs)
    | None =>
        match may_modify_parent fs p with
        | Ok _ => (Ok tt, <[p := File text]> fs)
        | Raise e => (Raise e, fs)
        end
    end.

(** [os.remove(p)]. *)
Definition os_remove (p : list string) : io unit :=
  fun fs =>
    match fs !! p with
    | None => (Raise FileNotFoundError, fs)
    | Some n =>
        match may_modify_parent fs p with
        | Raise e => (Raise e, fs)
        | Ok _ =>
            match n with
            | Dir _ => (Raise IsADirectoryError, fs)
            | File _ => (Ok tt, delete p fs)
            end
        end
    end.

(** [os.mkdir(p)]. *)
Definition os_mkdir (p : list string) : io unit :=
  fun fs =>
    match fs !! p with
    | Some _ => (Raise FileExistsError, fs)
    | None =>
        match may_modify_parent fs p with
        | Ok _ => (Ok tt, <[p := Dir true]> fs)
        | Raise e => (Raise e, fs)
        end
    end.

Definition is_FileExistsError (e : exn) : bool :=
  match e with
  | FileExistsError => true
  | _ => false
  end.

(** [os.makedirs(p)]: makes the missing directories above [p], then
    [p].  [fuel] bounds the recursion by the length of the path. *)
Fixpoint makedirs (fuel : nat) (p : list string) : io unit :=
  match fuel with
  | O => os_mkdir p
  | S fuel' =>
      let head := parent p in
      (head_exists <- os_path_exists head ;;
       (if bool_decide (head <> []) && negb head_exists
        then try_except (makedirs fuel' head) is_FileExistsError (ret tt)
        else ret tt) ;;;
       os_mkdir p)%io
  end.

Definition os_makedirs (p : list string) : io unit := makedirs (length p) p.

(** The name of [p] when [p] is an entry of the directory [d]. *)
Definition child_name (d p : list string) : option string :=
  name ← last p;
  if bool_decide (p = (d ++ [name])%list) then Some name else None.

(** [os.listdir(d)]. *)
Definition os_listdir (d : list string) : io (list string) :=
  fun fs =>
    match fs !! d with
    | None => (Raise FileNotFoundError, fs)
    | Some (File _) => (Raise NotADirectoryError, fs)
    | Some (Dir _) =>
        (Ok (omap (fun entry => child_name d (fst entry)) (map_to_list fs)), fs)
    end.

(** ** scripts/github_stats_cache.py *)

Module GitHubStatsCache.

Record t : Type := Build {
  cache_dir : list string;
  expiry_hours : Z
}.

Definition default_cache_dir : list string := [".github_stats_cache"].
Definition default_expiry_hours : Z := 6.

Definition __init__ (cache_dir : list string) (expiry_hours : Z) : io t :=
  (let self := Build cache_dir expiry_hours in
   present <- os_path_exists cache_dir ;;
   (if negb present then os_makedirs cache_dir else ret tt) ;;;
   ret self)%io.

Definition _get_cache_key (self : t) (key : string) : string :=
  MD5.hexdigest (str_encode key).

Definition _get_cache_path (self : t) (key : string) : list string :=
  let cache_key := _get_cache_key self key in
  os_path_join (cache_dir self) (cache_key ++ ".json").

(** The classes of [except (json.JSONDecodeError, KeyError, ValueError)]. *)
Definition invalid_cache_file (e : exn) : bool :=
  match e with
  | JSONDecodeError | KeyError | ValueError => true
  | _ => false
  end.

(** The handler of that [except] clause. *)
Definition remove_invalid (cache_path : list string) : io value :=
  (present <- os_path_exists cache_path ;;
   (if present then os_remove cache_path else ret tt) ;;;
   ret VNone)%io.

Definition get (self : t) (now : datetime) (key : string) : io value :=
  (let cache_path := _get_cache_path self key in
   present <- os_path_exists cache_path ;;
   if negb present then ret VNone
   else
     try_except
       (text <- read_file cache_path ;;
        cache_data <- lift (json_loads text) ;;
        timestamp <- lift (getitem cache_data "timestamp") ;;
        cached_time <- lift (datetime_fromisoformat timestamp) ;;
        age <- lift (datetime_sub now cached_time) ;;
        limit <- lift (timedelta_hours (expiry_hours self)) ;;
        if age >? limit then (os_remove cache_path ;;; ret VNone)
        else lift (getitem cache_data "data"))
       invalid_cache_file
       (remove_invalid cache_path))%io.

Definition set (self : t) (now : datetime) (key : string) (data : value)
  : io unit :=
  let cache_path := _get_cache_path self key in
  let cache_data :=
    VDict [("timestamp", VStr (isoformat now)); ("data", data)] in
  write_file cache_path (json_dumps cache_data).

Definition clear (self : t) : io unit :=
  (names <- os_listdir (cache_dir self) ;;
   for_each names
     (fun filename =>
        if endswith filename ".json"
        then os_remove (os_path_join (cache_dir self) filename)
        else ret tt))%io.

End GitHubStatsCache.

(** A caller tells a hit from a miss by the result not being [None]. *)
Definition found (result : value) : bool :=
  match result with
  | VNone => false
  | _ => true
  end.

(** The entry-naming convention: the 32 hexadecimal digits of a digest,
    then [.json]. *)
Definition is_entry_name (name : string) : bool :=
  (String.length name =? 37)%nat
  && string_forallb is_hex_char (substring 0 32 name)
  && String.eqb (substring 32 5 name) ".json".

(** ** Notions the statements use *)

(** What the [try] block of [get] makes of the text of an entry file
    before it touches the file system: the decoded record with the result
    of the expiry test, or the exception raised on the way. *)
Definition check_entry (self : GitHubStatsCache.t) (now : datetime)
  (text : string) : outcome (value * bool) :=
  outcome_bind (json_loads text) (fun cache_data =>
  outcome_bind (getitem cache_data "timestamp") (fun timestamp =>
  outcome_bind (datetime_fromisoformat timestamp) (fun cached_time =>
  outcome_bind (datetime_sub now cached_time) (fun age =>
  outcome_bind (timedelta_hours (GitHubStatsCache.expiry_hours self))
    (fun limit => Ok (cache_data, age >? limit)))))).

(** The text [set] writes for [data] at the time [now]. *)
Definition entry_text (now : datetime) (data : value) : string :=
  json_dumps (VDict [("timestamp", VStr (isoformat now)); ("data", data)]).

(** The name of the entry file of a key. *)
Definition entry_name (self : GitHubStatsCache.t) (key : string) : string :=
  GitHubStatsCache._get_cache_key self key ++ ".json".

(** [clear] removes [p]: an entry of the cache directory whose name ends
    in [.json]. *)
Definition cleared (self : GitHubStatsCache.t) (p : list string) : bool :=
  match child_name (GitHubStatsCache.cache_dir self) p with
  | Some name => endswith name ".json"
  | None => false
  end.

(** [get] decides to delete the entry file with this text: the entry has
    expired, or an exception of the [except] clause was raised on the
    way to its data. *)
Definition triggers_delete (self : GitHubStatsCache.t) (now : datetime)
  (text : string) : bool :=
  match check_entry self now text with
  | Raise e => GitHubStatsCache.invalid_cache_file e
  | Ok (_, true) => true
  | Ok (cache_data, false) =>
      match getitem cache_data "data" with
      | Raise e => GitHubStatsCache.invalid_cache_file e
      | Ok _ => false
      end
  end.

(** ** A store and a file system to run the code on *)

Definition example_store : GitHubStatsCache.t :=
  GitHubStatsCache.Build ["cache"] 6.

(** The working directory and an empty cache directory in it. *)
Definition example_fs : filesystem :=
  {[ [] := Dir true; ["cache"] := Dir true ]}.

(** The same with a cache directory the process may not modify. *)
Definition readonly_fs : filesystem :=
  {[ [] := Dir true; ["cache"] := Dir false ]}.

Definition noon : datetime := Datetime 2024 1 2 12 0 0 0 None.
Definition three_pm : datetime := Datetime 2024 1 2 15 0 0 0 None.
Definition seven_pm : datetime := Datetime 2024 1 2 19 0 0 0 None.

(** The entry file of the key [k] in the cache directory of
    [example_store]. *)
Definition k_path : list string :=
  ["cache"; "8ce4b16b22b58894aa86c421e8759df3.json"].

(** Texts of entry files: a record written at noon whose data is [None],
    a record stamped one hour after noon, a JSON list, a JSON string and
    a record whose timestamp is a number. *)
Definition none_entry : string := entry_text noon VNone.

Definition one_pm_entry : string :=
  entry_text (Datetime 2024 1 2 13 0 0 0 None) (VInt 7).

Definition list_entry : string := "[]".

Definition string_entry : string := json_dumps (VStr "abc").

Definition number_stamp_entry : string :=
  json_dumps (VDict [("timestamp", VInt 5); ("data", VInt 7)]).

(** The entry file of the key [j] in the cache directory of
    [example_store]. *)
Definition j_path : list string :=
  ["cache"; "363b122c528f54df4a0446b6bab05515.json"].

(** No key has more than one entry file in the cache directory. *)
Definition one_file_per_key (self : GitHubStatsCache.t) (fs : filesystem)
  : Prop :=
  forall (names : list string) (key : string),
    os_listdir (GitHubStatsCache.cache_dir self) fs = (Ok names, fs) ->
    (count_occ string_dec names (entry_name self key) <= 1)%nat.

(** The file system [clear] leaves: what it was, without the entries of
    the cache directory whose names end in [.json]. *)
Definition after_clear (self : GitHubStatsCache.t) (fs : filesystem)
  : filesystem :=
  filter (fun entry => cleared self (fst entry) = false) fs.

(** One turn of the loop of [clear], on the file system alone. *)
Definition remove_json (d : list string) (fs : filesystem) (name : string)
  : filesystem :=
  if endswith name ".json" then delete (os_path_join d name) fs else fs.

(** A cache directory with an entry file, a text file and a file named
    [notes.json]. *)
Definition mixed_fs : filesystem :=
  <[k_path := File (entry_text noon (VInt 7))]>
    (<[["cache"; "notes.txt"] := File "keep"]>
       (<[["cache"; "notes.json"] := File "{}"]> example_fs)).

(** The directories [os.makedirs(p)] makes when the [k] first components
    of [p] exist: the prefixes of [p] longer than [k]. *)
Definition created (p : list string) (k : nat) (q : list string) : bool :=
  bool_decide (q `prefix_of` p /\ (k < length q)%nat).

(** A file system with a directory [var] and nothing under it. *)
Definition var_fs : filesystem := {[ [] := Dir true; ["var"] := Dir true ]}.

(** ** More file systems and entry texts *)

(** The cache directory of [example_store] with the entry file of the key
    [k], written at noon with the data [7]. *)
Definition entry_fs : filesystem :=
  <[k_path := File (entry_text noon (VInt 7))]> example_fs.

(** The text of a record whose timestamp carries the offset of UTC. *)
Definition utc_entry : string :=
  json_dumps (VDict [("timestamp", VStr "2024-01-02T12:00:00+00:00");
                     ("data", VInt 7)]).

(** A cache directory that holds a directory named [old.json]. *)
Definition subdir_fs : filesystem :=
  <[["cache"; "old.json"] := Dir true]> example_fs.

(** A file system without the cache directory, and one with a regular
    file in its place. *)
Definition bare_fs : filesystem := {[ [] := Dir true ]}.

Definition file_fs : filesystem :=
  {[ [] := Dir true; ["cache"] := File "not a directory" ]}.

(** A directory where the entry file of the key [k] would be. *)
Definition blocked_fs : filesystem := <[k_path := Dir true]> example_fs.

(** A cache directory the process may not modify, with the entry file of
    the key [k]. *)
Definition readonly_entry_fs : filesystem :=
  <[k_path := File (entry_text noon (VInt 7))]> readonly_fs.

(** Two keys with one MD5 digest, [faad49866e9498fc1719f5289e7a0269]
    (they differ in their 22nd character), and the entry file they
    share in the cache directory of [example_store]. *)
Definition collision_a : string :=
  "TEXTCOLLBYfGiJUETHQ4hAcKSMd5zYpgqf1YRDhkmxHkhPWptrkoyz28wnI9V0aHeAuaKnak".

Definition collision_b : string :=
  "TEXTCOLLBYfGiJUETHQ4hEcKSMd5zYpgqf1YRDhkmxHkhPWptrkoyz28wnI9V0aHeAuaKnak".

Definition collision_path : list string :=
  ["cache"; "faad49866e9498fc1719f5289e7a0269.json"].

(** The text of a record no [set] wrote: the members in another order,
    one more member, a timestamp that is a date alone (read as its
    midnight). *)
Definition foreign_entry : string :=
  json_dumps (VDict [("data", VList [VInt 1; VInt 2]); ("by", VStr "hand");
                     ("timestamp", VStr "2024-01-02")]).

(** A printable character of ASCII, from the space to the tilde. *)
Definition printable (c : ascii) : bool :=
  let n := byte_of_ascii c in (32 <=? n) && (n <=? 126).

(** A string with a line feed, a quote and the letter e with an acute
    accent (U+00E9). *)
Definition latin_text : string :=
  String "010" (String dquote (String "233" "caf")).

(** A character other than the path separator. *)
Definition no_separator (c : ascii) : bool := negb (Ascii.eqb c "/").

(** ** Notions the proofs use *)

(** Closes an equation between closed terms by evaluating both sides. *)
Ltac by_computation :=
  lazymatch goal with
  | |- ?a = ?b => vm_cast_no_check (@eq_refl _ b)
  end.

(** Turns boolean comparisons on [Z] into propositions for [lia]. *)
Ltac bool_to_prop :=
  repeat first
    [ rewrite andb_true_iff | rewrite orb_true_iff | rewrite negb_true_iff
    | rewrite andb_false_iff | rewrite orb_false_iff | rewrite negb_false_iff
    | rewrite Z.leb_le | rewrite Z.ltb_lt | rewrite Z.eqb_eq
    | rewrite Z.leb_gt | rewrite Z.ltb_ge | rewrite Z.eqb_neq
    | rewrite Z.gtb_ltb ].

(** The same in a hypothesis. *)
Ltac bool_to_prop_in H :=
  repeat first
    [ rewrite andb_true_iff in H | rewrite orb_true_iff in H
    | rewrite negb_true_iff in H | rewrite andb_false_iff in H
    | rewrite orb_false_iff in H | rewrite negb_false_iff in H
    | rewrite Z.leb_le in H | rewrite Z.ltb_lt in H | rewrite Z.eqb_eq in H
    | rewrite Z.leb_gt in H | rewrite Z.ltb_ge in H | rewrite Z.eqb_neq in H
    | rewrite Z.gtb_ltb in H ].

(** A character that cannot start a UTC offset. *)
Definition no_sign (c : ascii) : bool :=
  negb (Ascii.eqb c "-") && negb (Ascii.eqb c "+").

(** The time of day [isoformat] prints, and reading it back. *)
Definition time_text (h mi s us : Z) : string :=
  pad_digits 2 h ++ ":" ++ pad_digits 2 mi ++ ":" ++ pad_digits 2 s
  ++ (if us =? 0 then "" else "." ++ pad_digits 6 us).

(** What may follow a number for it to be read as that number. *)
Definition delimited (rest : string) : bool :=
  negb (starts_with_digit rest) && negb (float_follows rest).

(** The fuel [scan_once] needs to read a printed value back: one unit for
    the value and one for each item or member on the way to it. *)
Fixpoint size (v : value) : nat :=
  match v with
  | VList items => S (list_sum (List.map (fun x => S (size x)) items))
  | VDict pairs => S (list_sum (List.map (fun p => S (size (snd p))) pairs))
  | _ => 1
  end.

(** The first character of a printed value. *)
Definition value_start (c : ascii) : bool :=
  let n := byte_of_ascii c in
  (n =? 34) || (n =? 45) || ((48 <=? n) && (n <=? 57)) || (n =? 91)
  || (n =? 123) || (n =? 110) || (n =? 116) || (n =? 102).

(** The first character of a printed number. *)
Definition int_start (c : ascii) : bool :=
  let n := byte_of_ascii c in (n =? 45) || ((48 <=? n) && (n <=? 57)).

(** The fuel [array_items] and [object_members] need for printed items
    and members. *)
Definition items_size (items : list value) : nat :=
  list_sum (List.map (fun x => S (size x)) items).

Definition pairs_size (pairs : list (string * value)) : nat :=
  list_sum (List.map (fun p => S (size (snd p))) pairs).

(** [scan_once] reads a printed value back, whatever delimiter follows. *)
Definition reads_back (v : value) : Prop :=
  forall (fuel : nat) (rest : string),
    (size v <= fuel)%nat -> delimited rest = true ->
    scan_once fuel (json_dumps v ++ rest) = Parsed v rest.

(** How [json_dumps] writes one member of a [dict]. *)
Definition member_text (p : string * value) : string :=
  encode_str (fst p) ++ ": " ++ json_dumps (snd p).

(** Settles a closed equation or disequation by evaluation. *)
Ltac closed_goal :=
  first [ by_computation | vm_compute; first [reflexivity | congruence] ].

(** A scanner's answer on a text of length [n]: it is no [OutOfFuel], and
    the text left after a value is shorter than [n]. *)
Definition consumes {A : Type} (n : nat) (p : parsed A) : Prop :=
  match p with
  | Parsed _ rest => (String.length rest < n)%nat
  | OutOfFuel => False
  | _ => True
  end.

(** * Checks of the library model against known values *)

Example md5_empty :
  MD5.hexdigest (str_encode "") = "d41d8cd98f00b204e9800998ecf8427e".
Proof. vm_compute. reflexivity. Qed.

Example md5_abc :
  MD5.hexdigest (str_encode "abc") = "900150983cd24fb0d6963f7d28e17f72".
Proof. vm_compute. reflexivity. Qed.

Example md5_two_blocks :
  MD5.hexdigest
    (str_encode
       "aaaaaaaaaaaaaaaaaaaaaaaaaaaaaaaaaaaaaaaaaaaaaaaaaaaaaaaaaaaaaaaa")
  = "014842d480b571495a4a0363793f7367".
Proof. vm_compute. reflexivity. Qed.

Example md5_latin1 :
  MD5.hexdigest (str_encode (String (ascii_of_byte 233) ""))
  = "66ddcd97cfdeabb2f6fb8a999b4bc76f".
Proof. vm_compute. reflexivity. Qed.

Example isoformat_whole_second :
  isoformat (Datetime 2024 1 2 3 4 5 0 None) = "2024-01-02T03:04:05".
Proof. reflexivity. Qed.

Example isoformat_fraction :
  isoformat (Datetime 987 12 31 23 59 59 1200 None)
  = "0987-12-31T23:59:59.001200".
Proof. reflexivity. Qed.

Example fromisoformat_examples :
  fromisoformat "2024-01-02" = Ok (Datetime 2024 1 2 0 0 0 0 None)
  /\ fromisoformat "2024-01-02T03" = Ok (Datetime 2024 1 2 3 0 0 0 None)
  /\ fromisoformat "2024-01-02 03:04" = Ok (Datetime 2024 1 2 3 4 0 0 None)
  /\ fromisoformat "2024-01-02T03:04:05.123"
     = Ok (Datetime 2024 1 2 3 4 5 123000 None)
  /\ fromisoformat "2024-01-02T03:04:05+00:00"
     = Ok (Datetime 2024 1 2 3 4 5 0 (Some 0))
  /\ fromisoformat "2024-01-02T03:04:05-05:30"
     = Ok (Datetime 2024 1 2 3 4 5 0 (Some (-19800000000)))
  /\ fromisoformat "yesterday" = Raise ValueError
  /\ fromisoformat "2024-1-2" = Raise ValueError
  /\ fromisoformat "2024-02-30" = Raise ValueError
  /\ fromisoformat "2024-01-02T" = Raise ValueError
  /\ fromisoformat "2024-01-02T03:04:05+24:00" = Raise ValueError.
Proof. repeat split; reflexivity. Qed.

Example toordinal_examples :
  toordinal (Datetime 1 1 1 0 0 0 0 None) = 1
  /\ toordinal (Datetime 2024 3 1 0 0 0 0 None) = 738946
  /\ toordinal (Datetime 9999 12 31 0 0 0 0 None) = 3652059.
Proof. repeat split; reflexivity. Qed.

Example json_dumps_example :
  json_dumps
    (VDict [("timestamp", VStr "2024-01-02T03:04:05");
            ("data", VList [VInt 1; VStr "a/b"; VNone; VBool true;
                            VDict [("x", VInt (-50))]; VInt 0])])
  = "{" ++ String dquote "timestamp" ++ String dquote ": "
    ++ String dquote "2024-01-02T03:04:05" ++ String dquote ", "
    ++ String dquote "data" ++ String dquote ": [1, "
    ++ String dquote "a/b" ++ String dquote ", null, true, {"
    ++ String dquote "x" ++ String dquote ": -50}, 0]}".
Proof. vm_compute. reflexivity. Qed.

Example escape_example :
  escape (String "a" (String dquote (String "b" (String backslash
            (String "c" (String "010" (String "127" (String "233" ""))))))))
  = String "a" (String backslash (String dquote (String "b"
      (String backslash (String backslash (String "c"
        (String backslash (String "n" (String backslash "u007f"
          ++ String backslash "u00e9"))))))))).
Proof. vm_compute. reflexivity. Qed.

Example json_loads_examples :
  json_loads "[]" = Ok (VList [])
  /\ json_loads " [1 , 2]" = Ok (VList [VInt 1; VInt 2])
  /\ json_loads "null" = Ok VNone
  /\ json_loads "-0" = Ok (VInt 0)
  /\ json_loads "{}" = Ok (VDict [])
  /\ json_loads "[1,]" = Raise JSONDecodeError
  /\ json_loads "01" = Raise JSONDecodeError
  /\ json_loads "" = Raise JSONDecodeError
  /\ json_loads "[[[[" = Raise JSONDecodeError
  /\ json_loads "not json" = Raise JSONDecodeError
  /\ json_loads "1.5" = Raise NotModelled
  /\ json_loads "NaN" = Raise NotModelled.
Proof. repeat split; by_computation. Qed.

Example get_examples :
  let self := GitHubStatsCache.Build ["c"] 6 in
  let t0 := Datetime 2024 1 2 3 4 5 0 None in
  let fs0 : filesystem := {[ [] := Dir true; ["c"] := Dir true ]} in
  let fs1 := snd (GitHubStatsCache.set self t0 "k" (VInt 7) fs0) in
  GitHubStatsCache._get_cache_path self "k"
  = ["c"; "8ce4b16b22b58894aa86c421e8759df3.json"]
  /\ GitHubStatsCache.get self t0 "k" fs0 = (Ok VNone, fs0)
  /\ GitHubStatsCache.get self t0 "k" fs1 = (Ok (VInt 7), fs1)
  /\ GitHubStatsCache.get self (Datetime 2024 1 2 9 4 5 0 None) "k" fs1
     = (Ok (VInt 7), fs1)
  /\ GitHubStatsCache.get self (Datetime 2024 1 2 9 4 5 1 None) "k" fs1
     = (Ok VNone, fs0)
  /\ GitHubStatsCache.clear self fs1 = (Ok tt, fs0).
Proof. repeat split; by_computation. Qed.

(** * Text *)

Lemma string_app_assoc (a b c : string) : (a ++ b) ++ c = a ++ (b ++ c).
Proof. induction a as [|x a IH]; simpl; [reflexivity | now rewrite IH]. Qed.

Lemma string_app_nil_r (a : string) : a ++ "" = a.
Proof. induction a as [|x a IH]; simpl; [reflexivity | now rewrite IH]. Qed.

Lemma string_length_app (a b : string) :
  String.length (a ++ b) = (String.length a + String.length b)%nat.
Proof. induction a as [|x a IH]; simpl; [reflexivity | now rewrite IH]. Qed.

Lemma string_forallb_app (p : ascii -> bool) (a b : string) :
  string_forallb p (a ++ b) = string_forallb p a && string_forallb p b.
Proof.
  induction a as [|x a IH]; simpl; [reflexivity|].
  rewrite IH. now rewrite andb_assoc.
Qed.

Lemma byte_of_ascii_of_byte (n : Z) :
  0 <= n < 256 -> byte_of_ascii (ascii_of_byte n) = n.
Proof.
  intros Hn. unfold byte_of_ascii, ascii_of_byte.
  rewrite N_ascii_embedding by lia. lia.
Qed.

Lemma ascii_of_byte_of_ascii (c : ascii) : ascii_of_byte (byte_of_ascii c) = c.
Proof.
  unfold byte_of_ascii, ascii_of_byte.
  rewrite N2Z.id. apply ascii_N_embedding.
Qed.

Lemma byte_of_ascii_range (c : ascii) : 0 <= byte_of_ascii c < 256.
Proof.
  unfold byte_of_ascii. pose proof (N_ascii_bounded c). lia.
Qed.

(** * The digest is 32 hexadecimal digits *)

Lemma hex_digit_is_hex (n : Z) : 0 <= n < 16 -> is_hex_char (hex_digit n) = true.
Proof.
  intros Hn. unfold is_hex_char, hex_digit.
  destruct (n <? 10) eqn:E; bool_to_prop_in E;
    rewrite byte_of_ascii_of_byte by lia; bool_to_prop; lia.
Qed.

Lemma hex_byte_spec (b : Z) :
  String.length (hex_byte b) = 2%nat
  /\ string_forallb is_hex_char (hex_byte b) = true.
Proof.
  split; [reflexivity|]. unfold hex_byte. simpl.
  rewrite !hex_digit_is_hex; [reflexivity | |].
  - apply Z.mod_pos_bound. lia.
  - apply Z.mod_pos_bound. lia.
Qed.

Lemma hex_bytes_spec (bs : list Z) :
  String.length (hex_bytes bs) = (2 * length bs)%nat
  /\ string_forallb is_hex_char (hex_bytes bs) = true.
Proof.
  induction bs as [|b bs [IHl IHh]]; [split; reflexivity|].
  destruct (hex_byte_spec b) as [Hl Hh].
  change (hex_bytes (b :: bs)) with (hex_byte b ++ hex_bytes bs). split.
  - rewrite string_length_app, Hl, IHl. simpl. lia.
  - rewrite string_forallb_app, Hh, IHh. reflexivity.
Qed.

Lemma le_bytes_length (n : nat) (x : Z) : length (MD5.le_bytes n x) = n.
Proof.
  revert x. induction n as [|n IH]; intros x; simpl; [reflexivity|].
  now rewrite IH.
Qed.

Lemma digest_length (msg : list Z) : length (MD5.digest msg) = 16%nat.
Proof.
  unfold MD5.digest.
  destruct (fold_left MD5.compress _ MD5.init) as [a b c d].
  rewrite !length_app, !le_bytes_length. reflexivity.
Qed.

Lemma hexdigest_spec (msg : list Z) :
  String.length (MD5.hexdigest msg) = 32%nat
  /\ string_forallb is_hex_char (MD5.hexdigest msg) = true.
Proof.
  unfold MD5.hexdigest. destruct (hex_bytes_spec (MD5.digest msg)) as [Hl Hh].
  split; [|exact Hh]. rewrite Hl, digest_length. reflexivity.
Qed.

(** * isoformat and fromisoformat *)

Lemma digit_value_digit_char (d : Z) :
  0 <= d <= 9 -> digit_value (digit_char d) = Some d.
Proof.
  intros Hd. unfold digit_value, digit_char.
  rewrite byte_of_ascii_of_byte by lia.
  replace ((48 <=? 48 + d) && (48 + d <=? 57)) with true
    by (symmetry; bool_to_prop; lia).
  f_equal. lia.
Qed.

Lemma digit_value_range (c : ascii) (d : Z) :
  digit_value c = Some d -> 0 <= d <= 9 /\ c = digit_char d.
Proof.
  unfold digit_value, digit_char. intros H.
  destruct ((48 <=? byte_of_ascii c) && (byte_of_ascii c <=? 57)) eqn:E;
    [|discriminate].
  injection H as <-. bool_to_prop_in E. split; [lia|].
  replace (48 + (byte_of_ascii c - 48)) with (byte_of_ascii c) by lia.
  symmetry. apply ascii_of_byte_of_ascii.
Qed.

Lemma read_digits_pad (k : nat) :
  forall (n acc : Z) (rest : string),
    0 <= n ->
    read_digits k acc (pad_digits k n ++ rest)
    = Some (acc * 10 ^ Z.of_nat k + n mod 10 ^ Z.of_nat k, rest).
Proof.
  induction k as [|k IH]; intros n acc rest Hn.
  - cbn [pad_digits]. simpl String.append. cbn [read_digits].
    change (10 ^ Z.of_nat 0) with 1. rewrite Z.mod_1_r.
    do 2 f_equal. lia.
  - cbn [pad_digits]. simpl String.append. cbn [read_digits].
    rewrite digit_value_digit_char
      by (pose proof (Z.mod_pos_bound (n / 10 ^ Z.of_nat k) 10); lia).
    rewrite IH by lia. do 2 f_equal.
    rewrite Nat2Z.inj_succ, Z.pow_succ_r by lia.
    rewrite (Z.mul_comm 10 (10 ^ Z.of_nat k)).
    rewrite Z.rem_mul_r by lia. ring.
Qed.

Lemma read_digits_pad_small (k : nat) (n : Z) (rest : string) :
  0 <= n < 10 ^ Z.of_nat k ->
  read_digits k 0 (pad_digits k n ++ rest) = Some (n, rest).
Proof.
  intros Hn. rewrite read_digits_pad by lia.
  rewrite Z.mod_small by lia. reflexivity.
Qed.

Lemma split_sign_none (s : string) :
  string_forallb no_sign s = true -> split_sign s = (s, None).
Proof.
  induction s as [|c s IH]; [reflexivity|]. cbn [string_forallb split_sign].
  unfold no_sign at 1. intros H.
  apply andb_true_iff in H as [Hc Hs]. apply andb_true_iff in Hc as [H1 H2].
  apply negb_true_iff in H1, H2. rewrite H1, H2, (IH Hs). reflexivity.
Qed.

Lemma digit_char_no_sign (d : Z) : 0 <= d <= 9 -> no_sign (digit_char d) = true.
Proof.
  intros Hd. unfold no_sign.
  assert (forall c : ascii, byte_of_ascii c < 48 ->
                            Ascii.eqb (digit_char d) c = false) as Hne.
  { intros c Hc. apply Ascii.eqb_neq. intros <-. unfold digit_char in Hc.
    rewrite byte_of_ascii_of_byte in Hc by lia. lia. }
  rewrite !Hne by (vm_compute; reflexivity). reflexivity.
Qed.

Lemma pad_digits_no_sign (k : nat) (n : Z) :
  string_forallb no_sign (pad_digits k n) = true.
Proof.
  induction k as [|k IH]; [reflexivity|]. cbn [pad_digits string_forallb].
  rewrite IH, digit_char_no_sign; [reflexivity|].
  pose proof (Z.mod_pos_bound (n / 10 ^ Z.of_nat k) 10). lia.
Qed.

Lemma pad_digits_length (k : nat) (n : Z) : String.length (pad_digits k n) = k.
Proof.
  induction k as [|k IH]; cbn [pad_digits String.length];
    [reflexivity | now rewrite IH].
Qed.

#[local] Opaque pad_digits read_digits.

Lemma days_in_month_le (y m : Z) : days_in_month y m <= 31.
Proof.
  unfold days_in_month.
  repeat match goal with |- context [if ?b then _ else _] => destruct b end;
    lia.
Qed.

Lemma parse_time_text (h mi s us : Z) :
  0 <= h < 100 -> 0 <= mi < 100 -> 0 <= s < 100 -> 0 <= us < 1000000 ->
  parse_isoformat_time (time_text h mi s us) = Some (h, mi, s, us, None).
Proof.
  intros Hh Hmi Hs Hus. unfold parse_isoformat_time.
  rewrite split_sign_none.
  2:{ unfold time_text. rewrite !string_forallb_app, !pad_digits_no_sign.
      destruct (us =? 0); [reflexivity|].
      rewrite string_forallb_app, pad_digits_no_sign. reflexivity. }
  unfold parse_hh_mm_ss_ff, time_text.
  rewrite read_digits_pad_small by (simpl; lia). simpl.
  rewrite read_digits_pad_small by (simpl; lia). simpl.
  rewrite read_digits_pad_small by (simpl; lia).
  destruct (us =? 0) eqn:E; bool_to_prop_in E.
  - subst us. reflexivity.
  - simpl. unfold parse_fraction. rewrite pad_digits_length. simpl.
    rewrite <- (string_app_nil_r (pad_digits 6 us)).
    rewrite read_digits_pad_small by (simpl; lia). reflexivity.
Qed.

Lemma fromisoformat_isoformat (t : datetime) :
  clock_reading t = true -> fromisoformat (isoformat t) = Ok t.
Proof.
  intros Ht. unfold clock_reading in Ht.
  apply andb_true_iff in Ht as [Hrange Hnaive].
  apply bool_decide_eq_true in Hnaive.
  destruct t as [y m d h mi s us tz]. simpl in Hnaive. subst tz.
  pose proof Hrange as Hr. unfold fields_in_range in Hr. simpl in Hr.
  bool_to_prop_in Hr. pose proof (days_in_month_le y m).
  unfold fromisoformat, isoformat. cbn [year month day hour minute second
    microsecond utcoffset].
  rewrite string_app_nil_r.
  change (pad_digits 2 h ++ ":" ++ pad_digits 2 mi ++ ":" ++ pad_digits 2 s
          ++ (if us =? 0 then "" else "." ++ pad_digits 6 us))
    with (time_text h mi s us).
  unfold parse_isoformat_date.
  rewrite read_digits_pad_small by (simpl; lia). simpl.
  rewrite read_digits_pad_small by (simpl; lia). simpl.
  rewrite read_digits_pad_small by (simpl; lia). simpl.
  rewrite parse_time_text by lia. simpl.
  rewrite Hrange. reflexivity.
Qed.

(** * json.loads reads back what json.dumps writes *)

Lemma scanstring_escape_char (c : ascii) (s : string) :
  scanstring (escape_char c ++ s) = parsed_map (String c) (scanstring s).
Proof.
  destruct c as [[] [] [] [] [] [] [] []]; reflexivity.
Qed.

Lemma scanstring_escape (s rest : string) :
  scanstring (escape s ++ String dquote rest) = Parsed s rest.
Proof.
  induction s as [|c s IH]; [reflexivity|].
  cbn [escape]. rewrite string_app_assoc, scanstring_escape_char, IH.
  reflexivity.
Qed.

Lemma read_all_digits_stop (acc : Z) (rest : string) :
  starts_with_digit rest = false -> read_all_digits acc rest = (acc, rest).
Proof.
  destruct rest as [|c rest]; [reflexivity|]. cbn [starts_with_digit read_all_digits].
  intros H. apply bool_decide_eq_false in H.
  destruct (digit_value c); [|reflexivity]. exfalso. apply H. eauto.
Qed.

Lemma digits_of_read (fuel : nat) :
  forall (a acc : Z) (rest : string),
    0 <= a < 2 ^ Z.of_nat fuel ->
    read_all_digits acc (digits_of fuel a ++ rest)
    = read_all_digits
        (acc * 10 ^ Z.of_nat (String.length (digits_of fuel a)) + a) rest.
Proof.
  induction fuel as [|fuel IH]; intros a acc rest Ha.
  - change (2 ^ Z.of_nat 0) with 1 in Ha. assert (a = 0) as -> by lia.
    cbn [digits_of String.length]. simpl String.append. f_equal. lia.
  - rewrite Nat2Z.inj_succ, Z.pow_succ_r in Ha by lia.
    pose proof (Z.mod_pos_bound a 10) as Hm.
    pose proof (Z.div_mod a 10) as Hd.
    cbn [digits_of]. rewrite string_app_assoc, string_length_app.
    cbn [String.length]. simpl (String _ "" ++ rest).
    destruct (a <? 10) eqn:E; bool_to_prop_in E.
    + simpl String.append. cbn [read_all_digits String.length].
      rewrite digit_value_digit_char by lia. f_equal.
      rewrite Z.mod_small by lia. simpl. lia.
    + rewrite IH.
      2:{ split; [apply Z.div_pos; lia|].
          apply Z.div_lt_upper_bound; lia. }
      cbn [read_all_digits]. rewrite digit_value_digit_char by lia. f_equal.
      rewrite Nat.add_1_r, Nat2Z.inj_succ, Z.pow_succ_r by lia.
      lia.
Qed.

Lemma digits_of_head (fuel : nat) :
  forall a : Z,
    0 <= a < 2 ^ Z.of_nat (S fuel) ->
    exists (d : Z) (tl : string),
      digits_of (S fuel) a = String (digit_char d) tl
      /\ 0 <= d <= 9 /\ (d = 0 -> a = 0 /\ tl = "").
Proof.
  induction fuel as [|fuel IH]; intros a Ha.
  - change (2 ^ Z.of_nat 1) with 2 in Ha. exists a, "".
    cbn [digits_of]. replace (a <? 10) with true by (symmetry; bool_to_prop; lia).
    rewrite Z.mod_small by lia. simpl. split; [reflexivity|]. split; [lia|].
    intros ->. split; reflexivity.
  - rewrite Nat2Z.inj_succ, Z.pow_succ_r in Ha by lia.
    remember (S fuel) as f eqn:Hf. cbn [digits_of].
    destruct (a <? 10) eqn:E; bool_to_prop_in E.
    + exists a, "". rewrite Z.mod_small by lia. simpl.
      split; [reflexivity|]. split; [lia|]. intros ->. split; reflexivity.
    + destruct (IH (a / 10)) as (d & tl & Hdig & Hd & Hz).
      { split; [apply Z.div_pos; lia|]. apply Z.div_lt_upper_bound; lia. }
      exists d, (tl ++ String (digit_char (a mod 10)) "").
      rewrite Hdig. split; [reflexivity|]. split; [lia|].
      intros ->. exfalso. destruct Hz as [Hz _]; [reflexivity|].
      pose proof (Z.div_mod a 10). pose proof (Z.mod_pos_bound a 10). lia.
Qed.

Lemma abs_lt_pow2 (n : Z) : 0 <= Z.abs n < 2 ^ Z.of_nat (S (Z.to_nat (Z.log2 (Z.abs n)))).
Proof.
  split; [lia|]. rewrite Nat2Z.inj_succ, Z2Nat.id by apply Z.log2_nonneg.
  destruct (Z.eq_dec (Z.abs n) 0) as [->|Hne]; [reflexivity|].
  apply Z.log2_spec. lia.
Qed.

Lemma digit_char_not_minus (d : Z) :
  0 <= d <= 9 -> Ascii.eqb (digit_char d) "-" = false.
Proof.
  intros Hd. apply Ascii.eqb_neq. intros H.
  apply (f_equal byte_of_ascii) in H. unfold digit_char in H.
  rewrite byte_of_ascii_of_byte in H by lia.
  change (byte_of_ascii "-") with 45 in H. lia.
Qed.

Lemma scan_number_int_str (n : Z) (rest : string) :
  delimited rest = true -> scan_number (int_str n ++ rest) = Parsed n rest.
Proof.
  intros Hrest. apply andb_true_iff in Hrest as [Hdig Hfloat].
  apply negb_true_iff in Hdig, Hfloat.
  unfold int_str.
  destruct (digits_of_head _ _ (abs_lt_pow2 n)) as (d & tl & Hdigits & Hd & Hz).
  pose proof (digits_of_read _ _ 0 rest (abs_lt_pow2 n)) as Hread.
  rewrite Hdigits in Hread |- *. simpl (String _ tl ++ rest) in Hread.
  cbn [read_all_digits] in Hread.
  rewrite digit_value_digit_char in Hread by lia.
  rewrite (read_all_digits_stop _ rest) in Hread by assumption.
  replace (10 * 0 + d) with d in Hread by lia.
  replace (0 * 10 ^ Z.of_nat (String.length (String (digit_char d) tl))
           + Z.abs n) with (Z.abs n) in Hread by lia.
  unfold scan_number.
  destruct (n <? 0) eqn:E; bool_to_prop_in E; simpl.
  - rewrite digit_value_digit_char by lia.
    destruct (d =? 0) eqn:E0; bool_to_prop_in E0.
    + destruct Hz as [Hz _]; [assumption | lia].
    + rewrite Hread, Hfloat. f_equal. lia.
  - rewrite digit_char_not_minus by lia.
    rewrite digit_value_digit_char by lia.
    destruct (d =? 0) eqn:E0; bool_to_prop_in E0.
    + destruct Hz as [Hz ->]; [assumption|]. simpl. rewrite Hfloat.
      f_equal. lia.
    + rewrite Hread, Hfloat. f_equal. lia.
Qed.

Lemma value_ind' (P : value -> Prop) :
  P VNone -> (forall b, P (VBool b)) -> (forall n, P (VInt n)) ->
  (forall s, P (VStr s)) ->
  (forall items, Forall P items -> P (VList items)) ->
  (forall pairs, Forall (fun p => P (snd p)) pairs -> P (VDict pairs)) ->
  forall v, P v.
Proof.
  intros HNone HBool HInt HStr HList HDict. fix IH 1.
  intros [ | b | n | s | items | pairs].
  - exact HNone.
  - apply HBool.
  - apply HInt.
  - apply HStr.
  - apply HList. induction items as [|v items IHitems]; constructor;
      [apply IH | exact IHitems].
  - apply HDict. induction pairs as [|[k v] pairs IHpairs]; constructor;
      [apply IH | exact IHpairs].
Qed.

Lemma value_start_facts (c : ascii) :
  value_start c = true ->
  is_ws c = false /\ Ascii.eqb c "]" = false /\ Ascii.eqb c "}" = false.
Proof.
  destruct c as [[] [] [] [] [] [] [] []]; intros H;
    first [discriminate H | repeat split].
Qed.

Lemma scan_once_number (fuel : nat) (c : ascii) (s : string) :
  int_start c = true ->
  scan_once (S fuel) (String c s)
  = match scan_number (String c s) with
    | Parsed n rest => Parsed (VInt n) rest
    | Unsupported => Unsupported
    | OutOfFuel => OutOfFuel
    | Malformed =>
        if float_constant (String c s) then Unsupported else Malformed
    end.
Proof.
  destruct c as [[] [] [] [] [] [] [] []]; intros H;
    first [discriminate H | reflexivity].
Qed.

Lemma int_str_start (n : Z) :
  exists (c : ascii) (s : string), int_str n = String c s /\ int_start c = true.
Proof.
  unfold int_str.
  destruct (digits_of_head _ _ (abs_lt_pow2 n)) as (d & tl & Hdigits & Hd & _).
  rewrite Hdigits. destruct (n <? 0).
  - eexists _, _. split; reflexivity.
  - eexists _, _. split; [reflexivity|]. unfold int_start, digit_char.
    rewrite byte_of_ascii_of_byte by lia. bool_to_prop. lia.
Qed.

Lemma int_start_value_start (c : ascii) :
  int_start c = true -> value_start c = true.
Proof.
  destruct c as [[] [] [] [] [] [] [] []]; intros H;
    first [discriminate H | reflexivity].
Qed.

Lemma json_dumps_start (v : value) :
  exists (c : ascii) (s : string),
    json_dumps v = String c s /\ value_start c = true.
Proof.
  destruct v as [ | [] | n | s | items | pairs];
    try (eexists _, _; split; reflexivity).
  destruct (int_str_start n) as (c & s & Hs & Hc).
  exists c, s. split; [exact Hs | now apply int_start_value_start].
Qed.

Lemma skip_ws_dumps (v : value) (rest : string) :
  skip_ws (json_dumps v ++ rest) = json_dumps v ++ rest.
Proof.
  destruct (json_dumps_start v) as (c & s & -> & Hc).
  apply value_start_facts in Hc as (Hws & _). simpl. now rewrite Hws.
Qed.

Lemma scan_once_int (fuel : nat) (n : Z) (rest : string) :
  delimited rest = true ->
  scan_once (S fuel) (int_str n ++ rest) = Parsed (VInt n) rest.
Proof.
  intros Hrest. pose proof (scan_number_int_str n rest Hrest) as Hnum.
  destruct (int_str_start n) as (c & s & Hs & Hc). rewrite Hs in Hnum |- *.
  simpl (String c s ++ rest) in Hnum |- *.
  rewrite scan_once_number by exact Hc. now rewrite Hnum.
Qed.

Lemma concat_dumps_start (v : value) (l : list string) :
  exists r, String.concat ", " (json_dumps v :: l) = json_dumps v ++ r.
Proof.
  destruct l as [|x l].
  - exists "". simpl. now rewrite string_app_nil_r.
  - eexists. reflexivity.
Qed.

Lemma array_items_dumps (items : list value) :
  items <> [] -> Forall reads_back items ->
  forall (fuel : nat) (rest : string),
    (items_size items <= fuel)%nat ->
    array_items fuel
      (String.concat ", " (List.map json_dumps items) ++ String "]" rest)
    = Parsed items rest.
Proof.
  induction items as [|v vs IH]; [congruence|]. intros _ Hall fuel rest Hfuel.
  apply Forall_cons_iff in Hall as [Hv Hvs].
  unfold items_size in Hfuel. simpl in Hfuel.
  destruct fuel as [|fuel]; [lia|]. cbn [array_items].
  destruct vs as [|v2 vs].
  - cbn [List.map String.concat].
    rewrite (Hv fuel (String "]" rest)) by (first [reflexivity | lia]).
    reflexivity.
  - specialize (IH ltac:(discriminate) Hvs fuel rest).
    destruct (concat_dumps_start v2 (List.map json_dumps vs)) as [r Hr].
    change (String.concat ", " (List.map json_dumps (v :: v2 :: vs)))
      with (json_dumps v ++ ", "
            ++ String.concat ", " (json_dumps v2 :: List.map json_dumps vs)).
    change (List.map json_dumps (v2 :: vs))
      with (json_dumps v2 :: List.map json_dumps vs) in IH.
    rewrite Hr in IH |- *. rewrite !string_app_assoc in IH.
    rewrite !string_app_assoc.
    rewrite (Hv fuel) by (first [reflexivity | lia]).
    simpl. rewrite skip_ws_dumps.
    rewrite IH; [reflexivity|]. unfold items_size. simpl in Hfuel |- *. lia.
Qed.

Lemma object_members_dumps (pairs : list (string * value)) :
  pairs <> [] -> Forall (fun p => reads_back (snd p)) pairs ->
  forall (fuel : nat) (rest : string),
    (pairs_size pairs <= fuel)%nat ->
    exists body : string,
      String.concat ", " (List.map member_text pairs) = String dquote body
      /\ object_members fuel (body ++ String "}" rest) = Parsed pairs rest.
Proof.
  induction pairs as [|[k v] ps IH]; [congruence|].
  intros _ Hall fuel rest Hfuel.
  apply Forall_cons_iff in Hall as [Hv Hps]. cbn [snd] in Hv.
  unfold pairs_size in Hfuel. simpl in Hfuel.
  destruct fuel as [|fuel]; [lia|].
  destruct ps as [|[k2 v2] ps].
  - exists ((escape k ++ String dquote "") ++ ": " ++ json_dumps v).
    split; [reflexivity|].
    rewrite !string_app_assoc. simpl (String dquote "" ++ _).
    cbn [object_members]. rewrite scanstring_escape.
    simpl. rewrite skip_ws_dumps.
    rewrite (Hv fuel (String "}" rest)) by (first [reflexivity | lia]).
    reflexivity.
  - destruct (IH ltac:(discriminate) Hps fuel rest) as (body2 & Hbody2 & Hread).
    { unfold pairs_size. simpl in Hfuel |- *. lia. }
    exists ((escape k ++ String dquote "") ++ ": " ++ json_dumps v ++ ", "
            ++ String dquote body2).
    split.
    + change (String.concat ", " (List.map member_text ((k, v) :: (k2, v2) :: ps)))
        with (member_text (k, v) ++ ", "
              ++ String.concat ", " (List.map member_text ((k2, v2) :: ps))).
      rewrite Hbody2. unfold member_text, encode_str. cbn [fst snd].
      simpl. rewrite !string_app_assoc. reflexivity.
    + rewrite !string_app_assoc. simpl (String dquote "" ++ _).
      cbn [object_members]. rewrite scanstring_escape.
      simpl. rewrite skip_ws_dumps.
      rewrite (Hv fuel) by (first [reflexivity | lia]).
      simpl. rewrite Hread. reflexivity.
Qed.

Lemma dict_set_fresh (d : list (string * value)) (k : string) (v : value) :
  existsb (String.eqb k) (List.map fst d) = false ->
  dict_set d k v = (d ++ [(k, v)])%list.
Proof.
  induction d as [|[k' v'] d IH]; [reflexivity|]. simpl.
  intros H. apply orb_false_iff in H as [Hk Hd].
  rewrite Hk, (IH Hd). reflexivity.
Qed.

Lemma dict_of_pairs_distinct (pairs : list (string * value)) :
  distinct (List.map fst pairs) = true -> dict_of_pairs pairs = pairs.
Proof.
  unfold dict_of_pairs.
  enough (forall acc : list (string * value),
            distinct (List.map fst (acc ++ pairs)) = true ->
            fold_left (fun d p => dict_set d (fst p) (snd p)) pairs acc
            = (acc ++ pairs)%list) as H by (intros Hd; exact (H [] Hd)).
  induction pairs as [|[k v] ps IH]; intros acc Hd.
  - now rewrite app_nil_r.
  - cbn [fold_left fst snd]. rewrite dict_set_fresh.
    + rewrite IH; rewrite <- app_assoc; [reflexivity | exact Hd].
    + clear IH. induction acc as [|[k' v'] acc IHacc]; [reflexivity|].
      simpl in Hd |- *. apply andb_true_iff in Hd as [Hk Hd].
      apply negb_true_iff in Hk. rewrite List.map_app, existsb_app in Hk.
      apply orb_false_iff in Hk as [_ Hk]. simpl in Hk.
      apply orb_false_iff in Hk as [Hk _].
      rewrite String.eqb_sym, Hk. simpl. exact (IHacc Hd).
Qed.

Lemma reads_back_all (v : value) : well_formed v = true -> reads_back v.
Proof.
  induction v as [ | b | n | s | items IH | pairs IH] using value_ind';
    intros Hwf fuel rest Hfuel Hrest;
    (destruct fuel as [|fuel]; [simpl in Hfuel; lia|]).
  - reflexivity.
  - destruct b; reflexivity.
  - apply scan_once_int. exact Hrest.
  - cbn [json_dumps]. unfold encode_str. simpl.
    rewrite string_app_assoc. simpl (String dquote "" ++ rest).
    rewrite scanstring_escape. reflexivity.
  - cbn [json_dumps well_formed size] in *.
    assert (Forall reads_back items) as Hall.
    { rewrite forallb_forall in Hwf. rewrite Forall_forall in IH |- *.
      intros x Hx. apply IH; [exact Hx|]. apply Hwf.
      now apply list_elem_of_In. }
    destruct items as [|v vs].
    + reflexivity.
    + pose proof (array_items_dumps (v :: vs) ltac:(discriminate) Hall fuel rest)
        as Hitems.
      destruct (concat_dumps_start v (List.map json_dumps vs)) as [r Hr].
      change (List.map json_dumps (v :: vs))
        with (json_dumps v :: List.map json_dumps vs) in Hitems |- *.
      rewrite Hr in Hitems |- *.
      destruct (json_dumps_start v) as (c & s & Hs & Hc).
      apply value_start_facts in Hc as (Hws & Hclose & _).
      rewrite Hs in Hitems |- *. rewrite !string_app_assoc in Hitems |- *.
      simpl in Hitems |- *. rewrite Hws, Hclose.
      rewrite !string_app_assoc. simpl ("]" ++ rest).
      rewrite Hitems; [reflexivity|]. unfold items_size. lia.
  - cbn [json_dumps well_formed size] in *.
    apply andb_true_iff in Hwf as [Hkeys Hwf].
    assert (Forall (fun p => reads_back (snd p)) pairs) as Hall.
    { rewrite forallb_forall in Hwf. rewrite Forall_forall in IH |- *.
      intros x Hx. apply IH; [exact Hx|]. apply Hwf.
      now apply list_elem_of_In. }
    destruct pairs as [|p ps].
    + reflexivity.
    + destruct (object_members_dumps (p :: ps) ltac:(discriminate) Hall fuel rest)
        as (body & Hbody & Hread).
      { unfold pairs_size. lia. }
      change (String.concat ", "
                (List.map (fun p0 => encode_str (fst p0) ++ ": "
                                     ++ json_dumps (snd p0)) (p :: ps)))
        with (String.concat ", " (List.map member_text (p :: ps))).
      rewrite Hbody. simpl. rewrite !string_app_assoc. simpl ("}" ++ rest).
      rewrite Hread. simpl. rewrite dict_of_pairs_distinct by exact Hkeys.
      reflexivity.
Qed.

Lemma concat_length_bound {A : Type} (f : A -> string) (sz : A -> nat)
  (l : list A) :
  Forall (fun x => (sz x <= String.length (f x))%nat) l ->
  (list_sum (List.map (fun x => S (sz x)) l)
   <= 1 + String.length (String.concat ", " (List.map f l)))%nat.
Proof.
  induction l as [|x l IH]; intros Hall; [simpl; lia|].
  apply Forall_cons_iff in Hall as [Hx Hl]. specialize (IH Hl).
  destruct l as [|y l].
  - simpl. lia.
  - change (String.concat ", " (List.map f (x :: y :: l)))
      with (f x ++ ", " ++ String.concat ", " (List.map f (y :: l))).
    rewrite !string_length_app.
    change (list_sum (List.map (fun x0 => S (sz x0)) (x :: y :: l)))
      with (S (sz x) + list_sum (List.map (fun x0 => S (sz x0)) (y :: l)))%nat.
    change (String.length ", ") with 2%nat. lia.
Qed.

Lemma size_le_length (v : value) : (size v <= String.length (json_dumps v))%nat.
Proof.
  induction v as [ | b | n | s | items IH | pairs IH] using value_ind'.
  - simpl. lia.
  - destruct b; simpl; lia.
  - destruct (int_str_start n) as (c & s & Hs & _). simpl. rewrite Hs.
    simpl. lia.
  - simpl. lia.
  - cbn [size json_dumps]. rewrite !string_length_app.
    pose proof (concat_length_bound json_dumps size items IH).
    change (String.length "[") with 1%nat.
    change (String.length "]") with 1%nat. lia.
  - cbn [size json_dumps]. rewrite !string_length_app.
    change (String.length "{") with 1%nat.
    change (String.length "}") with 1%nat.
    pose proof (concat_length_bound member_text (fun p => size (snd p)) pairs)
      as H.
    unfold member_text in H at 2. apply le_n_S.
    etransitivity; [apply H|lia].
    eapply Forall_impl; [exact IH|]. intros [k x] Hx. cbn [fst snd] in *.
    unfold member_text. cbn [fst snd]. rewrite !string_length_app. lia.
Qed.

Lemma json_loads_dumps (v : value) :
  well_formed v = true -> json_loads (json_dumps v) = Ok v.
Proof.
  intros Hwf. unfold json_loads.
  pose proof (reads_back_all v Hwf (2 * String.length (json_dumps v) + 2)%nat "")
    as Hread.
  rewrite string_app_nil_r in Hread.
  pose proof (skip_ws_dumps v "") as Hskip.
  rewrite string_app_nil_r in Hskip.
  rewrite Hskip, Hread; [reflexivity | | reflexivity].
  pose proof (size_le_length v). lia.
Qed.

(** * The fuel of [json_loads] is enough *)

Lemma consumes_map {A B : Type} (f : A -> B) (n : nat) (p : parsed A) :
  consumes n p -> consumes n (parsed_map f p).
Proof. destruct p; simpl; auto. Qed.

Lemma consumes_weaken {A : Type} (n m : nat) (p : parsed A) :
  (n <= m)%nat -> consumes n p -> consumes m p.
Proof. destruct p; simpl; auto; lia. Qed.

Lemma skip_ws_length (s : string) :
  (String.length (skip_ws s) <= String.length s)%nat.
Proof.
  induction s as [|c s IH]; simpl; [lia|].
  destruct (is_ws c); simpl; lia.
Qed.

Lemma skip_ws_cons (s : string) (c : ascii) (rest : string) :
  skip_ws s = String c rest -> (String.length rest < String.length s)%nat.
Proof.
  intros H. pose proof (skip_ws_length s) as Hle.
  rewrite H in Hle. simpl in Hle. lia.
Qed.

Lemma strip_prefix_length (p s rest : string) :
  strip_prefix p s = Some rest ->
  String.length s = (String.length p + String.length rest)%nat.
Proof.
  revert s. induction p as [|a p IH]; intros s H; simpl in H.
  - now inversion H.
  - destruct s as [|b s]; [discriminate|].
    destruct (Ascii.eqb a b); [|discriminate].
    simpl. now rewrite (IH s H).
Qed.

Lemma scanstring_consumes (s : string) :
  consumes (String.length s) (scanstring s).
Proof.
  remember (String.length s) as n eqn:Hn.
  assert (Hle : (String.length s <= n)%nat) by lia.
  rewrite Hn. clear Hn. revert s Hle.
  induction n as [|n IH]; intros s Hle.
  - destruct s; [exact I | simpl in Hle; lia].
  - destruct s as [|c s1]; [exact I|].
    simpl in Hle. simpl scanstring. cbv zeta.
    destruct (byte_of_ascii c =? 34); [simpl; lia|].
    destruct (byte_of_ascii c =? 92).
    + destruct s1 as [|e s2]; [exact I|]. simpl in Hle.
      destruct (byte_of_ascii e =? 117).
      * destruct s2 as [|h1 [|h2 [|h3 [|h4 s3]]]]; try exact I.
        simpl in Hle.
        destruct (hex4 h1 h2 h3 h4) as [cp|]; [|exact I].
        destruct (cp <? 256); [|exact I].
        apply consumes_map.
        apply (consumes_weaken (String.length s3)); [simpl; lia|].
        apply IH. lia.
      * destruct (unescape e); [|exact I].
        apply consumes_map.
        apply (consumes_weaken (String.length s2)); [simpl; lia|].
        apply IH. lia.
    + destruct (byte_of_ascii c <? 32); [exact I|].
      apply consumes_map.
      apply (consumes_weaken (String.length s1)); [simpl; lia|].
      apply IH. lia.
Qed.

Lemma read_all_digits_length (acc : Z) (s : string) :
  (String.length (snd (read_all_digits acc s)) <= String.length s)%nat.
Proof.
  revert acc. induction s as [|c s IH]; intros acc; simpl; [lia|].
  destruct (digit_value c); simpl; [|lia].
  specialize (IH (10 * acc + z)). lia.
Qed.

Lemma scan_number_consumes (s : string) :
  consumes (String.length s) (scan_number s).
Proof.
  unfold scan_number.
  assert (Hs1 : forall (negative : bool) (s1 : string),
             (String.length s1 <= String.length s)%nat ->
             consumes (String.length s)
               match s1 with
               | String c s2 =>
                   match digit_value c with
                   | Some d =>
                       let '(n, rest) :=
                         if d =? 0 then (0, s2) else read_all_digits d s2 in
                       if float_follows rest then Unsupported
                       else Parsed (if negative then - n else n) rest
                   | None => Malformed
                   end
               | EmptyString => Malformed
               end).
  { intros negative [|c s2] Hle; [exact I|]. simpl in Hle.
    destruct (digit_value c) as [d|]; [|exact I].
    destruct (d =? 0).
    - destruct (float_follows s2); simpl; [exact I | lia].
    - pose proof (read_all_digits_length d s2) as Hd.
      destruct (read_all_digits d s2) as [n rest]. simpl in Hd.
      destruct (float_follows rest); simpl; [exact I | lia]. }
  destruct s as [|c s']; [exact I|].
  destruct (Ascii.eqb c "-").
  - exact (Hs1 true s' ltac:(simpl; lia)).
  - exact (Hs1 false (String c s') ltac:(simpl; lia)).
Qed.

(** With fuel above twice the length of the text, [scan_once] gives its
    answer (and [array_items], [object_members] with one more): each
    value met on the way down costs one unit and stands after one
    character at least of its parent's text. *)
Lemma scanner_consumes (fuel : nat) :
  (forall s, (2 * String.length s < fuel)%nat ->
             consumes (String.length s) (scan_once fuel s)) /\
  (forall s, (2 * String.length s + 2 <= fuel)%nat ->
             consumes (String.length s) (array_items fuel s)) /\
  (forall s, (2 * String.length s + 2 <= fuel)%nat ->
             consumes (String.length s) (object_members fuel s)).
Proof.
  induction fuel as [|fuel (IHonce & IHitems & IHmembers)].
  { repeat split; intros s H; lia. }
  split; [|split]; intros s Hfuel.
  - destruct s as [|c s1]; [exact I|].
    cbn [scan_once]. simpl String.length in *.
    destruct (Ascii.eqb c dquote).
    { apply consumes_map.
      apply (consumes_weaken (String.length s1)); [lia|].
      apply scanstring_consumes. }
    destruct (Ascii.eqb c "{").
    { destruct (skip_ws s1) as [|c' s2] eqn:Hws; [exact I|].
      apply skip_ws_cons in Hws.
      destruct (Ascii.eqb c' "}"); [simpl; lia|].
      destruct (Ascii.eqb c' dquote); [|exact I].
      apply consumes_map.
      apply (consumes_weaken (String.length s2)); [lia|].
      apply IHmembers. lia. }
    destruct (Ascii.eqb c "[").
    { destruct (skip_ws s1) as [|c' s2] eqn:Hws; [exact I|].
      apply skip_ws_cons in Hws.
      destruct (Ascii.eqb c' "]"); [simpl; lia|].
      apply consumes_map.
      apply (consumes_weaken (String.length (String c' s2))); [simpl; lia|].
      apply IHitems. simpl. lia. }
    destruct (strip_prefix "null" (String c s1)) as [rest|] eqn:Hnull.
    { apply strip_prefix_length in Hnull. simpl in *. lia. }
    destruct (strip_prefix "true" (String c s1)) as [rest|] eqn:Htrue.
    { apply strip_prefix_length in Htrue. simpl in *. lia. }
    destruct (strip_prefix "false" (String c s1)) as [rest|] eqn:Hfalse.
    { apply strip_prefix_length in Hfalse. simpl in *. lia. }
    pose proof (scan_number_consumes (String c s1)) as Hnum.
    destruct (scan_number (String c s1)) as [n rest| | |].
    + exact Hnum.
    + now destruct (float_constant (String c s1)).
    + exact I.
    + exact Hnum.
  - cbn [array_items].
    assert (Honce : consumes (String.length s) (scan_once fuel s))
      by (apply IHonce; lia).
    destruct (scan_once fuel s) as [v rest| | |]; try exact Honce.
    simpl in Honce.
    destruct (skip_ws rest) as [|c rest'] eqn:Hws; [exact I|].
    apply skip_ws_cons in Hws.
    destruct (Ascii.eqb c "]"); [simpl; lia|].
    destruct (Ascii.eqb c ","); [|exact I].
    pose proof (skip_ws_length rest') as Hrest'.
    apply consumes_map.
    apply (consumes_weaken (String.length (skip_ws rest'))); [lia|].
    apply IHitems. lia.
  - cbn [object_members].
    pose proof (scanstring_consumes s) as Hkey.
    destruct (scanstring s) as [k rest| | |]; try exact Hkey.
    simpl in Hkey.
    destruct (skip_ws rest) as [|c rest1] eqn:Hws; [exact I|].
    apply skip_ws_cons in Hws.
    destruct (Ascii.eqb c ":"); [|exact I].
    pose proof (skip_ws_length rest1) as Hrest1.
    assert (Honce : consumes (String.length (skip_ws rest1))
                      (scan_once fuel (skip_ws rest1)))
      by (apply IHonce; lia).
    destruct (scan_once fuel (skip_ws rest1)) as [v rest2| | |];
      try exact I; [|exact Honce].
    simpl in Honce.
    destruct (skip_ws rest2) as [|c' rest3] eqn:Hws2; [exact I|].
    apply skip_ws_cons in Hws2.
    destruct (Ascii.eqb c' "}"); [simpl; lia|].
    destruct (Ascii.eqb c' ","); [|exact I].
    destruct (skip_ws rest3) as [|q rest4] eqn:Hws3; [exact I|].
    apply skip_ws_cons in Hws3.
    destruct (Ascii.eqb q dquote); [|exact I].
    apply consumes_map.
    apply (consumes_weaken (String.length rest4)); [lia|].
    apply IHmembers. lia.
Qed.

(** [json_loads] never stops for want of fuel: on every text its scanner
    gives a value, a syntax error or a token outside the model. *)
Lemma json_loads_fuel (s : string) :
  scan_once (2 * String.length s + 2) (skip_ws s) <> OutOfFuel.
Proof.
  pose proof (skip_ws_length s) as Hle.
  destruct (scanner_consumes (2 * String.length s + 2)) as [Honce _].
  specialize (Honce (skip_ws s) ltac:(lia)).
  intros Hout. rewrite Hout in Honce. exact Honce.
Qed.

(** * Paths *)

Lemma parent_join (d : list string) (name : string) :
  parent (os_path_join d name) = d.
Proof. unfold parent, os_path_join. apply removelast_last. Qed.

Lemma join_ne_dir (d : list string) (name : string) : os_path_join d name <> d.
Proof.
  unfold os_path_join. intros H. apply (f_equal length) in H.
  rewrite length_app in H. simpl in H. lia.
Qed.

Lemma join_inj (d : list string) (a b : string) :
  os_path_join d a = os_path_join d b -> a = b.
Proof.
  unfold os_path_join. intros H. apply app_inj_tail in H as [_ H]. exact H.
Qed.

Lemma string_app_inv_tail (a b s : string) :
  String.length a = String.length b -> a ++ s = b ++ s -> a = b.
Proof.
  revert b. induction a as [|x a IH]; intros [|y b] Hlen H; simpl in *;
    try discriminate; [reflexivity|].
  injection H as -> H. injection Hlen as Hlen. f_equal. now apply IH.
Qed.

Lemma cache_path_parent (self : GitHubStatsCache.t) (key : string) :
  parent (GitHubStatsCache._get_cache_path self key)
  = GitHubStatsCache.cache_dir self.
Proof. apply parent_join. Qed.

Lemma cache_path_ne_dir (self : GitHubStatsCache.t) (key : string) :
  GitHubStatsCache._get_cache_path self key <> GitHubStatsCache.cache_dir self.
Proof. apply join_ne_dir. Qed.

Lemma cache_path_inj (self : GitHubStatsCache.t) (k1 k2 : string) :
  GitHubStatsCache._get_cache_path self k1
  = GitHubStatsCache._get_cache_path self k2 ->
  GitHubStatsCache._get_cache_key self k1
  = GitHubStatsCache._get_cache_key self k2.
Proof.
  unfold GitHubStatsCache._get_cache_path. intros H. apply join_inj in H.
  apply string_app_inv_tail in H; [exact H|].
  unfold GitHubStatsCache._get_cache_key.
  now rewrite !(proj1 (hexdigest_spec _)).
Qed.

(** * What [get] and [set] do to an entry file *)

Lemma os_remove_not_caught (p : list string) (fs fs' : filesystem) (e : exn) :
  os_remove p fs = (Raise e, fs') ->
  GitHubStatsCache.invalid_cache_file e = false /\ fs' = fs.
Proof.
  unfold os_remove, may_modify_parent.
  destruct (fs !! p) as [[w|text]|]; destruct (fs !! parent p) as [[[]|old]|];
    intros [= <- <-]; split; reflexivity.
Qed.

Lemma get_missing (self : GitHubStatsCache.t) (now : datetime) (key : string)
  (fs : filesystem) :
  fs !! GitHubStatsCache._get_cache_path self key = None ->
  GitHubStatsCache.get self now key fs = (Ok VNone, fs).
Proof.
  intros Hfile. unfold GitHubStatsCache.get, bind, os_path_exists.
  rewrite Hfile. reflexivity.
Qed.

Lemma get_on_file (self : GitHubStatsCache.t) (now : datetime) (key : string)
  (fs : filesystem) (text : string) :
  let cache_path := GitHubStatsCache._get_cache_path self key in
  fs !! cache_path = Some (File text) ->
  GitHubStatsCache.get self now key fs
  = match check_entry self now text with
    | Raise e =>
        if GitHubStatsCache.invalid_cache_file e
        then GitHubStatsCache.remove_invalid cache_path fs
        else (Raise e, fs)
    | Ok (cache_data, true) =>
        match os_remove cache_path fs with
        | (Ok _, fs') => (Ok VNone, fs')
        | (Raise e, _) => (Raise e, fs)
        end
    | Ok (cache_data, false) =>
        match getitem cache_data "data" with
        | Ok data => (Ok data, fs)
        | Raise e =>
            if GitHubStatsCache.invalid_cache_file e
            then GitHubStatsCache.remove_invalid cache_path fs
            else (Raise e, fs)
        end
    end.
Proof.
  intros cache_path Hfile.
  unfold GitHubStatsCache.get, check_entry, bind, try_except, os_path_exists,
    read_file, lift, ret.
  fold cache_path. rewrite Hfile. simpl. rewrite Hfile.
  destruct (json_loads text) as [cache_data|e]; [|reflexivity]. simpl.
  destruct (getitem cache_data "timestamp") as [timestamp|e]; [|reflexivity].
  simpl.
  destruct (datetime_fromisoformat timestamp) as [cached_time|e];
    [|reflexivity].
  simpl.
  destruct (datetime_sub now cached_time) as [age|e]; [|reflexivity]. simpl.
  destruct (timedelta_hours (GitHubStatsCache.expiry_hours self)) as [limit|e];
    [|reflexivity].
  simpl. destruct (age >? limit).
  - destruct (os_remove cache_path fs) as [[[]|e] fs'] eqn:Hremove;
      [reflexivity|].
    apply os_remove_not_caught in Hremove as [-> ->]. reflexivity.
  - destruct (getitem cache_data "data") as [data|e]; reflexivity.
Qed.

Lemma set_writes (self : GitHubStatsCache.t) (now : datetime) (key : string)
  (data : value) (fs fs' : filesystem) :
  GitHubStatsCache.set self now key data fs = (Ok tt, fs') ->
  fs' = <[GitHubStatsCache._get_cache_path self key
          := File (entry_text now data)]> fs.
Proof.
  unfold GitHubStatsCache.set, write_file. fold (entry_text now data).
  destruct (fs !! GitHubStatsCache._get_cache_path self key) as [[w|old]|];
    [discriminate | now intros [= <-] |].
  destruct (may_modify_parent _ _); [now intros [= <-] | discriminate].
Qed.

Lemma set_succeeds (self : GitHubStatsCache.t) (now : datetime) (key : string)
  (data : value) (fs : filesystem) :
  fs !! GitHubStatsCache.cache_dir self = Some (Dir true) ->
  (forall w, fs !! GitHubStatsCache._get_cache_path self key <> Some (Dir w)) ->
  GitHubStatsCache.set self now key data fs
  = (Ok tt, <[GitHubStatsCache._get_cache_path self key
              := File (entry_text now data)]> fs).
Proof.
  intros Hdir Hpath.
  unfold GitHubStatsCache.set, write_file, may_modify_parent.
  fold (entry_text now data). rewrite cache_path_parent, Hdir.
  destruct (fs !! GitHubStatsCache._get_cache_path self key)
    as [[w|old]|] eqn:E; [|reflexivity..].
  exfalso. exact (Hpath w eq_refl).
Qed.

Lemma check_entry_text (self : GitHubStatsCache.t) (set_time now : datetime)
  (data : value) (limit : Z) :
  clock_reading set_time = true -> clock_reading now = true ->
  well_formed data = true ->
  timedelta_hours (GitHubStatsCache.expiry_hours self) = Ok limit ->
  check_entry self now (entry_text set_time data)
  = Ok (VDict [("timestamp", VStr (isoformat set_time)); ("data", data)],
        wall_usec now - wall_usec set_time >? limit).
Proof.
  intros Hset Hnow Hwf Hlimit. unfold check_entry, entry_text.
  rewrite json_loads_dumps by (simpl; now rewrite Hwf).
  simpl. rewrite fromisoformat_isoformat by exact Hset. simpl.
  unfold datetime_sub. unfold clock_reading in Hset, Hnow.
  apply andb_true_iff in Hset as [_ Hset], Hnow as [_ Hnow].
  apply bool_decide_eq_true in Hset, Hnow. rewrite Hset, Hnow. simpl.
  rewrite Hlimit. reflexivity.
Qed.

Lemma found_iff (v : value) : found v = true <-> v <> VNone.
Proof. destruct v; simpl; split; congruence. Qed.

Lemma not_gtb (a b : Z) : a <= b -> (a >? b) = false.
Proof. intros H. rewrite Z.gtb_ltb. apply Z.ltb_ge. lia. Qed.

Lemma is_gtb (a b : Z) : a > b -> (a >? b) = true.
Proof. intros H. rewrite Z.gtb_ltb. apply Z.ltb_lt. lia. Qed.

Lemma os_remove_file (p : list string) (fs : filesystem) (text : string) :
  fs !! p = Some (File text) -> fs !! parent p = Some (Dir true) ->
  os_remove p fs = (Ok tt, delete p fs).
Proof.
  intros Hfile Hdir. unfold os_remove, may_modify_parent.
  now rewrite Hfile, Hdir.
Qed.

Lemma os_remove_readonly (p : list string) (fs : filesystem) (n : node) :
  fs !! p = Some n -> fs !! parent p = Some (Dir false) ->
  os_remove p fs = (Raise PermissionError, fs).
Proof.
  intros Hfile Hdir. unfold os_remove, may_modify_parent.
  now rewrite Hfile, Hdir.
Qed.

Lemma remove_invalid_file (p : list string) (fs : filesystem) (text : string) :
  fs !! p = Some (File text) -> fs !! parent p = Some (Dir true) ->
  GitHubStatsCache.remove_invalid p fs = (Ok VNone, delete p fs).
Proof.
  intros Hfile Hdir.
  unfold GitHubStatsCache.remove_invalid, bind, os_path_exists, ret.
  rewrite Hfile. simpl. now rewrite (os_remove_file p fs text).
Qed.

Lemma remove_invalid_readonly (p : list string) (fs : filesystem) (n : node) :
  fs !! p = Some n -> fs !! parent p = Some (Dir false) ->
  GitHubStatsCache.remove_invalid p fs = (Raise PermissionError, fs).
Proof.
  intros Hfile Hdir.
  unfold GitHubStatsCache.remove_invalid, bind, os_path_exists, ret.
  rewrite Hfile. simpl. now rewrite (os_remove_readonly p fs n).
Qed.

Lemma remove_invalid_missing (p : list string) (fs : filesystem) :
  fs !! p = None -> GitHubStatsCache.remove_invalid p fs = (Ok VNone, fs).
Proof.
  intros Hfile.
  unfold GitHubStatsCache.remove_invalid, bind, os_path_exists, ret.
  now rewrite Hfile.
Qed.

(** When [get] decides to delete and the directory lets it, the file is
    gone and the result is [None]. *)
Lemma get_deletes (self : GitHubStatsCache.t) (now : datetime) (key : string)
  (fs : filesystem) (text : string) :
  let cache_path := GitHubStatsCache._get_cache_path self key in
  fs !! cache_path = Some (File text) ->
  fs !! GitHubStatsCache.cache_dir self = Some (Dir true) ->
  triggers_delete self now text = true ->
  GitHubStatsCache.get self now key fs = (Ok VNone, delete cache_path fs).
Proof.
  intros cache_path Hfile Hdir Hdel. rewrite <- (cache_path_parent self key) in Hdir.
  rewrite (get_on_file self now key fs text Hfile). fold cache_path.
  unfold triggers_delete in Hdel.
  destruct (check_entry self now text) as [[cache_data []]|e].
  - now rewrite (os_remove_file _ _ text Hfile Hdir).
  - destruct (getitem cache_data "data") as [data|e]; [discriminate|].
    rewrite Hdel. exact (remove_invalid_file _ _ text Hfile Hdir).
  - rewrite Hdel. exact (remove_invalid_file _ _ text Hfile Hdir).
Qed.

(** When it decides to delete and the directory forbids it, the error of
    [os.remove] leaves [get]. *)
Lemma get_delete_fails (self : GitHubStatsCache.t) (now : datetime)
  (key : string) (fs : filesystem) (text : string) :
  let cache_path := GitHubStatsCache._get_cache_path self key in
  fs !! cache_path = Some (File text) ->
  fs !! GitHubStatsCache.cache_dir self = Some (Dir false) ->
  triggers_delete self now text = true ->
  GitHubStatsCache.get self now key fs = (Raise PermissionError, fs).
Proof.
  intros cache_path Hfile Hdir Hdel. rewrite <- (cache_path_parent self key) in Hdir.
  rewrite (get_on_file self now key fs text Hfile). fold cache_path.
  unfold triggers_delete in Hdel.
  destruct (check_entry self now text) as [[cache_data []]|e].
  - now rewrite (os_remove_readonly _ _ _ Hfile Hdir).
  - destruct (getitem cache_data "data") as [data|e]; [discriminate|].
    rewrite Hdel. exact (remove_invalid_readonly _ _ _ Hfile Hdir).
  - rewrite Hdel. exact (remove_invalid_readonly _ _ _ Hfile Hdir).
Qed.

(** What [check_entry] makes of a record with a readable timestamp. *)
Lemma check_entry_record (self : GitHubStatsCache.t) (now : datetime)
  (text stamp : string) (pairs : list (string * value))
  (cached_time : datetime) (age limit : Z) :
  json_loads text = Ok (VDict pairs) ->
  dict_get pairs "timestamp" = Some (VStr stamp) ->
  fromisoformat stamp = Ok cached_time ->
  datetime_sub now cached_time = Ok age ->
  timedelta_hours (GitHubStatsCache.expiry_hours self) = Ok limit ->
  check_entry self now text = Ok (VDict pairs, age >? limit).
Proof.
  intros Hloads Hstamp Hiso Hage Hlimit. unfold check_entry.
  rewrite Hloads. simpl. rewrite Hstamp. simpl. rewrite Hiso. simpl.
  rewrite Hage. simpl. rewrite Hlimit. reflexivity.
Qed.

(** [get] on the entry file [set] wrote, within the expiry duration. *)
Lemma get_written (self : GitHubStatsCache.t) (set_time get_time : datetime)
  (key : string) (v : value) (expiry : Z) (fs : filesystem) :
  fs !! GitHubStatsCache._get_cache_path self key
  = Some (File (entry_text set_time v)) ->
  clock_reading set_time = true ->
  clock_reading get_time = true ->
  well_formed v = true ->
  timedelta_hours (GitHubStatsCache.expiry_hours self) = Ok expiry ->
  wall_usec get_time - wall_usec set_time <= expiry ->
  GitHubStatsCache.get self get_time key fs = (Ok v, fs).
Proof.
  intros Hfile Hst Hgt Hwf Hexp Hage.
  rewrite (get_on_file self get_time key _ (entry_text set_time v) Hfile).
  rewrite (check_entry_text self set_time get_time v expiry) by assumption.
  rewrite not_gtb by exact Hage. reflexivity.
Qed.

(** * The claims *)

(** C1, as amended.  After [set(k, v)] has returned, a [get(k)] at which
    no more than the expiry duration has passed returns [v] and leaves the
    file system as it is; the caller sees a hit exactly when [v] is not
    [None]. *)
Theorem set_then_get (self : GitHubStatsCache.t) (set_time get_time : datetime)
  (key : string) (v : value) (expiry : Z) (fs fs1 : filesystem) :
  GitHubStatsCache.set self set_time key v fs = (Ok tt, fs1) ->
  clock_reading set_time = true ->
  clock_reading get_time = true ->
  well_formed v = true ->
  timedelta_hours (GitHubStatsCache.expiry_hours self) = Ok expiry ->
  wall_usec get_time - wall_usec set_time <= expiry ->
  GitHubStatsCache.get self get_time key fs1 = (Ok v, fs1)
  /\ (found v = true <-> v <> VNone).
Proof.
  intros Hset Hst Hgt Hwf Hexp Hage. split; [|apply found_iff].
  apply set_writes in Hset. subst fs1.
  apply (get_written self set_time get_time key v expiry); try assumption.
  apply lookup_insert_eq.
Qed.

Lemma set_then_get_witness :
  GitHubStatsCache.get example_store three_pm "k"
    (<[k_path := File (entry_text noon (VInt 7))]> example_fs)
  = (Ok (VInt 7), <[k_path := File (entry_text noon (VInt 7))]> example_fs)
  /\ (found (VInt 7) = true <-> VInt 7 <> VNone).
Proof.
  apply (set_then_get example_store noon three_pm "k" (VInt 7) 21600000000
           example_fs);
    first [by_computation | vm_compute; congruence].
Defined.

(** C1 as stated fails for the value [None]: [set] stores it and [get]
    returns it, which is what [get] returns for a key never set. *)
Lemma set_none_then_get_not_found :
  let fs1 := <[k_path := File (entry_text noon VNone)]> example_fs in
  GitHubStatsCache.set example_store noon "k" VNone example_fs = (Ok tt, fs1)
  /\ GitHubStatsCache.get example_store noon "k" fs1 = (Ok VNone, fs1)
  /\ found VNone = false
  /\ GitHubStatsCache.get example_store noon "never set" fs1 = (Ok VNone, fs1).
Proof. repeat split; by_computation. Qed.

(** C2, as amended.  An entry whose age exceeds the expiry duration is
    deleted and reported as absent (in a directory that lets the process
    delete); an entry queried before that age is returned, and the
    caller sees a hit exactly when its data is not [None]. *)
Theorem get_expiry_boundary (self : GitHubStatsCache.t) (now : datetime)
  (key : string) (fs : filesystem) (text stamp : string)
  (pairs : list (string * value)) (cached_time : datetime) (age expiry : Z) :
  let cache_path := GitHubStatsCache._get_cache_path self key in
  fs !! cache_path = Some (File text) ->
  json_loads text = Ok (VDict pairs) ->
  dict_get pairs "timestamp" = Some (VStr stamp) ->
  fromisoformat stamp = Ok cached_time ->
  datetime_sub now cached_time = Ok age ->
  timedelta_hours (GitHubStatsCache.expiry_hours self) = Ok expiry ->
  (age > expiry ->
   fs !! GitHubStatsCache.cache_dir self = Some (Dir true) ->
   GitHubStatsCache.get self now key fs = (Ok VNone, delete cache_path fs)
   /\ delete cache_path fs !! cache_path = None)
  /\ (age < expiry ->
      forall data, dict_get pairs "data" = Some data ->
      GitHubStatsCache.get self now key fs = (Ok data, fs)
      /\ (found data = true <-> data <> VNone)).
Proof.
  intros cache_path Hfile Hloads Hstamp Hiso Hage Hexp.
  pose proof (check_entry_record self now text stamp pairs cached_time age
                expiry Hloads Hstamp Hiso Hage Hexp) as Hcheck.
  split.
  - intros Hold Hdir. split; [|apply lookup_delete_eq].
    apply (get_deletes self now key fs text Hfile Hdir).
    unfold triggers_delete. rewrite Hcheck, is_gtb by exact Hold. reflexivity.
  - intros Hyoung data Hdata. split; [|apply found_iff].
    rewrite (get_on_file self now key fs text Hfile), Hcheck.
    rewrite not_gtb by lia. simpl. now rewrite Hdata.
Qed.

Lemma get_expiry_boundary_witness :
  let fs1 := <[k_path := File (entry_text noon (VInt 7))]> example_fs in
  (GitHubStatsCache.get example_store seven_pm "k" fs1
   = (Ok VNone, delete k_path fs1)
   /\ delete k_path fs1 !! k_path = None)
  /\ (GitHubStatsCache.get example_store three_pm "k" fs1 = (Ok (VInt 7), fs1)
      /\ (found (VInt 7) = true <-> VInt 7 <> VNone)).
Proof.
  split.
  - destruct (get_expiry_boundary example_store seven_pm "k"
                (<[k_path := File (entry_text noon (VInt 7))]> example_fs)
                (entry_text noon (VInt 7)) "2024-01-02T12:00:00"
                [("timestamp", VStr "2024-01-02T12:00:00"); ("data", VInt 7)]
                noon (7 * usec_per_hour) (6 * usec_per_hour))
      as [Hexpired _]; [closed_goal.. |].
    apply Hexpired; closed_goal.
  - destruct (get_expiry_boundary example_store three_pm "k"
                (<[k_path := File (entry_text noon (VInt 7))]> example_fs)
                (entry_text noon (VInt 7)) "2024-01-02T12:00:00"
                [("timestamp", VStr "2024-01-02T12:00:00"); ("data", VInt 7)]
                noon (3 * usec_per_hour) (6 * usec_per_hour))
      as [_ Hfresh]; [closed_goal.. |].
    apply Hfresh; closed_goal.
Defined.

(** C2 as stated fails for an entry whose data is [None]: queried before
    the expiry age it is returned, and the caller sees a miss. *)
Lemma fresh_none_entry_not_found :
  let fs1 := <[k_path := File none_entry]> example_fs in
  check_entry example_store three_pm none_entry
  = Ok (VDict [("timestamp", VStr "2024-01-02T12:00:00"); ("data", VNone)],
        false)
  /\ GitHubStatsCache.get example_store three_pm "k" fs1 = (Ok VNone, fs1)
  /\ found VNone = false.
Proof. repeat split; by_computation. Qed.

(** C10, as amended.  With an expiry duration that is not negative, an
    entry whose timestamp lies in the future is never expired: [get]
    returns its data and leaves the file; the caller sees a hit exactly
    when the data is not [None]. *)
Theorem future_timestamp_is_fresh (self : GitHubStatsCache.t) (now : datetime)
  (key : string) (fs : filesystem) (text stamp : string)
  (pairs : list (string * value)) (cached_time : datetime) (age expiry : Z)
  (data : value) :
  fs !! GitHubStatsCache._get_cache_path self key = Some (File text) ->
  json_loads text = Ok (VDict pairs) ->
  dict_get pairs "timestamp" = Some (VStr stamp) ->
  dict_get pairs "data" = Some data ->
  fromisoformat stamp = Ok cached_time ->
  datetime_sub now cached_time = Ok age ->
  timedelta_hours (GitHubStatsCache.expiry_hours self) = Ok expiry ->
  0 <= GitHubStatsCache.expiry_hours self ->
  age < 0 ->
  (age >? expiry) = false
  /\ GitHubStatsCache.get self now key fs = (Ok data, fs)
  /\ (found data = true <-> data <> VNone).
Proof.
  intros Hfile Hloads Hstamp Hdata Hiso Hage Hexp Hpos Hfuture.
  assert (0 <= expiry) as Hexpiry.
  { unfold timedelta_hours in Hexp.
    destruct (_ && _); [|discriminate]. injection Hexp as <-.
    unfold usec_per_hour, usec_per_second. lia. }
  assert ((age >? expiry) = false) as Hfresh by (apply not_gtb; lia).
  split; [exact Hfresh|]. split; [|apply found_iff].
  rewrite (get_on_file self now key fs text Hfile).
  rewrite (check_entry_record self now text stamp pairs cached_time age expiry)
    by assumption.
  rewrite Hfresh. simpl. now rewrite Hdata.
Qed.

Lemma future_timestamp_is_fresh_witness :
  let fs1 := <[k_path := File one_pm_entry]> example_fs in
  (- usec_per_hour >? 6 * usec_per_hour) = false
  /\ GitHubStatsCache.get example_store noon "k" fs1 = (Ok (VInt 7), fs1)
  /\ (found (VInt 7) = true <-> VInt 7 <> VNone).
Proof.
  apply (future_timestamp_is_fresh example_store noon "k"
           (<[k_path := File one_pm_entry]> example_fs)
           one_pm_entry "2024-01-02T13:00:00"
           [("timestamp", VStr "2024-01-02T13:00:00"); ("data", VInt 7)]
           (Datetime 2024 1 2 13 0 0 0 None));
    closed_goal.
Defined.

(** C10 as stated fails in two ways: the data of a fresh entry may be
    [None], which the caller sees as a miss; and with a negative expiry
    duration an entry from the future is expired and deleted. *)
Lemma future_timestamp_counterexamples :
  let fs1 := <[k_path := File (entry_text three_pm VNone)]> example_fs in
  let fs2 := <[k_path := File one_pm_entry]> example_fs in
  let hasty := GitHubStatsCache.Build ["cache"] (-5) in
  (datetime_sub noon three_pm = Ok (- (3 * usec_per_hour))
   /\ GitHubStatsCache.get example_store noon "k" fs1 = (Ok VNone, fs1)
   /\ found VNone = false)
  /\ (datetime_sub noon (Datetime 2024 1 2 13 0 0 0 None)
      = Ok (- usec_per_hour)
      /\ timedelta_hours (GitHubStatsCache.expiry_hours hasty)
         = Ok (- (5 * usec_per_hour))
      /\ GitHubStatsCache.get hasty noon "k" fs2 = (Ok VNone, example_fs)).
Proof. repeat split; by_computation. Qed.

(** C3: entry files that hold valid JSON which is no record, or a record
    whose timestamp is no string.  The subscript or [fromisoformat] raises
    [TypeError], which the [except] clause does not list: the error
    leaves [get] and the file stays. *)
Theorem get_raises_TypeError_on_non_record :
  let fs_list := <[k_path := File list_entry]> example_fs in
  let fs_string := <[k_path := File string_entry]> example_fs in
  let fs_number := <[k_path := File number_stamp_entry]> example_fs in
  (json_loads list_entry = Ok (VList [])
   /\ GitHubStatsCache.get example_store noon "k" fs_list
      = (Raise TypeError, fs_list))
  /\ (json_loads string_entry = Ok (VStr "abc")
      /\ GitHubStatsCache.get example_store noon "k" fs_string
         = (Raise TypeError, fs_string))
  /\ (json_loads number_stamp_entry
      = Ok (VDict [("timestamp", VInt 5); ("data", VInt 7)])
      /\ GitHubStatsCache.get example_store noon "k" fs_number
         = (Raise TypeError, fs_number)).
Proof. repeat split; by_computation. Qed.

(** C4, as amended.  When [get] decides to delete an entry file and the
    directory does not let the process delete, the [PermissionError] of
    [os.remove] leaves [get] and the file stays; the handler of the
    [except] clause skips the delete, and returns [None], when the file
    is already gone. *)
Theorem delete_failure_leaves_get (self : GitHubStatsCache.t) (now : datetime)
  (key : string) (fs : filesystem) (text : string) :
  let cache_path := GitHubStatsCache._get_cache_path self key in
  fs !! cache_path = Some (File text) ->
  fs !! GitHubStatsCache.cache_dir self = Some (Dir false) ->
  triggers_delete self now text = true ->
  GitHubStatsCache.get self now key fs = (Raise PermissionError, fs)
  /\ (forall fs' : filesystem,
        fs' !! cache_path = None ->
        GitHubStatsCache.remove_invalid cache_path fs' = (Ok VNone, fs')).
Proof.
  intros cache_path Hfile Hdir Hdel. split.
  - exact (get_delete_fails self now key fs text Hfile Hdir Hdel).
  - intros fs' Hgone. exact (remove_invalid_missing cache_path fs' Hgone).
Qed.

Lemma delete_failure_leaves_get_witness :
  let fs1 := <[k_path := File (entry_text noon (VInt 7))]> readonly_fs in
  GitHubStatsCache.get example_store seven_pm "k" fs1
  = (Raise PermissionError, fs1)
  /\ (forall fs' : filesystem,
        fs' !! k_path = None ->
        GitHubStatsCache.remove_invalid k_path fs' = (Ok VNone, fs')).
Proof.
  apply (delete_failure_leaves_get example_store seven_pm "k"
           (<[k_path := File (entry_text noon (VInt 7))]> readonly_fs)
           (entry_text noon (VInt 7)));
    closed_goal.
Defined.

(** C4 as stated fails: in a directory that does not let the process
    delete, [get] on an expired entry and [get] on a malformed entry raise
    [PermissionError] instead of returning [None]. *)
Lemma delete_failure_counterexample :
  let fs_expired := <[k_path := File (entry_text noon (VInt 7))]> readonly_fs in
  let fs_corrupt := <[k_path := File "not json"]> readonly_fs in
  (triggers_delete example_store seven_pm (entry_text noon (VInt 7)) = true
   /\ GitHubStatsCache.get example_store seven_pm "k" fs_expired
      = (Raise PermissionError, fs_expired))
  /\ (json_loads "not json" = Raise JSONDecodeError
      /\ GitHubStatsCache.get example_store noon "k" fs_corrupt
         = (Raise PermissionError, fs_corrupt)).
Proof. repeat split; by_computation. Qed.

(** C8.  The digest of a key depends on the key alone (not on the store,
    the clock or the file system), and it is 32 hexadecimal digits. *)
Theorem cache_key_is_stable_hex (self other : GitHubStatsCache.t)
  (key : string) :
  GitHubStatsCache._get_cache_key self key
  = GitHubStatsCache._get_cache_key other key
  /\ String.length (GitHubStatsCache._get_cache_key self key) = 32%nat
  /\ string_forallb is_hex_char (GitHubStatsCache._get_cache_key self key)
     = true.
Proof.
  split; [reflexivity|]. unfold GitHubStatsCache._get_cache_key.
  apply hexdigest_spec.
Qed.

(** C6.  Two keys with different digests have different entry files:
    [set] on both, in either order, gives the same file system, from
    which [get] returns to each key its own value; and the second [set]
    leaves the entry file of the first as it was. *)
Theorem distinct_keys_are_isolated (self : GitHubStatsCache.t)
  (t1 t2 n1 n2 : datetime) (k1 k2 : string) (v1 v2 : value) (expiry : Z)
  (fs : filesystem) :
  let p1 := GitHubStatsCache._get_cache_path self k1 in
  let p2 := GitHubStatsCache._get_cache_path self k2 in
  let fs1 := <[p1 := File (entry_text t1 v1)]> fs in
  let fs2 := <[p2 := File (entry_text t2 v2)]> fs in
  let both := <[p2 := File (entry_text t2 v2)]> fs1 in
  GitHubStatsCache._get_cache_key self k1
  <> GitHubStatsCache._get_cache_key self k2 ->
  fs !! GitHubStatsCache.cache_dir self = Some (Dir true) ->
  (forall w, fs !! p1 <> Some (Dir w)) ->
  (forall w, fs !! p2 <> Some (Dir w)) ->
  clock_reading t1 = true /\ clock_reading t2 = true
  /\ clock_reading n1 = true /\ clock_reading n2 = true ->
  well_formed v1 = true /\ well_formed v2 = true ->
  timedelta_hours (GitHubStatsCache.expiry_hours self) = Ok expiry ->
  wall_usec n1 - wall_usec t1 <= expiry ->
  wall_usec n2 - wall_usec t2 <= expiry ->
  (GitHubStatsCache.set self t1 k1 v1 fs = (Ok tt, fs1)
   /\ GitHubStatsCache.set self t2 k2 v2 fs1 = (Ok tt, both))
  /\ (GitHubStatsCache.set self t2 k2 v2 fs = (Ok tt, fs2)
      /\ GitHubStatsCache.set self t1 k1 v1 fs2 = (Ok tt, both))
  /\ GitHubStatsCache.get self n1 k1 both = (Ok v1, both)
  /\ GitHubStatsCache.get self n2 k2 both = (Ok v2, both)
  /\ both !! p1 = fs1 !! p1
  /\ both !! p2 = fs2 !! p2.
Proof.
  intros p1 p2 fs1 fs2 both Hkeys Hdir Hp1 Hp2 (Ht1 & Ht2 & Hn1 & Hn2)
    [Hv1 Hv2] Hexp Hage1 Hage2.
  assert (p1 <> p2) as Hne.
  { intros Heq. apply Hkeys. exact (cache_path_inj self k1 k2 Heq). }
  assert (<[p1 := File (entry_text t1 v1)]> fs2 = both) as Hcommute.
  { unfold both, fs1, fs2. apply insert_insert_ne. exact Hne. }
  repeat split.
  - apply set_succeeds; assumption.
  - apply set_succeeds.
    + unfold fs1. rewrite lookup_insert_ne by apply cache_path_ne_dir.
      exact Hdir.
    + intros w. unfold fs1. fold p2. rewrite lookup_insert_ne by exact Hne.
      apply Hp2.
  - apply set_succeeds; assumption.
  - rewrite <- Hcommute. apply set_succeeds.
    + unfold fs2. rewrite lookup_insert_ne by apply cache_path_ne_dir.
      exact Hdir.
    + intros w. unfold fs2. fold p1.
      rewrite lookup_insert_ne by (intros Heq; apply Hne; now symmetry).
      apply Hp1.
  - apply (get_written self t1 n1 k1 v1 expiry); try assumption.
    fold p1. unfold both, fs1.
    rewrite lookup_insert_ne by (intros Heq; apply Hne; now symmetry).
    apply lookup_insert_eq.
  - apply (get_written self t2 n2 k2 v2 expiry); try assumption.
    fold p2. unfold both. apply lookup_insert_eq.
  - unfold both.
    now rewrite lookup_insert_ne by (intros Heq; apply Hne; now symmetry).
  - unfold both, fs2. now rewrite !lookup_insert_eq.
Qed.

Lemma distinct_keys_are_isolated_witness :
  let fs1 := <[k_path := File (entry_text noon (VInt 7))]> example_fs in
  let fs2 := <[j_path := File (entry_text three_pm (VStr "x"))]> example_fs in
  let both := <[j_path := File (entry_text three_pm (VStr "x"))]> fs1 in
  (GitHubStatsCache.set example_store noon "k" (VInt 7) example_fs
   = (Ok tt, fs1)
   /\ GitHubStatsCache.set example_store three_pm "j" (VStr "x") fs1
      = (Ok tt, both))
  /\ (GitHubStatsCache.set example_store three_pm "j" (VStr "x") example_fs
      = (Ok tt, fs2)
      /\ GitHubStatsCache.set example_store noon "k" (VInt 7) fs2
         = (Ok tt, both))
  /\ GitHubStatsCache.get example_store three_pm "k" both = (Ok (VInt 7), both)
  /\ GitHubStatsCache.get example_store three_pm "j" both
     = (Ok (VStr "x"), both)
  /\ both !! k_path = fs1 !! k_path
  /\ both !! j_path = fs2 !! j_path.
Proof.
  apply (distinct_keys_are_isolated example_store noon three_pm three_pm
           three_pm "k" "j" (VInt 7) (VStr "x") (6 * usec_per_hour) example_fs);
    first [ closed_goal
          | intros w; vm_compute; congruence
          | repeat split; closed_goal ].
Defined.

(** * Directory listings *)

Lemma child_name_Some (d p : list string) (name : string) :
  child_name d p = Some name <-> p = (d ++ [name])%list.
Proof.
  unfold child_name. split.
  - destruct (last p) as [n|]; simpl; [|discriminate].
    case_bool_decide; [|discriminate]. now intros [= <-].
  - intros ->. rewrite last_snoc. simpl.
    now rewrite bool_decide_eq_true_2 by reflexivity.
Qed.

Lemma child_name_dir (d : list string) : child_name d d = None.
Proof.
  destruct (child_name d d) as [name|] eqn:E; [|reflexivity].
  apply child_name_Some in E. apply (f_equal length) in E.
  rewrite length_app in E. simpl in E. lia.
Qed.

Lemma NoDup_omap_inj {A B : Type} (f : A -> option B) (l : list A) :
  (forall x y b, x ∈ l -> y ∈ l -> f x = Some b -> f y = Some b -> x = y) ->
  NoDup l -> NoDup (omap f l).
Proof.
  intros Hinj Hl. induction Hl as [|x l Hx Hl IH]; [constructor|].
  simpl. assert (NoDup (omap f l)) as Hrest.
  { apply IH. intros a b c Ha Hb. apply Hinj; now right. }
  destruct (f x) as [y|] eqn:E; [|exact Hrest].
  constructor; [|exact Hrest]. intros Hy.
  apply list_elem_of_omap in Hy as (x' & Hx' & E').
  assert (x = x') as <- by (eapply Hinj; eauto; [now left | now right]).
  contradiction.
Qed.

Lemma listdir_spec (d : list string) (fs fs' : filesystem)
  (names : list string) :
  os_listdir d fs = (Ok names, fs') ->
  fs' = fs /\ NoDup names
  /\ forall name, name ∈ names <-> is_Some (fs !! (d ++ [name])%list).
Proof.
  unfold os_listdir. destruct (fs !! d) as [[w|text]|]; intros [= <- <-].
  split; [reflexivity|]. split.
  - apply NoDup_omap_inj; [|apply NoDup_map_to_list].
    intros [p n] [q m] name Hp Hq Ep Eq. cbn [fst] in Ep, Eq.
    apply child_name_Some in Ep, Eq. subst q.
    apply elem_of_map_to_list in Hp, Hq. congruence.
  - intros name. rewrite list_elem_of_omap. split.
    + intros ([p n] & Hp & Ep). cbn [fst] in Ep.
      apply child_name_Some in Ep as ->.
      apply elem_of_map_to_list in Hp. eauto.
    + intros [n Hn]. exists ((d ++ [name])%list, n). split.
      * now apply elem_of_map_to_list.
      * now apply child_name_Some.
Qed.

Lemma listing_has_no_duplicates (self : GitHubStatsCache.t) (fs : filesystem) :
  one_file_per_key self fs.
Proof.
  intros names key Hlist. apply listdir_spec in Hlist as (_ & Hnodup & _).
  apply NoDup_ListNoDup in Hnodup.
  now apply (proj1 (NoDup_count_occ string_dec names)).
Qed.

(** C7.  [set] writes one path, the one the digest of the key names, and
    what it writes replaces the file whatever it held; afterwards the
    cache directory lists the entry file of the key exactly once.  No
    state has two entry files for a key, so every operation keeps that
    invariant. *)
Theorem set_keeps_one_file_per_key (self : GitHubStatsCache.t)
  (now : datetime) (key : string) (data : value) (fs fs' : filesystem) :
  GitHubStatsCache.set self now key data fs = (Ok tt, fs') ->
  fs' = <[GitHubStatsCache._get_cache_path self key
          := File (entry_text now data)]> fs
  /\ (forall names,
        os_listdir (GitHubStatsCache.cache_dir self) fs' = (Ok names, fs') ->
        count_occ string_dec names (entry_name self key) = 1%nat)
  /\ one_file_per_key self fs'
  /\ (forall (later : datetime) (other : string) (v : value),
        one_file_per_key self
          (snd (GitHubStatsCache.set self later other v fs'))
        /\ one_file_per_key self (snd (GitHubStatsCache.get self later other fs'))
        /\ one_file_per_key self (snd (GitHubStatsCache.clear self fs'))).
Proof.
  intros Hset. apply set_writes in Hset. split; [exact Hset|].
  split; [|split; [apply listing_has_no_duplicates|]].
  - intros names Hlist. pose proof (listing_has_no_duplicates self fs' names key Hlist) as Hle.
    apply listdir_spec in Hlist as (_ & _ & Hmem).
    assert (In (entry_name self key) names) as Hin.
    { apply list_elem_of_In, Hmem. subst fs'.
      change (GitHubStatsCache.cache_dir self ++ [entry_name self key])%list
        with (GitHubStatsCache._get_cache_path self key).
      rewrite lookup_insert_eq. eauto. }
    apply (count_occ_In string_dec) in Hin. lia.
  - intros later other v. repeat split; apply listing_has_no_duplicates.
Qed.

Lemma set_keeps_one_file_per_key_witness :
  let fs0 := <[k_path := File "stale text"]> example_fs in
  let fs1 := <[k_path := File (entry_text noon (VInt 7))]> fs0 in
  fs1 = <[k_path := File (entry_text noon (VInt 7))]> fs0
  /\ (forall names,
        os_listdir ["cache"] fs1 = (Ok names, fs1) ->
        count_occ string_dec names (entry_name example_store "k") = 1%nat)
  /\ one_file_per_key example_store fs1
  /\ (forall (later : datetime) (other : string) (v : value),
        one_file_per_key example_store
          (snd (GitHubStatsCache.set example_store later other v fs1))
        /\ one_file_per_key example_store
             (snd (GitHubStatsCache.get example_store later other fs1))
        /\ one_file_per_key example_store
             (snd (GitHubStatsCache.clear example_store fs1))).
Proof.
  apply (set_keeps_one_file_per_key example_store noon "k" (VInt 7)
           (<[k_path := File "stale text"]> example_fs)).
  by_computation.
Defined.

Example listdir_example :
  os_listdir ["cache"]
    (<[k_path := File (entry_text noon (VInt 7))]>
       (<[k_path := File "stale text"]> example_fs))
  = (Ok ["8ce4b16b22b58894aa86c421e8759df3.json"],
     <[k_path := File (entry_text noon (VInt 7))]> example_fs).
Proof. by_computation. Qed.

(** * clear *)

Lemma for_each_remove (d : list string) (names : list string) :
  forall fs : filesystem,
    NoDup names ->
    fs !! d = Some (Dir true) ->
    (forall name, name ∈ names -> endswith name ".json" = true ->
                  exists text, fs !! os_path_join d name = Some (File text)) ->
    for_each names
      (fun filename =>
         if endswith filename ".json"
         then os_remove (os_path_join d filename)
         else ret tt) fs
    = (Ok tt, fold_left (remove_json d) names fs).
Proof.
  induction names as [|name names IH]; intros fs Hnodup Hdir Hfiles;
    [reflexivity|].
  apply NoDup_cons in Hnodup as [Hfresh Hnodup].
  cbn [for_each fold_left]. unfold bind at 1, remove_json at 2.
  destruct (endswith name ".json") eqn:Hjson.
  - destruct (Hfiles name ltac:(left) Hjson) as [text Hfile].
    rewrite (os_remove_file _ fs text Hfile)
      by (rewrite parent_join; exact Hdir).
    apply IH; [exact Hnodup | |].
    + rewrite lookup_delete_ne by apply join_ne_dir. exact Hdir.
    + intros other Hother Hjson'.
      rewrite lookup_delete_ne.
      * apply Hfiles; [now right | exact Hjson'].
      * intros Heq. apply join_inj in Heq. subst other. contradiction.
  - unfold ret at 1. apply IH; [exact Hnodup | exact Hdir |].
    intros other Hother. apply Hfiles. now right.
Qed.

Lemma fold_remove_none (d : list string) (names : list string) (p : list string) :
  forall fs : filesystem,
    fs !! p = None -> fold_left (remove_json d) names fs !! p = None.
Proof.
  induction names as [|name names IH]; intros fs Hp; [exact Hp|].
  cbn [fold_left]. apply IH. unfold remove_json.
  destruct (endswith name ".json"); [|exact Hp].
  apply lookup_delete_None. now right.
Qed.

Lemma fold_remove_deleted (d : list string) (names : list string)
  (name : string) :
  forall fs : filesystem,
    name ∈ names -> endswith name ".json" = true ->
    fold_left (remove_json d) names fs !! os_path_join d name = None.
Proof.
  induction names as [|first names IH]; intros fs Hin Hjson.
  - now apply elem_of_nil in Hin.
  - cbn [fold_left]. apply elem_of_cons in Hin as [<-|Hin].
    + apply fold_remove_none. unfold remove_json. rewrite Hjson.
      apply lookup_delete_eq.
    + now apply IH.
Qed.

Lemma fold_remove_other (d : list string) (names : list string)
  (p : list string) :
  forall fs : filesystem,
    (forall name, name ∈ names -> endswith name ".json" = true ->
                  p <> os_path_join d name) ->
    fold_left (remove_json d) names fs !! p = fs !! p.
Proof.
  induction names as [|first names IH]; intros fs Hne; [reflexivity|].
  cbn [fold_left]. rewrite IH.
  - unfold remove_json. destruct (endswith first ".json") eqn:Hjson;
      [|reflexivity].
    apply lookup_delete_ne. intros Heq.
    exact (Hne first ltac:(left) Hjson (eq_sym Heq)).
  - intros name Hname. apply Hne. now right.
Qed.

Lemma after_clear_lookup (self : GitHubStatsCache.t) (fs : filesystem)
  (p : list string) :
  after_clear self fs !! p = if cleared self p then None else fs !! p.
Proof.
  unfold after_clear. rewrite map_lookup_filter.
  destruct (fs !! p) as [n|]; simpl; [|now destruct (cleared self p)].
  destruct (cleared self p); reflexivity.
Qed.

Lemma clear_result (self : GitHubStatsCache.t) (fs : filesystem) :
  let d := GitHubStatsCache.cache_dir self in
  fs !! d = Some (Dir true) ->
  (forall name w, endswith name ".json" = true ->
                  fs !! os_path_join d name <> Some (Dir w)) ->
  GitHubStatsCache.clear self fs = (Ok tt, after_clear self fs).
Proof.
  intros d Hdir Hnodirs. unfold GitHubStatsCache.clear, bind. fold d.
  destruct (os_listdir d fs) as [[names|e] fs'] eqn:Hlist.
  2:{ unfold os_listdir in Hlist. rewrite Hdir in Hlist. discriminate. }
  apply listdir_spec in Hlist as (-> & Hnodup & Hmem).
  rewrite for_each_remove; [|exact Hnodup | exact Hdir |].
  - f_equal. apply map_eq. intros p. rewrite after_clear_lookup.
    unfold cleared. fold d.
    destruct (child_name d p) as [name|] eqn:Hchild.
    + apply child_name_Some in Hchild as ->.
      destruct (endswith name ".json") eqn:Hjson.
      * destruct (fs !! (d ++ [name])%list) as [n|] eqn:Hp.
        -- apply fold_remove_deleted; [|exact Hjson]. apply Hmem. eauto.
        -- now apply fold_remove_none.
      * apply fold_remove_other. intros other _ Hjson' Heq.
        apply join_inj in Heq. congruence.
    + apply fold_remove_other. intros other _ _ ->.
      unfold os_path_join in Hchild.
      now rewrite (proj2 (child_name_Some d _ other) eq_refl) in Hchild.
  - intros name Hname Hjson. apply Hmem in Hname as [[w|text] Hp].
    + exfalso. exact (Hnodirs name w Hjson Hp).
    + eauto.
Qed.

(** C5, as amended.  In a cache directory the process may modify and that
    holds no directory named [*.json], [clear] succeeds and removes
    exactly the entries of the cache directory whose names end in
    [.json], whatever comes before that ending: every other path keeps
    what it held, the cache directory itself stays, and so do entries
    with other names. *)
Theorem clear_removes_json_entries (self : GitHubStatsCache.t)
  (fs : filesystem) :
  let d := GitHubStatsCache.cache_dir self in
  fs !! d = Some (Dir true) ->
  (forall name w, endswith name ".json" = true ->
                  fs !! os_path_join d name <> Some (Dir w)) ->
  GitHubStatsCache.clear self fs = (Ok tt, after_clear self fs)
  /\ (forall p, after_clear self fs !! p
                = if cleared self p then None else fs !! p)
  /\ after_clear self fs !! d = Some (Dir true)
  /\ (forall name, endswith name ".json" = false ->
                   after_clear self fs !! os_path_join d name
                   = fs !! os_path_join d name)
  /\ (forall name, endswith name ".json" = true ->
                   after_clear self fs !! os_path_join d name = None).
Proof.
  intros d Hdir Hnodirs.
  split; [exact (clear_result self fs Hdir Hnodirs)|].
  split; [apply after_clear_lookup|]. repeat split.
  - rewrite after_clear_lookup. unfold cleared. fold d.
    now rewrite child_name_dir.
  - intros name Hjson. rewrite after_clear_lookup. unfold cleared. fold d.
    unfold os_path_join.
    now rewrite (proj2 (child_name_Some d _ name) eq_refl), Hjson.
  - intros name Hjson. rewrite after_clear_lookup. unfold cleared. fold d.
    unfold os_path_join.
    now rewrite (proj2 (child_name_Some d _ name) eq_refl), Hjson.
Qed.

Lemma mixed_fs_nodes (p : list string) (w : bool) :
  mixed_fs !! p = Some (Dir w) -> p = [] \/ p = ["cache"].
Proof.
  unfold mixed_fs, example_fs. intros H.
  repeat (apply lookup_insert_Some in H as [[_ H]|[_ H]]; [discriminate|]).
  apply lookup_insert_Some in H as [[<- _]|[_ H]]; [now left|].
  apply lookup_singleton_Some in H as [<- _]. now right.
Qed.

Lemma clear_removes_json_entries_witness :
  GitHubStatsCache.clear example_store mixed_fs
  = (Ok tt, after_clear example_store mixed_fs)
  /\ (forall p, after_clear example_store mixed_fs !! p
                = if cleared example_store p then None else mixed_fs !! p)
  /\ after_clear example_store mixed_fs !! ["cache"] = Some (Dir true)
  /\ (forall name, endswith name ".json" = false ->
                   after_clear example_store mixed_fs !! os_path_join ["cache"] name
                   = mixed_fs !! os_path_join ["cache"] name)
  /\ (forall name, endswith name ".json" = true ->
                   after_clear example_store mixed_fs !! os_path_join ["cache"] name
                   = None).
Proof.
  apply (clear_removes_json_entries example_store mixed_fs).
  - by_computation.
  - intros name w _ H. apply mixed_fs_nodes in H as [H|H]; discriminate H.
Defined.

(** C5 as stated fails: [notes.json] is no entry name (its stem is no
    digest), and [clear] removes it with the entry file; a file named
    [notes.txt] stays.  [clear] on an empty cache directory changes
    nothing; on a directory named [old.json] it raises. *)
Lemma clear_removes_unrelated_json_file :
  let fs_subdir := <[["cache"; "old.json"] := Dir true]> example_fs in
  is_entry_name "notes.json" = false
  /\ is_entry_name "8ce4b16b22b58894aa86c421e8759df3.json" = true
  /\ GitHubStatsCache.clear example_store mixed_fs
     = (Ok tt, <[["cache"; "notes.txt"] := File "keep"]> example_fs)
  /\ GitHubStatsCache.clear example_store example_fs = (Ok tt, example_fs)
  /\ GitHubStatsCache.clear example_store fs_subdir
     = (Raise IsADirectoryError, fs_subdir).
Proof. repeat split; by_computation. Qed.

(** * Construction *)

Lemma parent_take (p : list string) : parent p = take (pred (length p)) p.
Proof. apply removelast_firstn_len. Qed.

Lemma prefix_of_parent (q p : list string) :
  q `prefix_of` p -> q <> p -> q `prefix_of` parent p.
Proof.
  intros [r ->] Hne. unfold parent.
  induction r as [|x r _] using rev_ind.
  - now rewrite app_nil_r in Hne.
  - rewrite app_assoc, removelast_last. now exists r.
Qed.

Lemma created_self (p : list string) (k : nat) :
  (k < length p)%nat -> created p k p = true.
Proof. intros Hk. unfold created. now apply bool_decide_eq_true_2. Qed.

Lemma created_parent (p q : list string) (k : nat) :
  q <> p -> created p k q = created (parent p) k q.
Proof.
  intros Hne. unfold created. apply bool_decide_ext. split.
  - intros [Hpre Hlen]. split; [|exact Hlen]. now apply prefix_of_parent.
  - intros [Hpre Hlen]. split; [|exact Hlen].
    etransitivity; [exact Hpre|]. rewrite parent_take. apply prefix_take.
Qed.

Lemma created_short (p q : list string) (k : nat) :
  (length p <= k)%nat -> created p k q = false.
Proof.
  intros Hlen. unfold created. apply bool_decide_eq_false_2.
  intros [Hpre Hk]. apply prefix_length in Hpre. lia.
Qed.

Lemma created_longer (p q : list string) (k : nat) :
  (length p < length q)%nat -> created p k q = false.
Proof.
  intros Hlen. unfold created. apply bool_decide_eq_false_2.
  intros [Hpre _]. apply prefix_length in Hpre. lia.
Qed.

Lemma os_mkdir_new (p : list string) (fs : filesystem) :
  fs !! p = None -> fs !! parent p = Some (Dir true) ->
  os_mkdir p fs = (Ok tt, <[p := Dir true]> fs).
Proof.
  intros Hp Hparent. unfold os_mkdir, may_modify_parent.
  now rewrite Hp, Hparent.
Qed.

Lemma makedirs_creates (n : nat) :
  forall (p : list string) (k fuel : nat) (fs : filesystem),
    length p = (k + S n)%nat -> (n <= fuel)%nat ->
    fs !! take k p = Some (Dir true) ->
    (forall j, (k < j <= length p)%nat -> fs !! take j p = None) ->
    exists fs' : filesystem,
      makedirs fuel p fs = (Ok tt, fs')
      /\ forall q, fs' !! q
                   = if created p k q then Some (Dir true) else fs !! q.
Proof.
  induction n as [|n IH]; intros p k fuel fs Hlen Hfuel Hk Hmissing.
  - assert (parent p = take k p) as Hparent.
    { rewrite parent_take. f_equal. lia. }
    assert (fs !! p = None) as Hp.
    { rewrite <- (firstn_all p). apply Hmissing. lia. }
    exists (<[p := Dir true]> fs). split.
    + destruct fuel as [|fuel]; cbn [makedirs].
      * apply os_mkdir_new; [exact Hp | now rewrite Hparent].
      * unfold bind at 1, os_path_exists. rewrite Hparent, Hk.
        rewrite andb_false_r. unfold bind, ret.
        apply os_mkdir_new; [exact Hp | now rewrite Hparent].
    + intros q. destruct (decide (q = p)) as [->|Hne].
      * rewrite lookup_insert_eq, created_self by lia. reflexivity.
      * rewrite lookup_insert_ne by congruence.
        rewrite (created_parent p q k Hne), created_short; [reflexivity|].
        rewrite Hparent, length_take. lia.
  - destruct fuel as [|fuel]; [lia|].
    assert (parent p = take (k + S n) p) as Hparent.
    { rewrite parent_take. f_equal. lia. }
    assert (length (parent p) = (k + S n)%nat) as Hparent_len.
    { rewrite Hparent, length_take. lia. }
    assert (fs !! p = None) as Hp.
    { rewrite <- (firstn_all p). apply Hmissing. lia. }
    destruct (IH (parent p) k fuel fs) as (fs1 & Hmake & Hfs1);
      [exact Hparent_len | lia | | |].
    { rewrite Hparent, take_take. replace (k `min` (k + S n))%nat with k by lia.
      exact Hk. }
    { intros j Hj. rewrite Hparent, take_take.
      replace (j `min` (k + S n))%nat with j by lia.
      apply Hmissing. lia. }
    exists (<[p := Dir true]> fs1). split.
    + cbn [makedirs]. unfold bind at 1, os_path_exists.
      assert (fs !! parent p = None) as Hhead.
      { rewrite Hparent. apply Hmissing. lia. }
      rewrite Hhead.
      assert (bool_decide (parent p <> []) = true) as ->.
      { apply bool_decide_eq_true_2. intros Hnil.
        rewrite Hnil in Hparent_len. simpl in Hparent_len. lia. }
      simpl. unfold bind at 1, try_except. rewrite Hmake.
      apply os_mkdir_new.
      * rewrite Hfs1, created_longer by lia. exact Hp.
      * rewrite Hfs1, created_self by lia. reflexivity.
    + intros q. destruct (decide (q = p)) as [->|Hne].
      * rewrite lookup_insert_eq, created_self by lia. reflexivity.
      * rewrite lookup_insert_ne by congruence.
        rewrite Hfs1, (created_parent p q k Hne). reflexivity.
Qed.

Lemma init_on_existing (d : list string) (h : Z) (fs : filesystem) :
  is_Some (fs !! d) ->
  GitHubStatsCache.__init__ d h fs = (Ok (GitHubStatsCache.Build d h), fs).
Proof.
  intros Hd. unfold GitHubStatsCache.__init__, bind, os_path_exists, ret.
  now rewrite bool_decide_eq_true_2 by exact Hd.
Qed.

(** C9.  When the path of the cache directory is missing below an
    existing directory that the process may modify, construction makes
    the cache directory and every missing directory above it, and
    changes nothing else; on a path that exists construction changes
    nothing, so a second construction is a no-op. *)
Theorem init_ensures_directory (d : list string) (h : Z) (fs : filesystem)
  (k : nat) :
  (k < length d)%nat ->
  fs !! take k d = Some (Dir true) ->
  (forall j, (k < j <= length d)%nat -> fs !! take j d = None) ->
  exists fs' : filesystem,
    GitHubStatsCache.__init__ d h fs = (Ok (GitHubStatsCache.Build d h), fs')
    /\ (forall q, fs' !! q
                  = if created d k q then Some (Dir true) else fs !! q)
    /\ (forall j, (k < j <= length d)%nat -> fs' !! take j d = Some (Dir true))
    /\ fs' !! d = Some (Dir true)
    /\ GitHubStatsCache.__init__ d h fs'
       = (Ok (GitHubStatsCache.Build d h), fs')
    /\ (forall fs0 : filesystem,
          is_Some (fs0 !! d) ->
          GitHubStatsCache.__init__ d h fs0
          = (Ok (GitHubStatsCache.Build d h), fs0)).
Proof.
  intros Hk Hbase Hmissing.
  destruct (makedirs_creates (length d - k - 1) d k (length d) fs)
    as (fs' & Hmake & Hfs'); [lia | lia | exact Hbase | exact Hmissing |].
  assert (fs' !! d = Some (Dir true)) as Hd.
  { rewrite Hfs', created_self by exact Hk. reflexivity. }
  exists fs'. repeat split.
  - unfold GitHubStatsCache.__init__, bind, os_path_exists, ret.
    assert (fs !! d = None) as Hnone.
    { rewrite <- (firstn_all d). apply Hmissing. lia. }
    rewrite Hnone. simpl. unfold os_makedirs. now rewrite Hmake.
  - exact Hfs'.
  - intros j Hj. rewrite Hfs'. unfold created.
    rewrite bool_decide_eq_true_2; [reflexivity|].
    split; [apply prefix_take | rewrite length_take; lia].
  - exact Hd.
  - apply init_on_existing. rewrite Hd. eauto.
  - intros fs0. apply init_on_existing.
Qed.

Lemma init_ensures_directory_witness :
  exists fs' : filesystem,
    GitHubStatsCache.__init__ ["var"; "cache"; "stats"] 6 var_fs
    = (Ok (GitHubStatsCache.Build ["var"; "cache"; "stats"] 6), fs')
    /\ (forall q, fs' !! q
                  = if created ["var"; "cache"; "stats"] 1 q
                    then Some (Dir true) else var_fs !! q)
    /\ (forall j, (1 < j <= 3)%nat ->
                  fs' !! take j ["var"; "cache"; "stats"] = Some (Dir true))
    /\ fs' !! ["var"; "cache"; "stats"] = Some (Dir true)
    /\ GitHubStatsCache.__init__ ["var"; "cache"; "stats"] 6 fs'
       = (Ok (GitHubStatsCache.Build ["var"; "cache"; "stats"] 6), fs')
    /\ (forall fs0 : filesystem,
          is_Some (fs0 !! ["var"; "cache"; "stats"]) ->
          GitHubStatsCache.__init__ ["var"; "cache"; "stats"] 6 fs0
          = (Ok (GitHubStatsCache.Build ["var"; "cache"; "stats"] 6), fs0)).
Proof.
  apply (init_ensures_directory ["var"; "cache"; "stats"] 6 var_fs 1).
  - simpl. lia.
  - by_computation.
  - intros j Hj. simpl in Hj.
    assert (j = 2 \/ j = 3)%nat as [-> | ->] by lia; by_computation.
Defined.

Example init_example :
  GitHubStatsCache.__init__ ["var"; "cache"; "stats"] 6 var_fs
  = (Ok (GitHubStatsCache.Build ["var"; "cache"; "stats"] 6),
     <[["var"; "cache"; "stats"] := Dir true]>
       (<[["var"; "cache"] := Dir true]> var_fs))
  /\ GitHubStatsCache.__init__ ["cache"; "stats"] 6 readonly_fs
     = (Raise PermissionError, readonly_fs)
  /\ GitHubStatsCache.__init__ k_path 6
       (<[k_path := File "a file"]> example_fs)
     = (Ok (GitHubStatsCache.Build k_path 6),
        <[k_path := File "a file"]> example_fs).
Proof. repeat split; by_computation. Qed.

(** * Further properties of the code *)

(** X1.  A key with no entry file: [get] returns [None], which the caller
    sees as a miss, and changes nothing. *)
Theorem get_of_unset_key (self : GitHubStatsCache.t) (now : datetime)
  (key : string) (fs : filesystem) :
  fs !! GitHubStatsCache._get_cache_path self key = None ->
  GitHubStatsCache.get self now key fs = (Ok VNone, fs)
  /\ found VNone = false.
Proof. intros Hfile. split; [now apply get_missing | reflexivity]. Qed.

Lemma get_of_unset_key_witness :
  GitHubStatsCache.get example_store noon "k" example_fs = (Ok VNone, example_fs)
  /\ found VNone = false.
Proof.
  apply (get_of_unset_key example_store noon "k" example_fs). by_computation.
Defined.

(** X2.  Self-healing: an entry file whose text is no JSON, or is a
    record without a timestamp, or with a timestamp [fromisoformat]
    rejects, or a fresh record without data, is deleted by [get], which
    returns [None], in a directory that lets the process delete. *)
Theorem invalid_entry_is_removed (self : GitHubStatsCache.t) (now : datetime)
  (key : string) (fs : filesystem) (text : string) :
  let cache_path := GitHubStatsCache._get_cache_path self key in
  fs !! cache_path = Some (File text) ->
  fs !! GitHubStatsCache.cache_dir self = Some (Dir true) ->
  json_loads text = Raise JSONDecodeError
  \/ (exists pairs, json_loads text = Ok (VDict pairs)
                    /\ dict_get pairs "timestamp" = None)
  \/ (exists pairs stamp, json_loads text = Ok (VDict pairs)
                          /\ dict_get pairs "timestamp" = Some (VStr stamp)
                          /\ fromisoformat stamp = Raise ValueError)
  \/ (exists pairs, check_entry self now text = Ok (VDict pairs, false)
                    /\ dict_get pairs "data" = None) ->
  GitHubStatsCache.get self now key fs = (Ok VNone, delete cache_path fs)
  /\ delete cache_path fs !! cache_path = None.
Proof.
  intros cache_path Hfile Hdir Hbad. split; [|apply lookup_delete_eq].
  apply (get_deletes self now key fs text Hfile Hdir).
  unfold triggers_delete.
  destruct Hbad as [H | [(pairs & H & Hts) | [(pairs & stamp & H & Hts & Hiso)
                                             | (pairs & H & Hdata)]]].
  - unfold check_entry. now rewrite H.
  - unfold check_entry. rewrite H. simpl. now rewrite Hts.
  - unfold check_entry. rewrite H. simpl. rewrite Hts. simpl. now rewrite Hiso.
  - rewrite H. simpl. now rewrite Hdata.
Qed.

Lemma invalid_entry_is_removed_witness :
  GitHubStatsCache.get example_store noon "k"
    (<[k_path := File "not json"]> example_fs)
  = (Ok VNone, delete k_path (<[k_path := File "not json"]> example_fs))
  /\ delete k_path (<[k_path := File "not json"]> example_fs) !! k_path = None.
Proof.
  apply (invalid_entry_is_removed example_store noon "k"
           (<[k_path := File "not json"]> example_fs) "not json");
    [by_computation | by_computation | left; by_computation].
Defined.

(** X3.  An entry file whose text is valid JSON but no object: the
    subscript [cache_data['timestamp']] raises [TypeError], which leaves
    [get]; the file stays. *)
Theorem non_record_entry_raises_TypeError (self : GitHubStatsCache.t)
  (now : datetime) (key : string) (fs : filesystem) (text : string)
  (v : value) :
  fs !! GitHubStatsCache._get_cache_path self key = Some (File text) ->
  json_loads text = Ok v ->
  (forall pairs, v <> VDict pairs) ->
  GitHubStatsCache.get self now key fs = (Raise TypeError, fs).
Proof.
  intros Hfile Hloads Hv.
  rewrite (get_on_file self now key fs text Hfile).
  unfold check_entry. rewrite Hloads. simpl.
  destruct v; try reflexivity. now destruct (Hv pairs).
Qed.

Lemma non_record_entry_raises_TypeError_witness :
  GitHubStatsCache.get example_store noon "k"
    (<[k_path := File list_entry]> example_fs)
  = (Raise TypeError, <[k_path := File list_entry]> example_fs).
Proof.
  apply (non_record_entry_raises_TypeError example_store noon "k"
           (<[k_path := File list_entry]> example_fs) list_entry (VList []));
    [by_computation | by_computation | discriminate].
Defined.

Lemma endswith_app (a s : string) : endswith (a ++ s) s = true.
Proof.
  induction a as [|x a IH].
  - destruct s; simpl; now rewrite ?Ascii.eqb_refl, ?String.eqb_refl.
  - simpl. rewrite IH. apply orb_true_r.
Qed.

(** X4.  After [clear], [get] finds no key. *)
Theorem clear_then_get (self : GitHubStatsCache.t) (now : datetime)
  (key : string) (fs : filesystem) :
  let d := GitHubStatsCache.cache_dir self in
  fs !! d = Some (Dir true) ->
  (forall name w, endswith name ".json" = true ->
                  fs !! os_path_join d name <> Some (Dir w)) ->
  GitHubStatsCache.clear self fs = (Ok tt, after_clear self fs)
  /\ GitHubStatsCache.get self now key (after_clear self fs)
     = (Ok VNone, after_clear self fs).
Proof.
  intros d Hdir Hnodirs. split; [exact (clear_result self fs Hdir Hnodirs)|].
  apply get_missing. rewrite after_clear_lookup.
  unfold cleared, GitHubStatsCache._get_cache_path, os_path_join.
  rewrite (proj2 (child_name_Some _ _ _) eq_refl).
  now rewrite endswith_app.
Qed.

Lemma clear_then_get_witness :
  GitHubStatsCache.clear example_store mixed_fs
  = (Ok tt, after_clear example_store mixed_fs)
  /\ GitHubStatsCache.get example_store noon "k"
       (after_clear example_store mixed_fs)
     = (Ok VNone, after_clear example_store mixed_fs).
Proof.
  apply (clear_then_get example_store noon "k" mixed_fs).
  - by_computation.
  - intros name w _ H. apply mixed_fs_nodes in H as [H|H]; discriminate H.
Defined.

(** X5.  The expiry test is strict: an entry whose age equals the expiry
    duration is still returned. *)
Theorem entry_at_expiry_age_is_fresh (self : GitHubStatsCache.t)
  (set_time get_time : datetime) (key : string) (v : value) (expiry : Z)
  (fs : filesystem) :
  fs !! GitHubStatsCache._get_cache_path self key
  = Some (File (entry_text set_time v)) ->
  clock_reading set_time = true ->
  clock_reading get_time = true ->
  well_formed v = true ->
  timedelta_hours (GitHubStatsCache.expiry_hours self) = Ok expiry ->
  wall_usec get_time - wall_usec set_time = expiry ->
  GitHubStatsCache.get self get_time key fs = (Ok v, fs).
Proof.
  intros Hfile Hst Hgt Hwf Hexp Hage.
  apply (get_written self set_time get_time key v expiry); try assumption.
  lia.
Qed.

Lemma entry_at_expiry_age_is_fresh_witness :
  GitHubStatsCache.get example_store (Datetime 2024 1 2 18 0 0 0 None) "k"
    (<[k_path := File (entry_text noon (VInt 7))]> example_fs)
  = (Ok (VInt 7), <[k_path := File (entry_text noon (VInt 7))]> example_fs).
Proof.
  apply (entry_at_expiry_age_is_fresh example_store noon
           (Datetime 2024 1 2 18 0 0 0 None) "k" (VInt 7) (6 * usec_per_hour)
           (<[k_path := File (entry_text noon (VInt 7))]> example_fs));
    by_computation.
Defined.

(** ** What [get] may do to the file system *)

Lemma os_remove_effect (p : list string) (fs fs' : filesystem)
  (r : outcome unit) :
  os_remove p fs = (r, fs') ->
  (fs' = fs /\ exists e, r = Raise e)
  \/ (r = Ok tt /\ fs' = delete p fs
      /\ exists text, fs !! p = Some (File text)).
Proof.
  unfold os_remove, may_modify_parent.
  destruct (fs !! p) as [[w|text]|]; destruct (fs !! parent p) as [[[]|old]|];
    intros [= <- <-]; eauto 6.
Qed.

Lemma remove_invalid_effect (p : list string) (fs fs' : filesystem)
  (r : outcome value) :
  GitHubStatsCache.remove_invalid p fs = (r, fs') ->
  fs' = fs
  \/ (r = Ok VNone /\ fs' = delete p fs
      /\ exists text, fs !! p = Some (File text)).
Proof.
  unfold GitHubStatsCache.remove_invalid, bind, os_path_exists, ret.
  destruct (bool_decide (is_Some (fs !! p))).
  - destruct (os_remove p fs) as [[[]|e] fs1] eqn:Hremove; intros [= <- <-];
      apply os_remove_effect in Hremove
        as [[-> _] | (Hr & -> & Hfile)]; try discriminate Hr; eauto 6.
  - intros [= <- <-]. now left.
Qed.

(** Whatever [get] returns, it has left the file system as it was or
    has deleted the entry file of the key, and then it returns [None]. *)
Lemma get_effect (self : GitHubStatsCache.t) (now : datetime) (key : string)
  (fs fs' : filesystem) (r : outcome value) :
  let cache_path := GitHubStatsCache._get_cache_path self key in
  GitHubStatsCache.get self now key fs = (r, fs') ->
  fs' = fs
  \/ (r = Ok VNone /\ fs' = delete cache_path fs
      /\ exists text, fs !! cache_path = Some (File text)).
Proof.
  intros cache_path.
  destruct (fs !! cache_path) as [[w|text]|] eqn:Hfile.
  - unfold GitHubStatsCache.get, bind, try_except, os_path_exists, read_file.
    fold cache_path. rewrite Hfile. simpl. rewrite Hfile.
    intros [= <- <-]. now left.
  - rewrite (get_on_file self now key fs text Hfile). fold cache_path.
    destruct (check_entry self now text) as [[cache_data []]|e].
    + destruct (os_remove cache_path fs) as [[[]|e] fs1] eqn:Hremove;
        intros [= <- <-]; [|now left].
      apply os_remove_effect in Hremove as [[-> _] | (_ & -> & _)]; eauto 6.
    + destruct (getitem cache_data "data") as [data|e].
      * intros [= <- <-]. now left.
      * destruct (GitHubStatsCache.invalid_cache_file e).
        -- intros H.
           apply remove_invalid_effect in H as [->|(-> & -> & _)]; eauto 6.
        -- intros [= <- <-]. now left.
    + destruct (GitHubStatsCache.invalid_cache_file e).
      * intros H.
        apply remove_invalid_effect in H as [->|(-> & -> & _)]; eauto 6.
      * intros [= <- <-]. now left.
  - rewrite (get_missing self now key fs Hfile). intros [= <- <-]. now left.
Qed.

Lemma check_entry_Ok (self : GitHubStatsCache.t) (now : datetime)
  (text : string) (cache_data : value) (expired : bool) :
  check_entry self now text = Ok (cache_data, expired) ->
  exists pairs stamp cached_time age limit,
    cache_data = VDict pairs
    /\ json_loads text = Ok (VDict pairs)
    /\ dict_get pairs "timestamp" = Some (VStr stamp)
    /\ fromisoformat stamp = Ok cached_time
    /\ datetime_sub now cached_time = Ok age
    /\ timedelta_hours (GitHubStatsCache.expiry_hours self) = Ok limit
    /\ expired = (age >? limit).
Proof.
  unfold check_entry.
  destruct (json_loads text) as [[| | | |items|pairs]|e] eqn:Hloads;
    try discriminate.
  cbn [outcome_bind getitem or_raise].
  destruct (dict_get pairs "timestamp") as [[| | |stamp| |]|] eqn:Hstamp;
    try discriminate.
  cbn [outcome_bind or_raise datetime_fromisoformat].
  destruct (fromisoformat stamp) as [cached_time|e] eqn:Hiso; [|discriminate].
  cbn [outcome_bind].
  destruct (datetime_sub now cached_time) as [age|e] eqn:Hage; [|discriminate].
  cbn [outcome_bind].
  destruct (timedelta_hours _) as [limit|e] eqn:Hlimit; [|discriminate].
  cbn [outcome_bind]. intros [= <- <-].
  exists pairs, stamp, cached_time, age, limit. repeat split; assumption || reflexivity.
Qed.

(** A result other than [None] comes from the entry file as it is. *)
Lemma get_hit (self : GitHubStatsCache.t) (now : datetime) (key : string)
  (fs fs' : filesystem) (v : value) :
  GitHubStatsCache.get self now key fs = (Ok v, fs') -> v <> VNone ->
  fs' = fs
  /\ exists text pairs,
       fs !! GitHubStatsCache._get_cache_path self key = Some (File text)
       /\ check_entry self now text = Ok (VDict pairs, false)
       /\ dict_get pairs "data" = Some v.
Proof.
  intros Hget Hv.
  destruct (fs !! GitHubStatsCache._get_cache_path self key)
    as [[w|text]|] eqn:Hfile.
  - exfalso. revert Hget.
    unfold GitHubStatsCache.get, bind, try_except, os_path_exists, read_file.
    rewrite Hfile. simpl. rewrite Hfile. discriminate.
  - rewrite (get_on_file self now key fs text Hfile) in Hget.
    destruct (check_entry self now text) as [[cache_data []]|e] eqn:Hcheck.
    + exfalso. destruct (os_remove _ fs) as [[[]|e] fs1]; congruence.
    + apply check_entry_Ok in Hcheck as Hparts.
      destruct Hparts as (pairs & _ & _ & _ & _ & -> & _).
      cbn [getitem or_raise] in Hget.
      destruct (dict_get pairs "data") as [data|] eqn:Hdata.
      * injection Hget as <- <-. eauto 6.
      * exfalso. cbn in Hget.
        unfold GitHubStatsCache.remove_invalid, bind, os_path_exists, ret
          in Hget.
        rewrite Hfile in Hget. simpl in Hget.
        destruct (os_remove _ fs) as [[[]|e] fs1]; congruence.
    + exfalso. destruct (GitHubStatsCache.invalid_cache_file e);
        [|discriminate].
      unfold GitHubStatsCache.remove_invalid, bind, os_path_exists, ret
        in Hget.
      rewrite Hfile in Hget. simpl in Hget.
      destruct (os_remove _ fs) as [[[]|e'] fs1]; congruence.
  - rewrite (get_missing self now key fs Hfile) in Hget. congruence.
Qed.

Lemma get_dir_at_path (self : GitHubStatsCache.t) (now : datetime)
  (key : string) (fs : filesystem) (w : bool) :
  fs !! GitHubStatsCache._get_cache_path self key = Some (Dir w) ->
  GitHubStatsCache.get self now key fs = (Raise IsADirectoryError, fs).
Proof.
  intros Hfile.
  unfold GitHubStatsCache.get, bind, try_except, os_path_exists, read_file.
  rewrite Hfile. simpl. now rewrite Hfile.
Qed.

Lemma os_remove_changed (p : list string) (fs fs' : filesystem)
  (r : outcome unit) :
  os_remove p fs = (r, fs') -> fs' <> fs -> fs !! parent p = Some (Dir true).
Proof.
  unfold os_remove, may_modify_parent.
  destruct (fs !! p) as [[w|text]|]; destruct (fs !! parent p) as [[[]|old]|];
    intros [= <- <-] H; try reflexivity; now destruct H.
Qed.

Lemma remove_invalid_changed (p : list string) (fs fs' : filesystem)
  (r : outcome value) :
  GitHubStatsCache.remove_invalid p fs = (r, fs') -> fs' <> fs ->
  fs !! parent p = Some (Dir true).
Proof.
  unfold GitHubStatsCache.remove_invalid, bind, os_path_exists, ret.
  destruct (bool_decide (is_Some (fs !! p))).
  - destruct (os_remove p fs) as [[[]|e] fs1] eqn:E; intros [= <- <-];
      now apply (os_remove_changed _ _ _ _ E).
  - intros [= <- <-] H. now destruct H.
Qed.

(** A [get] that changed the file system found a file it decided to
    delete, in a directory that let it. *)
Lemma get_deleted (self : GitHubStatsCache.t) (now : datetime) (key : string)
  (fs fs' : filesystem) (r : outcome value) :
  let cache_path := GitHubStatsCache._get_cache_path self key in
  GitHubStatsCache.get self now key fs = (r, fs') -> fs' <> fs ->
  r = Ok VNone /\ fs' = delete cache_path fs
  /\ fs !! GitHubStatsCache.cache_dir self = Some (Dir true)
  /\ exists text, fs !! cache_path = Some (File text)
                  /\ triggers_delete self now text = true.
Proof.
  intros cache_path Hget Hne.
  destruct (get_effect self now key fs fs' r Hget)
    as [->|(-> & -> & text & Hfile)]; [contradiction|].
  fold cache_path in Hfile.
  assert (fs !! GitHubStatsCache.cache_dir self = Some (Dir true)
          /\ triggers_delete self now text = true) as [Hdir Hdel].
  { rewrite <- (cache_path_parent self key). fold cache_path.
    rewrite (get_on_file self now key fs text Hfile) in Hget.
    fold cache_path in Hget. unfold triggers_delete.
    destruct (check_entry self now text) as [[cache_data []]|e].
    - split; [|reflexivity].
      destruct (os_remove cache_path fs) as [[[]|e] fs1] eqn:E.
      + injection Hget as Heq. apply (os_remove_changed _ _ _ _ E).
        now rewrite Heq.
      + injection Hget as Heq. now destruct Hne.
    - destruct (getitem cache_data "data") as [data|e].
      + injection Hget as _ Heq. now destruct Hne.
      + destruct (GitHubStatsCache.invalid_cache_file e).
        * split; [|reflexivity]. now apply (remove_invalid_changed _ _ _ _ Hget).
        * injection Hget as _ Heq. now destruct Hne.
    - destruct (GitHubStatsCache.invalid_cache_file e).
      + split; [|reflexivity]. now apply (remove_invalid_changed _ _ _ _ Hget).
      + injection Hget as _ Heq. now destruct Hne. }
  repeat split; eauto.
Qed.

(** X6.  Whatever it returns or raises, [get] creates and changes no
    file: it leaves the file system as it was, or it has deleted the
    entry file of the key, and then it returns [None]. *)
Theorem get_changes_at_most_its_entry (self : GitHubStatsCache.t)
  (now : datetime) (key : string) (fs fs' : filesystem) (r : outcome value) :
  let cache_path := GitHubStatsCache._get_cache_path self key in
  GitHubStatsCache.get self now key fs = (r, fs') ->
  (fs' = fs \/ (r = Ok VNone /\ fs' = delete cache_path fs))
  /\ (forall p, p <> cache_path -> fs' !! p = fs !! p)
  /\ (forall p n, fs' !! p = Some n -> fs !! p = Some n).
Proof.
  intros cache_path Hget.
  destruct (get_effect self now key fs fs' r Hget)
    as [->|(-> & -> & _)]; fold cache_path.
  - repeat split; auto.
  - repeat split; [now right | |].
    + intros p Hp. now apply lookup_delete_ne.
    + intros p n Hp. now apply lookup_delete_Some in Hp.
Qed.

Lemma get_changes_at_most_its_entry_witness :
  (example_fs = entry_fs
   \/ (Ok VNone = Ok VNone /\ example_fs = delete k_path entry_fs))
  /\ (forall p, p <> k_path -> example_fs !! p = entry_fs !! p)
  /\ (forall p n, example_fs !! p = Some n -> entry_fs !! p = Some n).
Proof.
  apply (get_changes_at_most_its_entry example_store seven_pm "k" entry_fs
           example_fs (Ok VNone)).
  by_computation.
Defined.

(** X7.  A second [get] at the same clock reading gives what the first
    gave and changes nothing; after a [get] that deleted the entry file,
    every later [get] of the key is a miss. *)
Theorem get_again_changes_nothing (self : GitHubStatsCache.t)
  (now later : datetime) (key : string) (fs fs' : filesystem)
  (r : outcome value) :
  GitHubStatsCache.get self now key fs = (r, fs') ->
  GitHubStatsCache.get self now key fs' = (r, fs')
  /\ (fs' <> fs -> GitHubStatsCache.get self later key fs' = (Ok VNone, fs')).
Proof.
  intros Hget.
  destruct (get_effect self now key fs fs' r Hget)
    as [->|(-> & -> & _)].
  - split; [exact Hget | intros H; now destruct H].
  - split; [|intros _]; apply get_missing, lookup_delete_eq.
Qed.

Lemma get_again_changes_nothing_witness :
  GitHubStatsCache.get example_store seven_pm "k" example_fs
  = (Ok VNone, example_fs)
  /\ (example_fs <> entry_fs ->
      GitHubStatsCache.get example_store noon "k" example_fs
      = (Ok VNone, example_fs)).
Proof.
  apply (get_again_changes_nothing example_store seven_pm noon "k" entry_fs
           example_fs (Ok VNone)).
  by_computation.
Defined.

(** X8.  [get] returns a value other than [None] only when the entry file
    of the key holds a record whose timestamp is no older than the expiry
    duration, and the value is the data of that record; the file system
    is then unchanged. *)
Theorem hit_is_stored_and_fresh (self : GitHubStatsCache.t) (now : datetime)
  (key : string) (fs fs' : filesystem) (v : value) :
  GitHubStatsCache.get self now key fs = (Ok v, fs') -> v <> VNone ->
  fs' = fs
  /\ exists (text : string) (pairs : list (string * value)) (stamp : string)
            (cached_time : datetime) (age limit : Z),
       fs !! GitHubStatsCache._get_cache_path self key = Some (File text)
       /\ json_loads text = Ok (VDict pairs)
       /\ dict_get pairs "timestamp" = Some (VStr stamp)
       /\ fromisoformat stamp = Ok cached_time
       /\ datetime_sub now cached_time = Ok age
       /\ timedelta_hours (GitHubStatsCache.expiry_hours self) = Ok limit
       /\ age <= limit
       /\ dict_get pairs "data" = Some v.
Proof.
  intros Hget Hv.
  destruct (get_hit self now key fs fs' v Hget Hv)
    as (-> & text & pairs & Hfile & Hcheck & Hdata).
  split; [reflexivity|].
  apply check_entry_Ok in Hcheck
    as (pairs' & stamp & cached_time & age & limit & [= <-] & Hloads & Hstamp
        & Hiso & Hage & Hlimit & Hfresh).
  exists text, pairs, stamp, cached_time, age, limit.
  repeat split; try assumption.
  symmetry in Hfresh. rewrite Z.gtb_ltb in Hfresh.
  apply Z.ltb_ge in Hfresh. exact Hfresh.
Qed.

Lemma hit_is_stored_and_fresh_witness :
  entry_fs = entry_fs
  /\ exists (text : string) (pairs : list (string * value)) (stamp : string)
            (cached_time : datetime) (age limit : Z),
       entry_fs !! GitHubStatsCache._get_cache_path example_store "k"
       = Some (File text)
       /\ json_loads text = Ok (VDict pairs)
       /\ dict_get pairs "timestamp" = Some (VStr stamp)
       /\ fromisoformat stamp = Ok cached_time
       /\ datetime_sub three_pm cached_time = Ok age
       /\ timedelta_hours (GitHubStatsCache.expiry_hours example_store)
          = Ok limit
       /\ age <= limit
       /\ dict_get pairs "data" = Some (VInt 7).
Proof.
  apply (hit_is_stored_and_fresh example_store three_pm "k" entry_fs entry_fs
           (VInt 7)); [by_computation | discriminate].
Defined.

(** X9.  [get] does not ask who wrote the file: every JSON object with a
    timestamp [fromisoformat] reads, no older than the expiry duration,
    and a [data] member is returned as a hit, whatever else it holds;
    the file system stays as it is. *)
Theorem fresh_record_is_returned (self : GitHubStatsCache.t) (now : datetime)
  (key : string) (fs : filesystem) (text : string)
  (pairs : list (string * value)) (stamp : string) (cached_time : datetime)
  (age limit : Z) (v : value) :
  fs !! GitHubStatsCache._get_cache_path self key = Some (File text) ->
  json_loads text = Ok (VDict pairs) ->
  dict_get pairs "timestamp" = Some (VStr stamp) ->
  fromisoformat stamp = Ok cached_time ->
  datetime_sub now cached_time = Ok age ->
  timedelta_hours (GitHubStatsCache.expiry_hours self) = Ok limit ->
  age <= limit ->
  dict_get pairs "data" = Some v ->
  GitHubStatsCache.get self now key fs = (Ok v, fs).
Proof.
  intros Hfile Hloads Hstamp Hiso Hage Hlimit Hfresh Hdata.
  rewrite (get_on_file self now key fs text Hfile).
  rewrite (check_entry_record self now text stamp pairs cached_time age limit)
    by assumption.
  rewrite not_gtb by exact Hfresh. cbn [getitem]. now rewrite Hdata.
Qed.

Lemma fresh_record_is_returned_witness :
  GitHubStatsCache.get example_store (Datetime 2024 1 2 3 0 0 0 None) "k"
    (<[k_path := File foreign_entry]> example_fs)
  = (Ok (VList [VInt 1; VInt 2]), <[k_path := File foreign_entry]> example_fs).
Proof.
  apply (fresh_record_is_returned example_store
           (Datetime 2024 1 2 3 0 0 0 None) "k"
           (<[k_path := File foreign_entry]> example_fs) foreign_entry
           [("data", VList [VInt 1; VInt 2]); ("by", VStr "hand");
            ("timestamp", VStr "2024-01-02")]
           "2024-01-02" (Datetime 2024 1 2 0 0 0 0 None)
           (3 * usec_per_hour) (6 * usec_per_hour)
           (VList [VInt 1; VInt 2])); closed_goal.
Defined.

(** [get] on a file [set] wrote, for a store with any expiry. *)
Lemma get_on_written (self : GitHubStatsCache.t) (set_time get_time : datetime)
  (key : string) (v : value) (limit : Z) (fs : filesystem) :
  let cache_path := GitHubStatsCache._get_cache_path self key in
  fs !! cache_path = Some (File (entry_text set_time v)) ->
  fs !! GitHubStatsCache.cache_dir self = Some (Dir true) ->
  clock_reading set_time = true ->
  clock_reading get_time = true ->
  well_formed v = true ->
  timedelta_hours (GitHubStatsCache.expiry_hours self) = Ok limit ->
  GitHubStatsCache.get self get_time key fs
  = if wall_usec get_time - wall_usec set_time >? limit
    then (Ok VNone, delete cache_path fs)
    else (Ok v, fs).
Proof.
  intros cache_path Hfile Hdir Hst Hgt Hwf Hlimit.
  rewrite (get_on_file self get_time key _ (entry_text set_time v) Hfile).
  rewrite (check_entry_text self set_time get_time v limit) by assumption.
  fold cache_path.
  destruct (wall_usec get_time - wall_usec set_time >? limit); [|reflexivity].
  rewrite (os_remove_file cache_path fs (entry_text set_time v)); auto.
  unfold cache_path. now rewrite cache_path_parent.
Qed.

(** X10.  An entry outlives the store object that wrote it, and records
    nothing of that store's expiry: a store constructed later on the same
    directory with any expiry finds the directory as it is, and its [get]
    returns the value while the age of the entry is within its own
    expiry, and deletes the entry file after that. *)
Theorem entry_is_judged_by_the_reading_store (writer : GitHubStatsCache.t)
  (h : Z) (set_time get_time : datetime) (key : string) (v : value)
  (limit : Z) (fs fs1 : filesystem) :
  let reader := GitHubStatsCache.Build (GitHubStatsCache.cache_dir writer) h in
  let cache_path := GitHubStatsCache._get_cache_path reader key in
  GitHubStatsCache.set writer set_time key v fs = (Ok tt, fs1) ->
  fs !! GitHubStatsCache.cache_dir writer = Some (Dir true) ->
  clock_reading set_time = true ->
  clock_reading get_time = true ->
  well_formed v = true ->
  timedelta_hours h = Ok limit ->
  GitHubStatsCache.__init__ (GitHubStatsCache.cache_dir writer) h fs1
  = (Ok reader, fs1)
  /\ GitHubStatsCache.get reader get_time key fs1
     = if wall_usec get_time - wall_usec set_time >? limit
       then (Ok VNone, delete cache_path fs1)
       else (Ok v, fs1).
Proof.
  intros reader cache_path Hset Hdir Hst Hgt Hwf Hlimit.
  apply set_writes in Hset. subst fs1.
  change (GitHubStatsCache._get_cache_path writer key) with cache_path.
  assert (<[cache_path := File (entry_text set_time v)]> fs
          !! GitHubStatsCache.cache_dir writer = Some (Dir true)) as Hdir1.
  { rewrite lookup_insert_ne by apply (cache_path_ne_dir reader key).
    exact Hdir. }
  split.
  - apply init_on_existing. rewrite Hdir1. eauto.
  - apply (get_on_written reader set_time get_time key v limit);
      try assumption.
    apply lookup_insert_eq.
Qed.

Lemma entry_is_judged_by_the_reading_store_witness :
  GitHubStatsCache.__init__ ["cache"] 1 entry_fs
  = (Ok (GitHubStatsCache.Build ["cache"] 1), entry_fs)
  /\ GitHubStatsCache.get (GitHubStatsCache.Build ["cache"] 1) three_pm "k"
       entry_fs
     = (Ok VNone, delete k_path entry_fs).
Proof.
  apply (entry_is_judged_by_the_reading_store example_store 1 noon three_pm
           "k" (VInt 7) usec_per_hour example_fs entry_fs); by_computation.
Defined.

(** X11.  A record whose timestamp is no string, or is a string with a
    UTC offset, makes [get] raise [TypeError] ([fromisoformat] wants a
    [str]; the clock reading of [datetime.now()] has no offset and cannot
    be subtracted from one that has); the file stays. *)
Theorem unusable_timestamp_raises_TypeError (self : GitHubStatsCache.t)
  (now : datetime) (key : string) (fs : filesystem) (text : string)
  (pairs : list (string * value)) (stamp : value) :
  fs !! GitHubStatsCache._get_cache_path self key = Some (File text) ->
  json_loads text = Ok (VDict pairs) ->
  dict_get pairs "timestamp" = Some stamp ->
  utcoffset now = None ->
  (forall s, stamp <> VStr s)
  \/ (exists s cached_time off,
        stamp = VStr s /\ fromisoformat s = Ok cached_time
        /\ utcoffset cached_time = Some off) ->
  GitHubStatsCache.get self now key fs = (Raise TypeError, fs).
Proof.
  intros Hfile Hloads Hstamp Hnow Hbad.
  rewrite (get_on_file self now key fs text Hfile).
  unfold check_entry. rewrite Hloads. cbn [outcome_bind getitem].
  rewrite Hstamp. cbn [or_raise outcome_bind].
  destruct Hbad as [Hkind | (s & cached_time & off & -> & Hiso & Hoff)].
  - destruct stamp; try reflexivity. now destruct (Hkind s).
  - cbn [datetime_fromisoformat]. rewrite Hiso. cbn [outcome_bind].
    unfold datetime_sub. now rewrite Hnow, Hoff.
Qed.

Lemma unusable_timestamp_raises_TypeError_witness :
  GitHubStatsCache.get example_store noon "k"
    (<[k_path := File utc_entry]> example_fs)
  = (Raise TypeError, <[k_path := File utc_entry]> example_fs).
Proof.
  apply (unusable_timestamp_raises_TypeError example_store noon "k"
           (<[k_path := File utc_entry]> example_fs) utc_entry
           [("timestamp", VStr "2024-01-02T12:00:00+00:00");
            ("data", VInt 7)]
           (VStr "2024-01-02T12:00:00+00:00")); try by_computation.
  right. exists "2024-01-02T12:00:00+00:00",
           (Datetime 2024 1 2 12 0 0 0 (Some 0)), 0.
  repeat split; by_computation.
Defined.

(** X12.  An [expiry_hours] that [timedelta] does not take (more than
    999999999 days either way) makes [get] raise [OverflowError] on every
    record with a timestamp it can read; the file stays. *)
Theorem expiry_out_of_range_raises_OverflowError (self : GitHubStatsCache.t)
  (now : datetime) (key : string) (fs : filesystem) (text : string)
  (pairs : list (string * value)) (stamp : string) (cached_time : datetime)
  (age : Z) :
  fs !! GitHubStatsCache._get_cache_path self key = Some (File text) ->
  json_loads text = Ok (VDict pairs) ->
  dict_get pairs "timestamp" = Some (VStr stamp) ->
  fromisoformat stamp = Ok cached_time ->
  datetime_sub now cached_time = Ok age ->
  GitHubStatsCache.expiry_hours self < -23999999976
  \/ 23999999999 < GitHubStatsCache.expiry_hours self ->
  GitHubStatsCache.get self now key fs = (Raise OverflowError, fs).
Proof.
  intros Hfile Hloads Hstamp Hiso Hage Hrange.
  rewrite (get_on_file self now key fs text Hfile).
  unfold check_entry. rewrite Hloads. cbn [outcome_bind getitem].
  rewrite Hstamp. cbn [or_raise outcome_bind datetime_fromisoformat].
  rewrite Hiso. cbn [outcome_bind]. rewrite Hage. cbn [outcome_bind].
  unfold timedelta_hours.
  assert ((-999999999 <=? GitHubStatsCache.expiry_hours self / 24)
          && (GitHubStatsCache.expiry_hours self / 24 <=? 999999999)
          = false) as ->; [|reflexivity].
  apply andb_false_iff. rewrite Z.leb_gt, Z.leb_gt.
  destruct Hrange as [Hlow|Hhigh]; [left | right].
  - apply Z.div_lt_upper_bound; lia.
  - assert (1000000000 <= GitHubStatsCache.expiry_hours self / 24); [|lia].
    apply Z.div_le_lower_bound; lia.
Qed.

Lemma expiry_out_of_range_raises_OverflowError_witness :
  GitHubStatsCache.get (GitHubStatsCache.Build ["cache"] 24000000000)
    three_pm "k" entry_fs
  = (Raise OverflowError, entry_fs).
Proof.
  apply (expiry_out_of_range_raises_OverflowError
           (GitHubStatsCache.Build ["cache"] 24000000000) three_pm "k"
           entry_fs (entry_text noon (VInt 7))
           [("timestamp", VStr (isoformat noon)); ("data", VInt 7)]
           (isoformat noon) noon (3 * usec_per_hour));
    try by_computation.
  right. reflexivity.
Defined.

(** X13.  A store whose [expiry_hours] is zero or negative keeps nothing:
    the first [get] at a clock reading after the one of the [set] deletes
    the entry file and returns [None]. *)
Theorem nonpositive_expiry_keeps_nothing (self : GitHubStatsCache.t)
  (set_time get_time : datetime) (key : string) (v : value)
  (fs fs1 : filesystem) :
  let cache_path := GitHubStatsCache._get_cache_path self key in
  GitHubStatsCache.set self set_time key v fs = (Ok tt, fs1) ->
  fs !! GitHubStatsCache.cache_dir self = Some (Dir true) ->
  clock_reading set_time = true ->
  clock_reading get_time = true ->
  well_formed v = true ->
  -23999999976 <= GitHubStatsCache.expiry_hours self <= 0 ->
  wall_usec set_time < wall_usec get_time ->
  GitHubStatsCache.get self get_time key fs1
  = (Ok VNone, delete cache_path fs1)
  /\ delete cache_path fs1 !! cache_path = None.
Proof.
  intros cache_path Hset Hdir Hst Hgt Hwf Hrange Hlater.
  split; [|apply lookup_delete_eq].
  apply set_writes in Hset. subst fs1. fold cache_path.
  rewrite (get_on_written self set_time get_time key v
             (GitHubStatsCache.expiry_hours self * usec_per_hour)).
  - rewrite is_gtb; [reflexivity|].
    assert (0 < usec_per_hour) as Hpos by reflexivity.
    assert (GitHubStatsCache.expiry_hours self * usec_per_hour <= 0) by nia.
    lia.
  - apply lookup_insert_eq.
  - rewrite lookup_insert_ne by apply cache_path_ne_dir. exact Hdir.
  - exact Hst.
  - exact Hgt.
  - exact Hwf.
  - unfold timedelta_hours.
    assert ((-999999999 <=? GitHubStatsCache.expiry_hours self / 24)
            && (GitHubStatsCache.expiry_hours self / 24 <=? 999999999)
            = true) as ->; [|reflexivity].
    apply andb_true_iff. rewrite !Z.leb_le. split.
    + apply Z.div_le_lower_bound; lia.
    + assert (GitHubStatsCache.expiry_hours self / 24 <= 0); [|lia].
      apply Z.div_le_upper_bound; lia.
Qed.

Lemma nonpositive_expiry_keeps_nothing_witness :
  GitHubStatsCache.get (GitHubStatsCache.Build ["cache"] 0)
    (Datetime 2024 1 2 12 0 0 1 None) "k" entry_fs
  = (Ok VNone, delete k_path entry_fs)
  /\ delete k_path entry_fs !! k_path = None.
Proof.
  apply (nonpositive_expiry_keeps_nothing (GitHubStatsCache.Build ["cache"] 0)
           noon (Datetime 2024 1 2 12 0 0 1 None) "k" (VInt 7) example_fs
           entry_fs); try by_computation.
  - split; [discriminate | reflexivity].
  - reflexivity.
Defined.

Lemma datetime_sub_naive (now cached_time : datetime) (age : Z) :
  datetime_sub now cached_time = Ok age -> utcoffset now = None ->
  utcoffset cached_time = None /\ age = wall_usec now - wall_usec cached_time.
Proof.
  unfold datetime_sub. intros H Hnow. rewrite Hnow in H.
  destruct (utcoffset cached_time); [discriminate|].
  injection H as <-. split; reflexivity.
Qed.

(** What makes [get] delete at one clock reading makes it delete at
    every later one. *)
Lemma triggers_delete_later (self : GitHubStatsCache.t) (now later : datetime)
  (text : string) :
  utcoffset now = None -> utcoffset later = None ->
  wall_usec now <= wall_usec later ->
  triggers_delete self now text = true ->
  triggers_delete self later text = true.
Proof.
  intros Hnow Hlater Hle. unfold triggers_delete, check_entry.
  destruct (json_loads text) as [cache_data|e]; [|tauto].
  cbn [outcome_bind].
  destruct (getitem cache_data "timestamp") as [timestamp|e]; [|tauto].
  cbn [outcome_bind].
  destruct (datetime_fromisoformat timestamp) as [cached_time|e]; [|tauto].
  cbn [outcome_bind]. unfold datetime_sub. rewrite Hnow, Hlater.
  destruct (utcoffset cached_time); [tauto|]. cbn [outcome_bind].
  destruct (timedelta_hours _) as [limit|e]; [|tauto]. cbn [outcome_bind].
  destruct (wall_usec now - wall_usec cached_time >? limit) eqn:Hexpired.
  - intros _. rewrite is_gtb; [reflexivity|].
    rewrite Z.gtb_ltb in Hexpired. apply Z.ltb_lt in Hexpired. lia.
  - intros Hdata.
    destruct (wall_usec later - wall_usec cached_time >? limit);
      [reflexivity | exact Hdata].
Qed.

(** X14.  Expiry follows the clock: a value [get] returns at one clock
    reading it returns at every earlier one, and an entry file it deletes
    at one clock reading it deletes at every later one. *)
Theorem expiry_follows_the_clock (self : GitHubStatsCache.t)
  (earlier later : datetime) (key : string) (fs : filesystem) :
  utcoffset earlier = None -> utcoffset later = None ->
  wall_usec earlier <= wall_usec later ->
  (forall v, GitHubStatsCache.get self later key fs = (Ok v, fs) ->
             v <> VNone ->
             GitHubStatsCache.get self earlier key fs = (Ok v, fs))
  /\ (forall fs', GitHubStatsCache.get self earlier key fs = (Ok VNone, fs') ->
                  fs' <> fs ->
                  GitHubStatsCache.get self later key fs = (Ok VNone, fs')).
Proof.
  intros Hearlier Hlater Hle. split.
  - intros v Hget Hv.
    destruct (get_hit self later key fs fs v Hget Hv)
      as (_ & text & pairs & Hfile & Hcheck & Hdata).
    apply check_entry_Ok in Hcheck
      as (pairs' & stamp & cached_time & age & limit & [= <-] & Hloads
          & Hstamp & Hiso & Hage & Hlimit & Hfresh).
    apply datetime_sub_naive in Hage as [Hnaive ->]; [|exact Hlater].
    rewrite (get_on_file self earlier key fs text Hfile).
    rewrite (check_entry_record self earlier text stamp pairs cached_time
               (wall_usec earlier - wall_usec cached_time) limit);
      try assumption.
    + rewrite not_gtb.
      * cbn [getitem]. now rewrite Hdata.
      * symmetry in Hfresh. rewrite Z.gtb_ltb in Hfresh.
        apply Z.ltb_ge in Hfresh. lia.
    + unfold datetime_sub. now rewrite Hearlier, Hnaive.
  - intros fs' Hget Hne.
    destruct (get_deleted self earlier key fs fs' (Ok VNone) Hget Hne)
      as (_ & -> & Hdir & text & Hfile & Hdel).
    apply (get_deletes self later key fs text Hfile Hdir).
    now apply (triggers_delete_later self earlier later).
Qed.

Lemma expiry_follows_the_clock_witness :
  GitHubStatsCache.get example_store noon "k" entry_fs
  = (Ok (VInt 7), entry_fs)
  /\ GitHubStatsCache.get example_store
       (Datetime 2024 1 3 0 0 0 0 None) "k" entry_fs
     = (Ok VNone, example_fs).
Proof.
  split.
  - destruct (expiry_follows_the_clock example_store noon three_pm "k"
                entry_fs) as [Hhit _]; [reflexivity | reflexivity | |].
    + vm_compute. discriminate.
    + apply (Hhit (VInt 7)); [by_computation | discriminate].
  - destruct (expiry_follows_the_clock example_store seven_pm
                (Datetime 2024 1 3 0 0 0 0 None) "k" entry_fs)
      as [_ Hgone]; [reflexivity | reflexivity | |].
    + vm_compute. discriminate.
    + apply (Hgone example_fs); [by_computation|].
      intros H. apply (f_equal (fun m : filesystem => m !! k_path)) in H.
      vm_compute in H. discriminate H.
Defined.

(** ** What [clear] may do to the file system *)

Lemma os_remove_Ok (p : list string) (fs fs' : filesystem) :
  os_remove p fs = (Ok tt, fs') ->
  fs' = delete p fs /\ fs !! parent p = Some (Dir true)
  /\ exists text, fs !! p = Some (File text).
Proof.
  unfold os_remove, may_modify_parent.
  destruct (fs !! p) as [[w|text]|]; destruct (fs !! parent p) as [[[]|old]|];
    intros [= <-]; eauto.
Qed.

Lemma os_remove_Raise (p : list string) (fs fs' : filesystem) (e : exn) :
  os_remove p fs = (Raise e, fs') -> fs' = fs.
Proof. intros H. now apply os_remove_not_caught in H. Qed.

(** The loop of [clear] deletes files named [*.json] in [d] and nothing
    else; when it ends without an error, none of the names it went
    through is left with that ending. *)
Lemma for_each_effect (d : list string) (names : list string) :
  forall (fs fs' : filesystem) (r : outcome unit),
    for_each names
      (fun filename =>
         if endswith filename ".json"
         then os_remove (os_path_join d filename)
         else ret tt) fs = (r, fs') ->
    (forall p,
        fs' !! p = fs !! p
        \/ (exists name,
              name ∈ names /\ endswith name ".json" = true
              /\ p = os_path_join d name
              /\ (exists text, fs !! p = Some (File text))
              /\ fs !! d = Some (Dir true) /\ fs' !! p = None))
    /\ (r = Ok tt ->
        forall name, name ∈ names -> endswith name ".json" = true ->
                     fs' !! os_path_join d name = None).
Proof.
  induction names as [|name names IH]; intros fs fs' r.
  - cbn [for_each]. intros [= <- <-]. split; [now left|].
    intros _ name Hin. now apply elem_of_nil in Hin.
  - cbn [for_each]. unfold bind at 1.
    destruct (endswith name ".json") eqn:Hjson.
    + destruct (os_remove (os_path_join d name) fs) as [[[]|e] fs1] eqn:Hrm.
      * apply os_remove_Ok in Hrm as (-> & Hdir & text & Hfile).
        rewrite parent_join in Hdir.
        intros Hrest. apply IH in Hrest as [Hframe Hgone]. split.
        -- intros p. destruct (decide (p = os_path_join d name)) as [->|Hne].
           ++ right. exists name. repeat split; eauto; [now left|].
              destruct (Hframe (os_path_join d name))
                as [->|(_ & _ & _ & _ & _ & _ & ->)];
                [apply lookup_delete_eq | reflexivity].
           ++ destruct (Hframe p)
                as [->|(other & Hin & Hjson' & -> & [text' Hp] & Hd & Hnone)].
              ** left. now apply lookup_delete_ne.
              ** right. exists other.
                 apply lookup_delete_Some in Hp as [_ Hp].
                 apply lookup_delete_Some in Hd as [_ Hd].
                 repeat split; eauto. now right.
        -- intros Hr other Hin Hjson'.
           apply elem_of_cons in Hin as [->|Hin]; [|now apply Hgone].
           destruct (Hframe (os_path_join d name))
             as [->|(_ & _ & _ & _ & _ & _ & ->)];
             [apply lookup_delete_eq | reflexivity].
      * apply os_remove_Raise in Hrm as ->. intros [= <- <-].
        split; [now left | discriminate].
    + unfold ret at 1. intros Hrest.
      apply IH in Hrest as [Hframe Hgone]. split.
      * intros p. destruct (Hframe p)
          as [->|(other & Hin & Hjson' & -> & Hp & Hd & Hnone)];
          [now left|].
        right. exists other. repeat split; eauto. now right.
      * intros Hr other Hin Hjson'.
        apply elem_of_cons in Hin as [->|Hin]; [congruence|].
        now apply Hgone.
Qed.

Lemma cleared_join (self : GitHubStatsCache.t) (p : list string) :
  cleared self p = true <->
  exists name, endswith name ".json" = true
               /\ p = os_path_join (GitHubStatsCache.cache_dir self) name.
Proof.
  unfold cleared. split.
  - destruct (child_name _ p) as [name|] eqn:Hchild; [|discriminate].
    apply child_name_Some in Hchild. eauto.
  - intros (name & Hjson & ->). unfold os_path_join.
    now rewrite (proj2 (child_name_Some _ _ name) eq_refl).
Qed.

Lemma clear_effect (self : GitHubStatsCache.t) (fs fs' : filesystem)
  (r : outcome unit) :
  GitHubStatsCache.clear self fs = (r, fs') ->
  (forall p,
      fs' !! p = fs !! p
      \/ (cleared self p = true
          /\ (exists text, fs !! p = Some (File text))
          /\ fs !! GitHubStatsCache.cache_dir self = Some (Dir true)
          /\ fs' !! p = None))
  /\ (r = Ok tt -> forall p, cleared self p = true -> fs' !! p = None).
Proof.
  unfold GitHubStatsCache.clear, bind.
  destruct (os_listdir _ fs) as [[names|e] fs1] eqn:Hlist.
  - apply listdir_spec in Hlist as (-> & _ & Hmem).
    intros Hloop. apply for_each_effect in Hloop as [Hframe Hgone]. split.
    + intros p. destruct (Hframe p)
        as [->|(name & Hin & Hjson & -> & Hp & Hd & Hnone)]; [now left|].
      right. repeat split; eauto. apply cleared_join. eauto.
    + intros Hr p Hp. apply cleared_join in Hp as (name & Hjson & ->).
      destruct (decide (name ∈ names)) as [Hin|Hout]; [now apply Hgone|].
      destruct (Hframe (os_path_join (GitHubStatsCache.cache_dir self) name))
        as [->|(_ & _ & _ & _ & _ & _ & ->)]; [|reflexivity].
      destruct (fs !! os_path_join _ name) as [n|] eqn:E; [|reflexivity].
      destruct Hout. apply Hmem. unfold os_path_join in E. eauto.
  - unfold os_listdir in Hlist.
    destruct (fs !! GitHubStatsCache.cache_dir self) as [[w|text]|];
      try discriminate Hlist;
      injection Hlist as <- <-; intros [= <- <-];
      (split; [now left | discriminate]).
Qed.

(** The one error the loop of [clear] can meet on the names of a listing:
    a directory, in a directory the process may modify; the refusal to
    delete, in one it may not. *)
Lemma for_each_raises (d : list string) (w : bool) (names : list string) :
  forall (fs fs' : filesystem) (e : exn),
    NoDup names ->
    fs !! d = Some (Dir w) ->
    (forall name, name ∈ names -> is_Some (fs !! os_path_join d name)) ->
    for_each names
      (fun filename =>
         if endswith filename ".json"
         then os_remove (os_path_join d filename)
         else ret tt) fs = (Raise e, fs') ->
    e = if w then IsADirectoryError else PermissionError.
Proof.
  induction names as [|name names IH]; intros fs fs' e Hnodup Hdir Hlisted.
  - cbn [for_each]. discriminate.
  - apply NoDup_cons in Hnodup as [Hfresh Hnodup].
    cbn [for_each]. unfold bind at 1.
    destruct (endswith name ".json") eqn:Hjson.
    + destruct (Hlisted name ltac:(left)) as [n Hn].
      unfold os_remove at 1, may_modify_parent.
      rewrite Hn, parent_join, Hdir.
      destruct w; [|now intros [= <- <-]].
      destruct n as [w'|text]; [now intros [= <- <-]|].
      apply IH; [exact Hnodup | |].
      * rewrite lookup_delete_ne by apply join_ne_dir. exact Hdir.
      * intros other Hin. rewrite lookup_delete_ne.
        -- apply Hlisted. now right.
        -- intros Heq. apply join_inj in Heq. subst other. contradiction.
    + unfold ret at 1. apply IH; [exact Hnodup | exact Hdir |].
      intros other Hin. apply Hlisted. now right.
Qed.

Lemma clear_raises (self : GitHubStatsCache.t) (w : bool)
  (fs fs' : filesystem) (e : exn) :
  fs !! GitHubStatsCache.cache_dir self = Some (Dir w) ->
  GitHubStatsCache.clear self fs = (Raise e, fs') ->
  e = if w then IsADirectoryError else PermissionError.
Proof.
  intros Hdir. unfold GitHubStatsCache.clear, bind.
  destruct (os_listdir _ fs) as [[names|e'] fs1] eqn:Hlist.
  - apply listdir_spec in Hlist as (-> & Hnodup & Hmem).
    apply for_each_raises; [exact Hnodup | exact Hdir |].
    intros name Hin. now apply Hmem.
  - unfold os_listdir in Hlist. rewrite Hdir in Hlist. discriminate.
Qed.

(** X15.  Whatever it returns or raises, [clear] creates and changes no
    file: every path keeps what it held or was a file named [*.json] in
    the cache directory and is gone.  When [clear] returns, no entry of
    the cache directory has a name ending in [.json]; when it raises, the
    error is one of [os.listdir] or [os.remove]. *)
Theorem clear_deletes_only_json_files (self : GitHubStatsCache.t)
  (fs fs' : filesystem) (r : outcome unit) :
  GitHubStatsCache.clear self fs = (r, fs') ->
  (forall p,
      fs' !! p = fs !! p
      \/ (cleared self p = true /\ (exists text, fs !! p = Some (File text))
          /\ fs' !! p = None))
  /\ (r = Ok tt -> forall p, cleared self p = true -> fs' !! p = None)
  /\ (forall e, r = Raise e ->
                e = FileNotFoundError \/ e = NotADirectoryError
                \/ e = IsADirectoryError \/ e = PermissionError).
Proof.
  intros Hclear.
  destruct (clear_effect self fs fs' r Hclear) as [Hframe Hgone].
  split; [|split; [exact Hgone|]].
  - intros p. destruct (Hframe p) as [->|(Hp & Hfile & _ & Hnone)]; auto.
  - intros e ->.
    destruct (fs !! GitHubStatsCache.cache_dir self) as [[w|text]|] eqn:Hdir.
    + apply (clear_raises self w fs fs' e Hdir) in Hclear as ->.
      destruct w; auto.
    + revert Hclear. unfold GitHubStatsCache.clear, bind, os_listdir.
      rewrite Hdir. intros [= <- _]. auto.
    + revert Hclear. unfold GitHubStatsCache.clear, bind, os_listdir.
      rewrite Hdir. intros [= <- _]. auto.
Qed.

Lemma clear_deletes_only_json_files_witness :
  (forall p,
      subdir_fs !! p = subdir_fs !! p
      \/ (cleared example_store p = true
          /\ (exists text, subdir_fs !! p = Some (File text))
          /\ subdir_fs !! p = None))
  /\ (@Raise unit IsADirectoryError = Ok tt ->
      forall p, cleared example_store p = true -> subdir_fs !! p = None)
  /\ (forall e, @Raise unit IsADirectoryError = Raise e ->
                e = FileNotFoundError \/ e = NotADirectoryError
                \/ e = IsADirectoryError \/ e = PermissionError).
Proof.
  apply (clear_deletes_only_json_files example_store subdir_fs subdir_fs
           (Raise IsADirectoryError)).
  by_computation.
Defined.

(** X16.  When the cache directory is gone, no operation brings it back:
    [get] is a miss, [set] and [clear] raise [FileNotFoundError], and the
    file system stays as it is. *)
Theorem store_without_its_directory (self : GitHubStatsCache.t)
  (now : datetime) (key : string) (v : value) (fs : filesystem) :
  fs !! GitHubStatsCache.cache_dir self = None ->
  fs !! GitHubStatsCache._get_cache_path self key = None ->
  GitHubStatsCache.get self now key fs = (Ok VNone, fs)
  /\ GitHubStatsCache.set self now key v fs = (Raise FileNotFoundError, fs)
  /\ GitHubStatsCache.clear self fs = (Raise FileNotFoundError, fs).
Proof.
  intros Hdir Hfile. split; [now apply get_missing|]. split.
  - unfold GitHubStatsCache.set, write_file, may_modify_parent.
    now rewrite Hfile, cache_path_parent, Hdir.
  - unfold GitHubStatsCache.clear, bind, os_listdir. now rewrite Hdir.
Qed.

Lemma store_without_its_directory_witness :
  GitHubStatsCache.get example_store noon "k" bare_fs = (Ok VNone, bare_fs)
  /\ GitHubStatsCache.set example_store noon "k" (VInt 7) bare_fs
     = (Raise FileNotFoundError, bare_fs)
  /\ GitHubStatsCache.clear example_store bare_fs
     = (Raise FileNotFoundError, bare_fs).
Proof.
  apply (store_without_its_directory example_store noon "k" (VInt 7) bare_fs);
    by_computation.
Defined.

(** X17.  The constructor tests that the path exists, not that it is a
    directory: on a regular file it succeeds and changes nothing, and the
    store it returns misses on every [get] and raises
    [NotADirectoryError] on [set] and [clear]. *)
Theorem regular_file_as_cache_directory (d : list string) (h : Z)
  (now : datetime) (key : string) (v : value) (fs : filesystem)
  (content : string) :
  let self := GitHubStatsCache.Build d h in
  fs !! d = Some (File content) ->
  fs !! GitHubStatsCache._get_cache_path self key = None ->
  GitHubStatsCache.__init__ d h fs = (Ok self, fs)
  /\ GitHubStatsCache.get self now key fs = (Ok VNone, fs)
  /\ GitHubStatsCache.set self now key v fs = (Raise NotADirectoryError, fs)
  /\ GitHubStatsCache.clear self fs = (Raise NotADirectoryError, fs).
Proof.
  intros self Hdir Hfile.
  split; [apply init_on_existing; rewrite Hdir; eauto|].
  split; [now apply get_missing|]. split.
  - unfold GitHubStatsCache.set, write_file, may_modify_parent.
    rewrite Hfile, cache_path_parent. cbn. now rewrite Hdir.
  - unfold GitHubStatsCache.clear, bind, os_listdir. cbn. now rewrite Hdir.
Qed.

Lemma regular_file_as_cache_directory_witness :
  GitHubStatsCache.__init__ ["cache"] 6 file_fs = (Ok example_store, file_fs)
  /\ GitHubStatsCache.get example_store noon "k" file_fs = (Ok VNone, file_fs)
  /\ GitHubStatsCache.set example_store noon "k" (VInt 7) file_fs
     = (Raise NotADirectoryError, file_fs)
  /\ GitHubStatsCache.clear example_store file_fs
     = (Raise NotADirectoryError, file_fs).
Proof.
  apply (regular_file_as_cache_directory ["cache"] 6 noon "k" (VInt 7) file_fs
           "not a directory"); by_computation.
Defined.

Lemma cleared_cache_path (self : GitHubStatsCache.t) (key : string) :
  cleared self (GitHubStatsCache._get_cache_path self key) = true.
Proof.
  apply cleared_join. exists (entry_name self key).
  split; [apply endswith_app | reflexivity].
Qed.

(** X18.  A directory where the entry file of a key would be blocks the
    key for good: [get] and [set] of the key raise [IsADirectoryError],
    and so does [clear], which leaves that directory in place. *)
Theorem directory_at_entry_path_blocks_key (self : GitHubStatsCache.t)
  (now : datetime) (key : string) (v : value) (fs : filesystem) (w : bool) :
  let cache_path := GitHubStatsCache._get_cache_path self key in
  fs !! cache_path = Some (Dir w) ->
  fs !! GitHubStatsCache.cache_dir self = Some (Dir true) ->
  GitHubStatsCache.get self now key fs = (Raise IsADirectoryError, fs)
  /\ GitHubStatsCache.set self now key v fs = (Raise IsADirectoryError, fs)
  /\ exists fs' : filesystem,
       GitHubStatsCache.clear self fs = (Raise IsADirectoryError, fs')
       /\ fs' !! cache_path = Some (Dir w).
Proof.
  intros cache_path Hfile Hdir.
  split; [exact (get_dir_at_path self now key fs w Hfile)|]. split.
  - unfold GitHubStatsCache.set, write_file. fold cache_path.
    now rewrite Hfile.
  - destruct (GitHubStatsCache.clear self fs) as [r fs'] eqn:Hclear.
    destruct (clear_effect self fs fs' r Hclear) as [Hframe Hgone].
    assert (fs' !! cache_path = Some (Dir w)) as Hstays.
    { destruct (Hframe cache_path) as [->|(_ & [text Htext] & _)];
        [exact Hfile | congruence]. }
    exists fs'. split; [|exact Hstays].
    destruct r as [[]|e].
    + specialize (Hgone eq_refl cache_path (cleared_cache_path self key)).
      congruence.
    + now rewrite (clear_raises self true fs fs' e Hdir Hclear).
Qed.

Lemma directory_at_entry_path_blocks_key_witness :
  GitHubStatsCache.get example_store noon "k" blocked_fs
  = (Raise IsADirectoryError, blocked_fs)
  /\ GitHubStatsCache.set example_store noon "k" (VInt 7) blocked_fs
     = (Raise IsADirectoryError, blocked_fs)
  /\ exists fs' : filesystem,
       GitHubStatsCache.clear example_store blocked_fs
       = (Raise IsADirectoryError, fs')
       /\ fs' !! k_path = Some (Dir true).
Proof.
  apply (directory_at_entry_path_blocks_key example_store noon "k" (VInt 7)
           blocked_fs true); by_computation.
Defined.

(** X19.  In a cache directory the process may not modify, [set] of a key
    without an entry file and [clear] with any entry named [*.json] raise
    [PermissionError], and nothing changes; with no such entry [clear]
    returns and nothing changes. *)
Theorem readonly_directory_refuses_changes (self : GitHubStatsCache.t)
  (now : datetime) (key : string) (v : value) (fs : filesystem) :
  let d := GitHubStatsCache.cache_dir self in
  fs !! d = Some (Dir false) ->
  (fs !! GitHubStatsCache._get_cache_path self key = None ->
   GitHubStatsCache.set self now key v fs = (Raise PermissionError, fs))
  /\ ((exists name, endswith name ".json" = true
                    /\ is_Some (fs !! os_path_join d name)) ->
      GitHubStatsCache.clear self fs = (Raise PermissionError, fs))
  /\ ((forall name, endswith name ".json" = true ->
                    fs !! os_path_join d name = None) ->
      GitHubStatsCache.clear self fs = (Ok tt, fs)).
Proof.
  intros d Hdir.
  assert (forall r fs', GitHubStatsCache.clear self fs = (r, fs') -> fs' = fs)
    as Hsame.
  { intros r fs' Hclear. apply map_eq. intros p.
    destruct (clear_effect self fs fs' r Hclear) as [Hframe _].
    destruct (Hframe p) as [->|(_ & _ & Hd & _)]; [reflexivity|].
    fold d in Hd. congruence. }
  split; [|split].
  - intros Hfile. unfold GitHubStatsCache.set, write_file, may_modify_parent.
    rewrite Hfile, cache_path_parent. fold d. now rewrite Hdir.
  - intros (name & Hjson & [n Hn]).
    destruct (GitHubStatsCache.clear self fs) as [r fs'] eqn:Hclear.
    pose proof (Hsame r fs' eq_refl) as ->. f_equal.
    destruct r as [[]|e].
    + destruct (clear_effect self fs fs (Ok tt) Hclear) as [_ Hgone].
      rewrite (Hgone eq_refl (os_path_join d name)) in Hn; [discriminate|].
      apply cleared_join. eauto.
    + now rewrite (clear_raises self false fs fs e Hdir Hclear).
  - intros Hnone.
    destruct (GitHubStatsCache.clear self fs) as [r fs'] eqn:Hclear.
    pose proof (Hsame r fs' eq_refl) as ->. f_equal.
    destruct r as [[]|e]; [reflexivity|]. exfalso.
    revert Hclear. unfold GitHubStatsCache.clear, bind. fold d.
    destruct (os_listdir d fs) as [[names|e'] fs1] eqn:Hlist.
    + apply listdir_spec in Hlist as (-> & _ & Hmem).
      assert (forall name, name ∈ names -> endswith name ".json" = false)
        as Hnames.
      { intros name Hin. apply Hmem in Hin as [n Hn].
        destruct (endswith name ".json") eqn:Hjson; [|reflexivity].
        specialize (Hnone name Hjson). unfold os_path_join in Hnone.
        congruence. }
      clear Hmem. induction names as [|name names IH]; [discriminate|].
      cbn [for_each]. unfold bind at 1.
      rewrite (Hnames name) by now left. unfold ret at 1.
      apply IH. intros other Hin. apply Hnames. now right.
    + unfold os_listdir in Hlist. rewrite Hdir in Hlist. discriminate.
Qed.

Lemma readonly_directory_refuses_changes_witness :
  GitHubStatsCache.set example_store noon "j" (VInt 7) readonly_entry_fs
  = (Raise PermissionError, readonly_entry_fs)
  /\ GitHubStatsCache.clear example_store readonly_entry_fs
     = (Raise PermissionError, readonly_entry_fs)
  /\ GitHubStatsCache.clear example_store readonly_fs = (Ok tt, readonly_fs).
Proof.
  destruct (readonly_directory_refuses_changes example_store noon "j"
              (VInt 7) readonly_entry_fs) as (Hset & Hclear & _);
    [by_computation|].
  destruct (readonly_directory_refuses_changes example_store noon "j"
              (VInt 7) readonly_fs) as (_ & _ & Hempty);
    [by_computation|].
  split; [|split].
  - apply Hset. by_computation.
  - apply Hclear. exists "8ce4b16b22b58894aa86c421e8759df3.json".
    split; [reflexivity|]. exists (File (entry_text noon (VInt 7))).
    by_computation.
  - apply Hempty. intros name _. unfold readonly_fs, os_path_join.
    rewrite lookup_insert_ne by discriminate.
    apply lookup_singleton_ne. discriminate.
Defined.

(** X20.  [clear] twice is [clear] once: after a [clear] that returned, a
    second one returns and changes nothing. *)
Theorem clear_again_changes_nothing (self : GitHubStatsCache.t)
  (fs fs' : filesystem) :
  GitHubStatsCache.clear self fs = (Ok tt, fs') ->
  GitHubStatsCache.clear self fs' = (Ok tt, fs').
Proof.
  intros Hclear.
  destruct (clear_effect self fs fs' (Ok tt) Hclear) as [Hframe Hgone].
  specialize (Hgone eq_refl).
  destruct (fs !! GitHubStatsCache.cache_dir self) as [[w|text]|] eqn:Hdir;
    try (exfalso; revert Hclear;
         unfold GitHubStatsCache.clear, bind, os_listdir; rewrite Hdir;
         discriminate).
  assert (fs' !! GitHubStatsCache.cache_dir self = Some (Dir w)) as Hdir'.
  { destruct (Hframe (GitHubStatsCache.cache_dir self))
      as [->|(_ & [text Htext] & _)]; [exact Hdir | congruence]. }
  unfold GitHubStatsCache.clear, bind.
  destruct (os_listdir _ fs') as [[names|e] fs1] eqn:Hlist.
  - apply listdir_spec in Hlist as (-> & _ & Hmem).
    assert (forall name, name ∈ names -> endswith name ".json" = false)
      as Hnames.
    { intros name Hin. apply Hmem in Hin as [n Hn].
      destruct (endswith name ".json") eqn:Hjson; [|reflexivity].
      assert (fs' !! os_path_join (GitHubStatsCache.cache_dir self) name
              = None) as Hnone by (apply Hgone, cleared_join; eauto).
      unfold os_path_join in Hnone. congruence. }
    clear Hmem. induction names as [|name names IH]; [reflexivity|].
    cbn [for_each]. unfold bind at 1.
    rewrite (Hnames name) by now left. unfold ret at 1.
    apply IH. intros other Hin. apply Hnames. now right.
  - unfold os_listdir in Hlist. rewrite Hdir' in Hlist. discriminate.
Qed.

Lemma clear_again_changes_nothing_witness :
  GitHubStatsCache.clear example_store
    (<[["cache"; "notes.txt"] := File "keep"]> example_fs)
  = (Ok tt, <[["cache"; "notes.txt"] := File "keep"]> example_fs).
Proof.
  apply (clear_again_changes_nothing example_store mixed_fs).
  by_computation.
Defined.

(** ** Construction, when it fails *)

Lemma os_mkdir_effect (p : list string) (fs fs' : filesystem)
  (r : outcome unit) :
  fs !! p = None -> os_mkdir p fs = (r, fs') ->
  (r = Ok tt /\ fs' = <[p := Dir true]> fs)
  \/ (fs' = fs
      /\ exists e, r = Raise e
                   /\ (e = FileNotFoundError \/ e = NotADirectoryError
                       \/ e = PermissionError)).
Proof.
  intros Hp. unfold os_mkdir, may_modify_parent. rewrite Hp.
  destruct (fs !! parent p) as [[[]|old]|]; intros [= <- <-]; eauto 7.
Qed.

Lemma parent_prefix (p : list string) : parent p `prefix_of` p.
Proof. rewrite parent_take. apply prefix_take. Qed.

Lemma not_prefix_of_parent (p : list string) :
  parent p <> [] -> ~ p `prefix_of` parent p.
Proof.
  intros Hne Hpre. apply prefix_length in Hpre.
  rewrite parent_take, length_take in Hpre.
  destruct p as [|x p]; [now destruct Hne|]. simpl in Hpre. lia.
Qed.

(** [os.makedirs] on a missing path makes directories on the way to it
    and touches nothing else, or raises and has made nothing. *)
Lemma makedirs_all_or_nothing (fuel : nat) :
  forall (p : list string) (fs fs' : filesystem) (r : outcome unit),
    fs !! p = None -> makedirs fuel p fs = (r, fs') ->
    (r = Ok tt /\ fs' !! p = Some (Dir true)
     /\ (forall q, ~ q `prefix_of` p -> fs' !! q = fs !! q)
     /\ (forall q n, fs !! q = Some n -> fs' !! q = Some n))
    \/ (fs' = fs
        /\ exists e, r = Raise e
                     /\ (e = FileNotFoundError \/ e = NotADirectoryError
                         \/ e = PermissionError)).
Proof.
  assert (forall (p : list string) (fs fs' : filesystem) (r : outcome unit),
             fs !! p = None -> os_mkdir p fs = (r, fs') ->
             (r = Ok tt /\ fs' !! p = Some (Dir true)
              /\ (forall q, ~ q `prefix_of` p -> fs' !! q = fs !! q)
              /\ (forall q n, fs !! q = Some n -> fs' !! q = Some n))
             \/ (fs' = fs
                 /\ exists e, r = Raise e
                              /\ (e = FileNotFoundError
                                  \/ e = NotADirectoryError
                                  \/ e = PermissionError))) as Hlast.
  { intros p fs fs' r Hp Hmk.
    apply (os_mkdir_effect p fs fs' r Hp) in Hmk as [[-> ->]|Hfail];
      [left | now right].
    split; [reflexivity|]. split; [apply lookup_insert_eq|]. split.
    - intros q Hq. apply lookup_insert_ne. intros ->. now apply Hq.
    - intros q n Hq. rewrite lookup_insert_ne; [exact Hq | congruence]. }
  induction fuel as [|fuel IH]; intros p fs fs' r Hp; cbn [makedirs];
    [now apply Hlast|].
  unfold bind at 1, os_path_exists.
  destruct (bool_decide (parent p <> [])) eqn:Hhead;
    [|cbn [andb]; unfold bind, ret; now apply Hlast].
  apply bool_decide_eq_true in Hhead.
  destruct (fs !! parent p) as [n|] eqn:Hparent.
  { rewrite bool_decide_eq_true_2 by eauto. cbn [andb negb].
    unfold bind, ret. now apply Hlast. }
  rewrite bool_decide_eq_false_2 by (intros [n Hn]; discriminate).
  cbn [andb negb]. unfold bind at 1, try_except.
  destruct (makedirs fuel (parent p) fs) as [r1 fs1] eqn:Hmk.
  destruct (IH (parent p) fs fs1 r1 Hparent Hmk)
    as [(-> & Hmade & Hframe & Hkept)
       |(-> & e & -> & He)].
  - assert (fs1 !! p = None) as Hp1.
    { rewrite Hframe; [exact Hp | now apply not_prefix_of_parent]. }
    rewrite (os_mkdir_new p fs1 Hp1 Hmade). intros [= <- <-]. left.
    split; [reflexivity|]. split; [apply lookup_insert_eq|]. split.
    + intros q Hq. rewrite lookup_insert_ne by (intros ->; now apply Hq).
      apply Hframe. intros Hpre. apply Hq.
      etransitivity; [exact Hpre | apply parent_prefix].
    + intros q n Hq. rewrite lookup_insert_ne by congruence.
      now apply Hkept.
  - assert (is_FileExistsError e = false) as ->
      by (destruct He as [->|[->| ->]]; reflexivity).
    intros [= <- <-]. right. eauto.
Qed.

(** X21.  Construction is all or nothing, and only adds: when it returns,
    the cache directory exists, every node that was there is still
    there, and only paths leading to the cache directory have changed;
    when it raises, the file system is as it was. *)
Theorem construction_is_all_or_nothing (d : list string) (h : Z)
  (fs fs' : filesystem) (r : outcome GitHubStatsCache.t) :
  GitHubStatsCache.__init__ d h fs = (r, fs') ->
  (r = Ok (GitHubStatsCache.Build d h) /\ is_Some (fs' !! d)
   /\ (forall q n, fs !! q = Some n -> fs' !! q = Some n)
   /\ (forall q, ~ q `prefix_of` d -> fs' !! q = fs !! q))
  \/ (fs' = fs
      /\ exists e, r = Raise e
                   /\ (e = FileNotFoundError \/ e = NotADirectoryError
                       \/ e = PermissionError)).
Proof.
  unfold GitHubStatsCache.__init__, bind, os_path_exists, ret.
  destruct (fs !! d) as [n|] eqn:Hd.
  - rewrite bool_decide_eq_true_2 by eauto. cbn [negb].
    intros [= <- <-]. left. rewrite Hd. eauto.
  - rewrite bool_decide_eq_false_2 by (intros [n Hn]; discriminate).
    cbn [negb]. unfold os_makedirs.
    destruct (makedirs (length d) d fs) as [r1 fs1] eqn:Hmk.
    destruct (makedirs_all_or_nothing (length d) d fs fs1 r1 Hd Hmk)
      as [(-> & Hmade & Hframe & Hkept)|(-> & e & -> & He)].
    + intros [= <- <-]. left. rewrite Hmade. eauto.
    + intros [= <- <-]. right. eauto.
Qed.

Lemma construction_is_all_or_nothing_witness :
  (@Raise GitHubStatsCache.t PermissionError
   = Ok (GitHubStatsCache.Build ["cache"; "stats"] 6)
   /\ is_Some (readonly_fs !! ["cache"; "stats"])
   /\ (forall q n, readonly_fs !! q = Some n -> readonly_fs !! q = Some n)
   /\ (forall q, ~ q `prefix_of` ["cache"; "stats"] ->
                 readonly_fs !! q = readonly_fs !! q))
  \/ (readonly_fs = readonly_fs
      /\ exists e, @Raise GitHubStatsCache.t PermissionError = Raise e
                   /\ (e = FileNotFoundError \/ e = NotADirectoryError
                       \/ e = PermissionError)).
Proof.
  apply (construction_is_all_or_nothing ["cache"; "stats"] 6 readonly_fs
           readonly_fs (Raise PermissionError)).
  by_computation.
Defined.

(** X22.  The entry file is named by the digest alone and holds no key:
    two keys with one digest share it.  What [set] stored under one,
    [get] returns under the other, and a [set] under the other
    overwrites it. *)
Theorem keys_with_one_digest_share_an_entry (self : GitHubStatsCache.t)
  (set_time get_time : datetime) (k1 k2 : string) (v : value) (expiry : Z)
  (fs fs1 : filesystem) :
  GitHubStatsCache._get_cache_key self k1
  = GitHubStatsCache._get_cache_key self k2 ->
  GitHubStatsCache.set self set_time k1 v fs = (Ok tt, fs1) ->
  clock_reading set_time = true ->
  clock_reading get_time = true ->
  well_formed v = true ->
  timedelta_hours (GitHubStatsCache.expiry_hours self) = Ok expiry ->
  wall_usec get_time - wall_usec set_time <= expiry ->
  GitHubStatsCache.get self get_time k2 fs1 = (Ok v, fs1)
  /\ forall (t : datetime) (v2 : value),
       GitHubStatsCache.set self t k2 v2 fs1
       = (Ok tt, <[GitHubStatsCache._get_cache_path self k1
                   := File (entry_text t v2)]> fs).
Proof.
  intros Hkey Hset Hst Hgt Hwf Hexp Hage.
  assert (GitHubStatsCache._get_cache_path self k2
          = GitHubStatsCache._get_cache_path self k1) as Hpath
    by (unfold GitHubStatsCache._get_cache_path; now rewrite Hkey).
  apply set_writes in Hset. subst fs1. split.
  - apply (get_written self set_time get_time k2 v expiry); try assumption.
    rewrite Hpath. apply lookup_insert_eq.
  - intros t v2. unfold GitHubStatsCache.set, write_file.
    fold (entry_text t v2). rewrite Hpath, lookup_insert_eq.
    now rewrite insert_insert_eq.
Qed.

Lemma keys_with_one_digest_share_an_entry_witness :
  let fs1 := <[collision_path := File (entry_text noon (VInt 7))]> example_fs in
  collision_a <> collision_b
  /\ GitHubStatsCache.get example_store three_pm collision_b fs1
     = (Ok (VInt 7), fs1)
  /\ forall (t : datetime) (v2 : value),
       GitHubStatsCache.set example_store t collision_b v2 fs1
       = (Ok tt, <[GitHubStatsCache._get_cache_path example_store collision_a
                   := File (entry_text t v2)]> example_fs).
Proof.
  split; [discriminate|].
  apply (keys_with_one_digest_share_an_entry example_store noon three_pm
           collision_a collision_b (VInt 7) (6 * usec_per_hour) example_fs);
    [|closed_goal..].
  transitivity "faad49866e9498fc1719f5289e7a0269";
    [by_computation | symmetry; by_computation].
Defined.

(** X23.  From nothing to a hit: where the cache directory is missing
    below a directory the process may modify, construction makes it,
    [set] then writes the entry file of the key, and [get] returns the
    value within the expiry duration.  The file system then holds the
    new directories and the entry file, and is otherwise as it was. *)
Theorem cold_start_round_trip (d : list string) (h : Z) (k : nat)
  (set_time get_time : datetime) (key : string) (v : value) (expiry : Z)
  (fs : filesystem) :
  let self := GitHubStatsCache.Build d h in
  let cache_path := GitHubStatsCache._get_cache_path self key in
  (k < length d)%nat ->
  fs !! take k d = Some (Dir true) ->
  (forall j, (k < j <= length d)%nat -> fs !! take j d = None) ->
  fs !! cache_path = None ->
  clock_reading set_time = true ->
  clock_reading get_time = true ->
  well_formed v = true ->
  timedelta_hours h = Ok expiry ->
  wall_usec get_time - wall_usec set_time <= expiry ->
  exists fs1 fs2 : filesystem,
    GitHubStatsCache.__init__ d h fs = (Ok self, fs1)
    /\ GitHubStatsCache.set self set_time key v fs1 = (Ok tt, fs2)
    /\ GitHubStatsCache.get self get_time key fs2 = (Ok v, fs2)
    /\ forall q,
         fs2 !! q
         = if bool_decide (q = cache_path)
           then Some (File (entry_text set_time v))
           else if created d k q then Some (Dir true) else fs !! q.
Proof.
  intros self cache_path Hk Hbase Hmissing Hfile Hst Hgt Hwf Hexp Hage.
  destruct (makedirs_creates (length d - k - 1) d k (length d) fs)
    as (fs1 & Hmake & Hfs1); [lia | lia | exact Hbase | exact Hmissing |].
  assert (fs !! d = None) as Hnone.
  { rewrite <- (firstn_all d). apply Hmissing. lia. }
  assert (length cache_path = S (length d)) as Hlen.
  { unfold cache_path, GitHubStatsCache._get_cache_path, os_path_join.
    rewrite length_app. simpl. lia. }
  assert (fs1 !! cache_path = None) as Hfile1.
  { rewrite Hfs1, created_longer by lia. exact Hfile. }
  assert (fs1 !! d = Some (Dir true)) as Hd.
  { rewrite Hfs1, created_self by exact Hk. reflexivity. }
  exists fs1, (<[cache_path := File (entry_text set_time v)]> fs1).
  split; [|split; [|split]].
  - unfold GitHubStatsCache.__init__, bind, os_path_exists, ret.
    rewrite Hnone. simpl. unfold os_makedirs. now rewrite Hmake.
  - apply set_succeeds; [exact Hd|].
    intros w. fold cache_path. congruence.
  - apply (get_written self set_time get_time key v expiry); try assumption.
    apply lookup_insert_eq.
  - intros q. case_bool_decide as Hq.
    + subst q. apply lookup_insert_eq.
    + rewrite lookup_insert_ne by congruence. apply Hfs1.
Qed.

Lemma cold_start_round_trip_witness :
  exists fs1 fs2 : filesystem,
    GitHubStatsCache.__init__ ["var"; "cache"; "stats"] 6 var_fs
    = (Ok (GitHubStatsCache.Build ["var"; "cache"; "stats"] 6), fs1)
    /\ GitHubStatsCache.set (GitHubStatsCache.Build ["var"; "cache"; "stats"] 6)
         noon "k" (VInt 7) fs1
       = (Ok tt, fs2)
    /\ GitHubStatsCache.get (GitHubStatsCache.Build ["var"; "cache"; "stats"] 6)
         three_pm "k" fs2
       = (Ok (VInt 7), fs2)
    /\ forall q,
         fs2 !! q
         = if bool_decide
                (q = ["var"; "cache"; "stats";
                      "8ce4b16b22b58894aa86c421e8759df3.json"])
           then Some (File (entry_text noon (VInt 7)))
           else if created ["var"; "cache"; "stats"] 1 q
                then Some (Dir true) else var_fs !! q.
Proof.
  apply (cold_start_round_trip ["var"; "cache"; "stats"] 6 1 noon three_pm
           "k" (VInt 7) (6 * usec_per_hour) var_fs); try closed_goal.
  - simpl. lia.
  - intros j Hj. simpl in Hj.
    assert (j = 2 \/ j = 3)%nat as [-> | ->] by lia; by_computation.
Defined.

(** ** The text of an entry file *)

Lemma digit_char_printable (d : Z) :
  0 <= d < 10 -> printable (digit_char d) = true.
Proof.
  intros Hd. unfold printable, digit_char. cbv zeta.
  rewrite byte_of_ascii_of_byte by lia. apply andb_true_iff.
  rewrite !Z.leb_le. lia.
Qed.

Lemma pad_digits_printable (k : nat) (n : Z) :
  string_forallb printable (pad_digits k n) = true.
Proof.
  induction k as [|k IH]; [reflexivity|].
  change (pad_digits (S k) n)
    with (String (digit_char (n / 10 ^ Z.of_nat k mod 10)) (pad_digits k n)).
  cbn [string_forallb]. rewrite IH, andb_true_r.
  apply digit_char_printable. apply Z.mod_pos_bound. lia.
Qed.

Lemma digits_of_printable (fuel : nat) (n : Z) :
  string_forallb printable (digits_of fuel n) = true.
Proof.
  revert n. induction fuel as [|fuel IH]; intros n; [reflexivity|].
  cbn [digits_of]. rewrite string_forallb_app. apply andb_true_iff. split.
  - destruct (n <? 10); [reflexivity | apply IH].
  - cbn [string_forallb]. rewrite andb_true_r.
    apply digit_char_printable. apply Z.mod_pos_bound. lia.
Qed.

Lemma int_str_printable (n : Z) : string_forallb printable (int_str n) = true.
Proof.
  unfold int_str. cbv zeta. rewrite string_forallb_app, digits_of_printable.
  now destruct (n <? 0).
Qed.

Lemma escape_char_printable (c : ascii) :
  string_forallb printable (escape_char c) = true.
Proof. destruct c as [[] [] [] [] [] [] [] []]; reflexivity. Qed.

Lemma encode_str_printable (s : string) :
  string_forallb printable (encode_str s) = true.
Proof.
  unfold encode_str. cbn [string_forallb].
  rewrite string_forallb_app. cbn [string_forallb].
  assert (string_forallb printable (escape s) = true) as ->; [|reflexivity].
  induction s as [|c s IH]; [reflexivity|].
  cbn [escape]. now rewrite string_forallb_app, escape_char_printable.
Qed.

Lemma concat_printable (sep : string) (texts : list string) :
  string_forallb printable sep = true ->
  Forall (fun text => string_forallb printable text = true) texts ->
  string_forallb printable (String.concat sep texts) = true.
Proof.
  intros Hsep Htexts. induction Htexts as [|text texts Htext _ IH];
    [reflexivity|].
  cbn [String.concat]. destruct texts as [|next texts]; [exact Htext|].
  now rewrite !string_forallb_app, Htext, Hsep, IH.
Qed.

Lemma json_dumps_printable (v : value) :
  string_forallb printable (json_dumps v) = true.
Proof.
  induction v as [ | [] | n | s | items IH | pairs IH] using value_ind';
    try reflexivity.
  - apply int_str_printable.
  - apply encode_str_printable.
  - cbn [json_dumps]. rewrite !string_forallb_app.
    rewrite concat_printable; [reflexivity | reflexivity |].
    apply Forall_map. exact IH.
  - cbn [json_dumps]. rewrite !string_forallb_app.
    rewrite concat_printable; [reflexivity | reflexivity |].
    apply Forall_map. eapply Forall_impl; [exact IH|].
    intros [k v] Hv. cbn [fst snd] in *.
    now rewrite !string_forallb_app, encode_str_printable, Hv.
Qed.

(** X24.  Whatever the clock reading and the value, the text [set] writes
    is printable ASCII on one line: [json.dump] escapes every other
    character of a string, and the timestamp is digits and
    punctuation. *)
Theorem entry_text_is_printable_ascii (self : GitHubStatsCache.t)
  (now : datetime) (key : string) (data : value) (fs fs' : filesystem) :
  GitHubStatsCache.set self now key data fs = (Ok tt, fs') ->
  exists text : string,
    fs' !! GitHubStatsCache._get_cache_path self key = Some (File text)
    /\ string_forallb printable text = true.
Proof.
  intros Hset. apply set_writes in Hset. subst fs'.
  exists (entry_text now data). split; [apply lookup_insert_eq|].
  apply json_dumps_printable.
Qed.

Lemma entry_text_is_printable_ascii_witness :
  exists text : string,
    <[k_path := File (entry_text noon (VStr latin_text))]> example_fs
    !! GitHubStatsCache._get_cache_path example_store "k"
    = Some (File text)
    /\ string_forallb printable text = true.
Proof.
  apply (entry_text_is_printable_ascii example_store noon "k"
           (VStr latin_text) example_fs).
  by_computation.
Defined.

Lemma substring_app_l (a b : string) :
  substring 0 (String.length a) (a ++ b) = a.
Proof.
  induction a as [|c a IH]; simpl.
  - now destruct b.
  - now rewrite IH.
Qed.

Lemma substring_app_r (a b : string) :
  substring (String.length a) (String.length b) (a ++ b) = b.
Proof.
  induction a as [|c a IH]; simpl; [|exact IH].
  induction b as [|c b IH]; simpl; [reflexivity | now rewrite IH].
Qed.

Lemma string_forallb_impl (p q : ascii -> bool) (s : string) :
  (forall c, p c = true -> q c = true) ->
  string_forallb p s = true -> string_forallb q s = true.
Proof.
  intros Hpq. induction s as [|c s IH]; [reflexivity|]. simpl.
  intros H. apply andb_true_iff in H as [Hc Hs].
  now rewrite (Hpq c Hc), IH.
Qed.

Lemma hex_char_no_separator (c : ascii) :
  is_hex_char c = true -> no_separator c = true.
Proof. destruct c as [[] [] [] [] [] [] [] []]; intros H; now try discriminate H. Qed.

(** X25.  Whatever characters the key holds, its entry file lies in the
    cache directory itself and is named by 32 hexadecimal digits and
    [.json]: the name follows the naming convention, holds no path
    separator, and is one that [clear] removes. *)
Theorem entry_path_is_a_digest_named_child (self : GitHubStatsCache.t)
  (key : string) :
  exists name : string,
    GitHubStatsCache._get_cache_path self key
    = os_path_join (GitHubStatsCache.cache_dir self) name
    /\ is_entry_name name = true
    /\ string_forallb no_separator name = true
    /\ cleared self (GitHubStatsCache._get_cache_path self key) = true.
Proof.
  exists (entry_name self key).
  destruct (hexdigest_spec (str_encode key)) as [Hlen Hhex].
  fold (GitHubStatsCache._get_cache_key self key) in Hlen, Hhex.
  split; [reflexivity|]. split; [|split].
  - unfold is_entry_name, entry_name.
    rewrite string_length_app, Hlen.
    change (32 + String.length ".json")%nat with 37%nat.
    rewrite Nat.eqb_refl. cbn [andb].
    rewrite <- Hlen at 1. rewrite substring_app_l, Hhex. cbn [andb].
    rewrite <- Hlen.
    change 5%nat with (String.length ".json").
    rewrite substring_app_r. reflexivity.
  - unfold entry_name. rewrite string_forallb_app. apply andb_true_iff.
    split; [|reflexivity].
    exact (string_forallb_impl _ _ _ hex_char_no_separator Hhex).
  - apply cleared_cache_path.
Qed.
